(** * Qodana CLI: container run path, run identifier and archive extraction

    A shallow embedding of the Go sources

    - [core] (container.go): [runQodanaContainer], [CheckImage], [pullImage],
      [ContainerCleanup], [getDockerOptions], [extractDockerVolumes],
      [runContainer], [getContainerExitCode], [fixDarwinCaches],
      [removePortSocket], [generateDebugDockerRunCommand];
    - [commoncontext] (compute.go): [computeId], [getHash], [Compute],
      [getLinterAndIdeFromProject] and the functions that compute the
      directories of a run;
    - [platform] (embed.go): [Decompress], [unpackZip], [extractTarGz],
      [isInDirectory];
    - [product]: the release constants, the maps of product codes and
      images, [Image], [allImages], [GuessProductCode];

    together with the parts of the Go standard library they rest on
    ([strings], [strconv], [path/filepath] for a POSIX host, [crypto/sha256],
    [encoding/hex], [encoding/base64]).  The container engine, the file
    system and the other surroundings of the process are records of answers;
    a run threads the state of the process (the package variable
    [containerName], the engine calls made, the messages printed) through a
    small monad whose outcomes are a return, a [log.Fatal] or a panic.

    Go strings are byte sequences; they are modelled by [string] (a list of
    8-bit [ascii]).  Go [int] values are modelled by [Z]. *)

From Stdlib Require Import ZArith Ascii DecimalString.
From stdpp Require Import base tactics option list strings gmap.

Local Open Scope Z_scope.

(** ** Package [strings] *)
Module strings.

(** [strings.HasPrefix(s, prefix)]. *)
Definition HasPrefix (s pre : string) : bool := String.prefix pre s.

(** [strings.Contains(s, substr)]: [substr] occurs at some offset of [s]. *)
Fixpoint Contains (s substr : string) : bool :=
  match s with
  | EmptyString => String.prefix substr EmptyString
  | String _ s' => String.prefix substr s || Contains s' substr
  end.

(** The scan of [strings.Split] for a non-empty separator: [skip] counts the
    bytes of a separator already matched that remain to be dropped. *)
Fixpoint genSplit (sep : string) (skip : nat) (s : string) : list string :=
  match s with
  | EmptyString => [EmptyString]
  | String c s' =>
      match skip with
      | S k => genSplit sep k s'
      | O =>
          if String.prefix sep s
          then EmptyString :: genSplit sep (pred (String.length sep)) s'
          else match genSplit sep O s' with
               | h :: t => String c h :: t
               | [] => [String c EmptyString]
               end
      end
  end.

(** The bytes of [s], one string each ([strings.Split] with an empty
    separator, on single-byte characters). *)
Fixpoint explode (s : string) : list string :=
  match s with
  | EmptyString => []
  | String c s' => String c EmptyString :: explode s'
  end.

(** [strings.Split(s, sep)]. *)
Definition Split (s sep : string) : list string :=
  match sep with
  | EmptyString => explode s
  | _ => genSplit sep O s
  end.

(** [strings.Join(elems, sep)]. *)
Fixpoint Join (elems : list string) (sep : string) : string :=
  match elems with
  | [] => EmptyString
  | [e] => e
  | e :: rest => e +:+ sep +:+ Join rest sep
  end.

(** Lower-casing of one byte (ASCII letters only). *)
Definition lowerByte (c : ascii) : ascii :=
  let n := N_of_ascii c in
  if ((65 <=? n) && (n <=? 90))%N then ascii_of_N (n + 32) else c.

(** [strings.ToLower(s)] on ASCII text. *)
Fixpoint ToLower (s : string) : string :=
  match s with
  | EmptyString => EmptyString
  | String c s' => String (lowerByte c) (ToLower s')
  end.

(** [strings.HasSuffix(s, suffix)]. *)
Definition HasSuffix (s suffix : string) : bool :=
  (String.length suffix <=? String.length s)%nat
  && String.eqb (String.substring (String.length s - String.length suffix)
                                  (String.length suffix) s) suffix.

(** [strings.TrimPrefix(s, prefix)]: [s[len(prefix):]] when [s] starts with
    [prefix], and [s] otherwise. *)
Definition TrimPrefix (s pre : string) : string :=
  if HasPrefix s pre
  then String.substring (String.length pre) (String.length s - String.length pre) s
  else s.

(** [strings.TrimSuffix(s, suffix)]: [s[:len(s)-len(suffix)]] when [s] ends
    with [suffix], and [s] otherwise. *)
Definition TrimSuffix (s suffix : string) : string :=
  if HasSuffix s suffix
  then String.substring 0 (String.length s - String.length suffix) s
  else s.

End strings.

(** ** Package [strconv] *)
Module strconv.

(** [strconv.Itoa(i)]: the decimal text of [i], with a leading minus sign
    for negative values. *)
Definition Itoa (i : Z) : string := NilZero.string_of_int (Z.to_int i).

End strconv.

(** ** Package [platform/strutil] *)
Module strutil.

(** Modelled from the spec: [strutil.SafeSplit] is not among the sources.
    The spec uses it for "the substring before the first path separator"
    (index 0) and for "the first two colon-delimited segments" (indices 0
    and 1): the segment of [s] at [index] when [s] is split on [delim],
    and the empty string when there is no such segment. *)
Definition SafeSplit (s delim : string) (index : nat) : string :=
  default EmptyString (strings.Split s delim !! index).

(** Modelled from the spec: [strutil.Lower] is not among the sources.
    The spec describes the match of error texts as "case-insensitive":
    the text is lower-cased before the search. *)
Definition Lower (s : string) : string := strings.ToLower s.

End strutil.

(** ** Package [path/filepath] on a POSIX host ([Separator] is [/]) *)
Module filepath.

Definition Separator : ascii := "/"%char.
Definition sepString : string := String Separator EmptyString.

(** [filepath.IsAbs(path)]. *)
Definition IsAbs (path : string) : bool := strings.HasPrefix path sepString.

(** One step of the element loop of [Clean].  [out] holds the elements
    written so far, the last one first; a leading run of [..] elements
    that cannot be removed (the prefix below the [dotdot] mark of the
    source) is counted in [ups]. *)
Definition cleanStep (rooted : bool) (st : nat * list string) (elem : string)
  : nat * list string :=
  let '(ups, out) := st in
  if String.eqb elem EmptyString then st            (* empty path element *)
  else if String.eqb elem "." then st               (* . element *)
  else if String.eqb elem ".." then
    match out with
    | _ :: out' => (ups, out')                      (* can backtrack *)
    | [] => if rooted then st else (S ups, [])      (* keep .. when not rooted *)
    end
  else (ups, elem :: out).                          (* real path element *)

(** [filepath.Clean(path)]. *)
Definition Clean (path : string) : string :=
  if String.eqb path EmptyString then "."
  else
    let rooted := IsAbs path in
    let '(ups, out) :=
      foldl (cleanStep rooted) (O, []) (strings.Split path sepString) in
    let body := strings.Join (replicate ups ".." ++ rev out) sepString in
    if rooted then sepString +:+ body
    else if String.eqb body EmptyString then "." else body.

(** [filepath.Join(elem...)]: the elements from the first non-empty one on,
    joined by the separator and cleaned; empty when all are empty. *)
Fixpoint Join (elem : list string) : string :=
  match elem with
  | [] => EmptyString
  | e :: rest =>
      if String.eqb e EmptyString then Join rest
      else Clean (strings.Join elem sepString)
  end.

(** [filepath.Abs(path)], given the result of [os.Getwd]. *)
Definition Abs (getwd : string + string) (path : string) : string + string :=
  if IsAbs path then inl (Clean path)
  else match getwd with
       | inl wd => inl (Join [wd; path])
       | inr err => inr err
       end.

(** The elements of a cleaned path for the element-wise walk of [Rel]:
    nothing for the empty path, and an empty first element for a rooted
    one. *)
Definition relElems (p : string) : list string :=
  if String.eqb p EmptyString then []
  else if String.eqb p sepString then [EmptyString]
  else strings.Split p sepString.

(** The loop of [Rel] that positions both paths at their first differing
    elements. *)
Fixpoint relSkip (base targ : list string) : list string * list string :=
  match base, targ with
  | b :: base', t :: targ' =>
      if String.eqb t b then relSkip base' targ' else (base, targ)
  | _, _ => (base, targ)
  end.

(** [filepath.Rel(basepath, targpath)]; [inr] carries the error text. *)
Definition Rel (basepath targpath : string) : string + string :=
  let base := Clean basepath in
  let targ := Clean targpath in
  if String.eqb targ base then inl "."
  else
    let base := if String.eqb base "." then EmptyString else base in
    let cant := inr ("Rel: can't make " +:+ targpath +:+ " relative to " +:+ basepath) in
    if negb (Bool.eqb (IsAbs base) (IsAbs targ)) then cant
    else
      let '(b, t) := relSkip (relElems base) (relElems targ) in
      (* [base[b0:bi]] is the differing element when the loop broke on a
         difference, and is empty when one of the paths ran out *)
      let differing :=
        match b, t with
        | b0 :: _, _ :: _ => b0
        | _, _ => EmptyString
        end in
      if String.eqb differing ".." then cant
      else
        match b with
        | [] => inl (strings.Join t sepString)
        | _ :: _ =>
            (* base elements left: go up before going down *)
            inl (strings.Join (replicate (length b) ".." ++ t) sepString)
        end.

End filepath.

(** ** Byte slices

    A Go [[]byte] is modelled, like a Go string, by [string]; the
    conversion [[]byte(s)] is the identity. *)
Module bytes.

Definition toZ (c : ascii) : Z := Z.of_N (N_of_ascii c).
Definition ofZ (z : Z) : ascii := ascii_of_N (Z.to_N (z mod 256)).

Fixpoint toList (s : string) : list Z :=
  match s with
  | EmptyString => []
  | String c s' => toZ c :: toList s'
  end.

Fixpoint ofList (l : list Z) : string :=
  match l with
  | [] => EmptyString
  | z :: l' => String (ofZ z) (ofList l')
  end.

(** The slice expression [s[lo:hi]]; [None] stands for the run-time panic
    of an out-of-range slice. *)
Definition slice (s : string) (lo hi : nat) : option string :=
  if decide (lo ≤ hi ∧ hi ≤ String.length s)%nat
  then Some (String.substring lo (hi - lo) s)
  else None.

End bytes.

(** ** Package [crypto/sha256] (FIPS 180-4) *)
Module sha256.

Definition w32 (x : Z) : Z := x mod 2 ^ 32.
Definition rotr (n x : Z) : Z :=
  Z.lor (Z.shiftr x n) (w32 (Z.shiftl x (32 - n))).

Definition Ch (x y z : Z) : Z := Z.lxor (Z.land x y) (Z.land (w32 (Z.lnot x)) z).
Definition Maj (x y z : Z) : Z :=
  Z.lxor (Z.lxor (Z.land x y) (Z.land x z)) (Z.land y z).
Definition bigSigma0 (x : Z) : Z := Z.lxor (Z.lxor (rotr 2 x) (rotr 13 x)) (rotr 22 x).
Definition bigSigma1 (x : Z) : Z := Z.lxor (Z.lxor (rotr 6 x) (rotr 11 x)) (rotr 25 x).
Definition smallSigma0 (x : Z) : Z := Z.lxor (Z.lxor (rotr 7 x) (rotr 18 x)) (Z.shiftr x 3).
Definition smallSigma1 (x : Z) : Z := Z.lxor (Z.lxor (rotr 17 x) (rotr 19 x)) (Z.shiftr x 10).

(** The first 64 primes. *)
Definition primes : list Z :=
  [ 2; 3; 5; 7; 11; 13; 17; 19; 23; 29; 31; 37; 41; 43; 47; 53;
    59; 61; 67; 71; 73; 79; 83; 89; 97; 101; 103; 107; 109; 113; 127; 131;
    137; 139; 149; 151; 157; 163; 167; 173; 179; 181; 191; 193; 197; 199; 211; 223;
    227; 229; 233; 239; 241; 251; 257; 263; 269; 271; 277; 281; 283; 293; 307; 311 ].

(** The integer cube root of [n], below [2 ^ bits], one bit at a time. *)
Fixpoint cbrtBits (bits : nat) (n r : Z) : Z :=
  match bits with
  | O => r
  | S b =>
      let r' := r + 2 ^ Z.of_nat b in
      cbrtBits b n (if r' * r' * r' <=? n then r' else r)
  end.

(** The round constants: the first 32 bits of the fractional parts of the
    cube roots of the first 64 primes (428a2f98, 71374491, ..., c67178f2). *)
Definition K : list Z :=
  Eval vm_compute in map (fun p => w32 (cbrtBits 36 (p * 2 ^ 96) 0)) primes.

(** The eight working words of the hash state. *)
Record digest := Digest {
  h0 : Z; h1 : Z; h2 : Z; h3 : Z; h4 : Z; h5 : Z; h6 : Z; h7 : Z }.

(** The initial hash value: the first 32 bits of the fractional parts of the
    square roots of the first 8 primes (6a09e667, ..., 5be0cd19). *)
Definition initWord (p : Z) : Z := w32 (Z.sqrt (p * 2 ^ 64)).

Definition init : digest :=
  Eval vm_compute in
    Digest (initWord 2) (initWord 3) (initWord 5) (initWord 7)
           (initWord 11) (initWord 13) (initWord 17) (initWord 19).

(** Padding: a one bit, zero bits up to 56 modulo 64 bytes, and the bit
    length of the message as a 64-bit big-endian number. *)
Definition be (width : nat) (x : Z) : list Z :=
  map (fun i => (Z.shiftr x (8 * Z.of_nat i)) mod 256) (rev (seq 0 width)).

Definition pad (msg : list Z) : list Z :=
  let n := Z.of_nat (length msg) in
  let zeros := Z.to_nat ((55 - n) mod 64) in
  msg ++ [0x80] ++ replicate zeros 0 ++ be 8 (8 * n).

(** The big-endian 32-bit words of a byte sequence. *)
Fixpoint words (l : list Z) : list Z :=
  match l with
  | a :: b :: c :: d :: rest =>
      (Z.shiftl a 24 + Z.shiftl b 16 + Z.shiftl c 8 + d) :: words rest
  | _ => []
  end.

(** Message schedule; [w] holds the words computed so far, the latest
    first. *)
Fixpoint extend (n : nat) (w : list Z) : list Z :=
  match n with
  | O => w
  | S n' =>
      let at_ i := nth i w 0 in
      extend n'
        (w32 (smallSigma1 (at_ 1%nat) + at_ 6%nat + smallSigma0 (at_ 14%nat) + at_ 15%nat) :: w)
  end.

Definition schedule (block : list Z) : list Z := rev (extend 48 (rev block)).

Definition round (d : digest) (kw : Z * Z) : digest :=
  let '(k, w) := kw in
  let t1 := w32 (h7 d + bigSigma1 (h4 d) + Ch (h4 d) (h5 d) (h6 d) + k + w) in
  let t2 := w32 (bigSigma0 (h0 d) + Maj (h0 d) (h1 d) (h2 d)) in
  Digest (w32 (t1 + t2)) (h0 d) (h1 d) (h2 d) (w32 (h3 d + t1)) (h4 d) (h5 d) (h6 d).

Definition compress (d : digest) (block : list Z) : digest :=
  let r := foldl round d (zip K (schedule block)) in
  Digest (w32 (h0 d + h0 r)) (w32 (h1 d + h1 r)) (w32 (h2 d + h2 r))
         (w32 (h3 d + h3 r)) (w32 (h4 d + h4 r)) (w32 (h5 d + h5 r))
         (w32 (h6 d + h6 r)) (w32 (h7 d + h7 r)).

(** The 16-word blocks of the padded message; [n] bounds their number. *)
Fixpoint blocks (n : nat) (ws : list Z) : list (list Z) :=
  match n, ws with
  | S n', _ :: _ => take 16 ws :: blocks n' (drop 16 ws)
  | _, _ => []
  end.

Definition digestBytes (d : digest) : list Z :=
  be 4 (h0 d) ++ be 4 (h1 d) ++ be 4 (h2 d) ++ be 4 (h3 d) ++
  be 4 (h4 d) ++ be 4 (h5 d) ++ be 4 (h6 d) ++ be 4 (h7 d).

(** [sha256.Sum256(data)]: the 32 bytes of the checksum. *)
Definition Sum256 (data : string) : string :=
  let ws := words (pad (bytes.toList data)) in
  bytes.ofList (digestBytes (foldl compress init (blocks (length ws) ws))).

End sha256.

(** ** Package [encoding/hex] *)
Module hex.

Definition hextable : string := "0123456789abcdef".

Definition digit (n : Z) : ascii :=
  default "0"%char (String.get (Z.to_nat n) hextable).

(** [hex.EncodeToString(src)]: two lower-case digits a byte. *)
Fixpoint EncodeToString (src : string) : string :=
  match src with
  | EmptyString => EmptyString
  | String c rest =>
      String (digit (bytes.toZ c / 16))
        (String (digit (bytes.toZ c mod 16)) (EncodeToString rest))
  end.

End hex.

(** ** Package [encoding/base64], the padded URL alphabet *)
Module base64.

Definition encodeURL : string :=
  "ABCDEFGHIJKLMNOPQRSTUVWXYZabcdefghijklmnopqrstuvwxyz0123456789-_".

Definition sextet (n : Z) : ascii :=
  default "="%char (String.get (Z.to_nat (n mod 64)) encodeURL).

Fixpoint encode (src : list Z) : string :=
  match src with
  | [] => EmptyString
  | [a] =>
      String (sextet (a / 4)) (String (sextet (a mod 4 * 16)) "==")
  | [a; b] =>
      String (sextet (a / 4))
        (String (sextet (a mod 4 * 16 + b / 16))
           (String (sextet (b mod 16 * 4)) "="))
  | a :: b :: c :: rest =>
      String (sextet (a / 4))
        (String (sextet (a mod 4 * 16 + b / 16))
           (String (sextet (b mod 16 * 4 + c / 64))
              (String (sextet c) (encode rest))))
  end.

(** [base64.URLEncoding.EncodeToString(src)]. *)
Definition URLEncoding_EncodeToString (src : string) : string :=
  encode (bytes.toList src).

End base64.

(** ** Package [platform/product] *)
Module product.

Definition ReleaseVersion : string := "2025.1".
Definition ShortVersion : string := "251".
Definition IsReleased : bool := true.

(** The analyzer of a scan context.  The source tells a
    [*product.DockerAnalyzer], which carries the image reference, from
    every other implementation of the analyzer interface by a type
    assertion; the other implementations are kept by their name only. *)
Inductive Analyzer :=
| DockerAnalyzer (Image : string)
| NativeAnalyzer (Name : string).

Definition EapSuffix : string := "-EAP".

(** The product codes. *)
Definition QDJVMC : string := "QDJVMC".
Definition QDJVM : string := "QDJVM".
Definition QDAND : string := "QDAND".
Definition QDPHP : string := "QDPHP".
Definition QDPY : string := "QDPY".
Definition QDPYC : string := "QDPYC".
Definition QDJS : string := "QDJS".
Definition QDGO : string := "QDGO".
Definition QDNET : string := "QDNET".
Definition QDNETC : string := "QDNETC".
Definition QDANDC : string := "QDANDC".
Definition QDRST : string := "QDRST".
Definition QDRUBY : string := "QDRUBY".
Definition QDCLC : string := "QDCLC".
Definition QDCPP : string := "QDCPP".

(** The map literals of the package, as finite maps. *)
Definition Products : gmap string string :=
  list_to_map
    [ (QDJVM, "IIU"); (QDJVMC, "IIC"); (QDPHP, "PS"); (QDJS, "WS"); (QDNET, "RD");
      (QDPY, "PCP"); (QDPYC, "PCC"); (QDGO, "GO"); (QDRUBY, "RM"); (QDRST, "RR");
      (QDCPP, "CL") ].

Definition DockerImageMap : gmap string string :=
  list_to_map
    [ (QDAND, "jetbrains/qodana-android:");
      (QDANDC, "jetbrains/qodana-jvm-android:");
      (QDPHP, "jetbrains/qodana-php:");
      (QDJS, "jetbrains/qodana-js:");
      (QDNET, "jetbrains/qodana-dotnet:");
      (QDCPP, "jetbrains/qodana-cpp:");
      (QDNETC, "jetbrains/qodana-cdnet:");
      (QDPY, "jetbrains/qodana-python:");
      (QDPYC, "jetbrains/qodana-python-community:");
      (QDGO, "jetbrains/qodana-go:");
      (QDJVM, "jetbrains/qodana-jvm:");
      (QDJVMC, "jetbrains/qodana-jvm-community:");
      (QDCLC, "jetbrains/qodana-clang:");
      (QDRUBY, "jetbrains/qodana-ruby:") ].

(** [AllNativeCodes] is a list of all supported Qodana linters product
    codes. *)
Definition AllNativeCodes : list string :=
  [QDNET; QDJVM; QDJVMC; QDGO; QDPY; QDPYC; QDJS; QDPHP].

(** [Image(code)]; [inr] carries the text of [log.Fatal], which ends the
    process. *)
Definition Image (code : string) : string + string :=
  match DockerImageMap !! code with
  | Some val =>
      if negb IsReleased then inl (val +:+ ReleaseVersion +:+ "-eap")
      else if String.eqb code QDNETC || String.eqb code QDCLC
              || String.eqb code QDRUBY || String.eqb code QDCPP
      then inl (val +:+ ReleaseVersion +:+ "-eap")
      else inl (val +:+ ReleaseVersion)
  | None => inr ("Unknown code: " +:+ code)
  end.

Definition AllSupportedPaidCodes : list string :=
  [QDJVM; QDPHP; QDPY; QDJS; QDGO; QDNET; QDAND; QDCPP; QDRUBY].
Definition AllSupportedFreeCodes : list string :=
  [QDJVMC; QDPYC; QDANDC; QDNETC; QDCLC].
Definition AllFixesSupportedProducts : list string :=
  [QDJVM; QDNET; QDPY; QDJS; QDPHP; QDGO; QDAND; QDRUBY].

(** [allImages(codes)]: the images of the codes, in order; the first code
    without an image ends the process. *)
Fixpoint allImages (codes : list string) : list string + string :=
  match codes with
  | [] => inl []
  | code :: rest =>
      match Image code with
      | inr fatal => inr fatal
      | inl image =>
          match allImages rest with
          | inr fatal => inr fatal
          | inl images => inl (image :: images)
          end
      end
  end.

(** The package variables computed when the package is initialized. *)
Definition AllSupportedFreeImages : list string + string :=
  allImages AllSupportedFreeCodes.

(** [AllImages] is a list of all supported linters. *)
Definition AllImages : list string + string :=
  match AllSupportedFreeImages with
  | inr fatal => inr fatal
  | inl free =>
      match allImages AllSupportedPaidCodes with
      | inr fatal => inr fatal
      | inl paid => inl (paid ++ free)
      end
  end.

(** [AllCodes] is a list of codes for all supported linters. *)
Definition AllCodes : list string := AllSupportedPaidCodes ++ AllSupportedFreeCodes.

(** The loop [for k, v := range DockerImageMap] of [GuessProductCode].  Go
    leaves the order of a range over a map unspecified; [order] is the
    sequence of entries that the range yields. *)
Fixpoint firstImageWithPrefix (linter : string) (order : list (string * string))
  : string :=
  match order with
  | [] => EmptyString
  | (k, v) :: rest =>
      if strings.HasPrefix linter v then k else firstImageWithPrefix linter rest
  end.

Definition GuessProductCode (order : list (string * string)) (ide linter : string)
  : string :=
  if negb (String.eqb ide EmptyString) then
    let productCode := strings.TrimSuffix ide EapSuffix in
    match Products !! productCode with
    | Some _ => productCode
    | None => EmptyString
    end
  else if negb (String.eqb linter EmptyString) then
    let linter := strings.TrimPrefix linter "https://" in
    let linter :=
      if strings.HasPrefix linter "registry.jetbrains.team/p/sa/containers/"
      then "jetbrains/"
           +:+ strings.TrimPrefix linter "registry.jetbrains.team/p/sa/containers/"
      else linter in
    firstImageWithPrefix linter order
  else EmptyString.

End product.

(** ** Container engine data (Docker API types) *)

Module mount.
Definition TypeBind : string := "bind".
Record Mount := { Type_ : string; Source : string; Target : string }.
End mount.

Module network.
Definition NetworkHost : string := "host".
End network.

Module nat_.
(** [nat.PortBinding]; a [nat.PortMap] is a [gmap string (list PortBinding)]
    and a [nat.PortSet] a [gset string], both keyed by the port. *)
Record PortBinding := { HostIP : string; HostPort : string }.
End nat_.

Module container.

Record Config := {
  Image : string;
  Cmd : list string;
  Tty : bool;
  AttachStdout : bool;
  AttachStderr : bool;
  Env : list string;
  User : string;
  ExposedPorts : gset string }.

Record HostConfig := {
  AutoRemove : bool;
  Mounts : list mount.Mount;
  CapAdd : list string;
  SecurityOpt : list string;
  PortBindings : gmap string (list nat_.PortBinding);
  NetworkMode : string }.

(** A result of [ContainerWait]: a value on the error channel (possibly a
    nil error) or a status on the status channel, whichever the [select]
    receives. *)
Inductive WaitResult :=
| WaitErr (err : option string)
| WaitStatus (StatusCode : Z).

(** An entry of [ContainerList]. *)
Record Summary := { Names : list string }.

End container.

Module backend.
Record ContainerCreateConfig := {
  Name : string;
  Config : container.Config;
  HostConfig : container.HostConfig }.
End backend.

Module types.
Record ImagePullOptions := { RegistryAuth : string }.
Record Info := { OSType : string }.
End types.

Module registry.
Record AuthConfig := {
  Username : string; Password : string; Auth : string; Email : string;
  ServerAddress : string; IdentityToken : string; RegistryToken : string }.
End registry.

(** ** The scan context ([corescan.Context]), by its accessors *)
Module corescan.
Record Context := {
  Analyser : product.Analyzer;
  CacheDir : string;
  ProjectDir : string;
  ResultsDir : string;
  ReportDir : string;
  GlobalConfigurationsDir : string;
  SkipPull : bool;
  Env : list string;
  QodanaUploadToken : string;
  Id : string;
  Volumes : list string;
  User : string;
  JvmDebugPort : Z }.
End corescan.

(** ** The process and its surroundings *)

(** A call made to the container engine through the client. *)
Inductive Call :=
| CallInfo
| CallImagePull (image : string) (opts : types.ImagePullOptions)
| CallContainerCreate (cfg : backend.ContainerCreateConfig)
| CallContainerStart (id : string)
| CallContainerWait (id : string)
| CallContainerList
| CallContainerStop (name : string).

(** The response stream of an image pull: draining it and closing it may
    each fail. *)
Record PullStream := { copyErr : option string; closeErr : option string }.

(** The container engine behind the client.  A Go result [(v, err)] is a sum
    whose right side carries the text of the error.  Every answer may depend
    on the calls made before it. *)
Record Engine := {
  engInfo : list Call -> types.Info + string;
  engImagePull : list Call -> string -> types.ImagePullOptions -> PullStream + string;
  engContainerCreate : list Call -> backend.ContainerCreateConfig -> string + string;
  engContainerStart : list Call -> string -> option string;
  engContainerWait : list Call -> string -> container.WaitResult;
  engContainerList : list Call -> list container.Summary + string;
  engContainerStop : list Call -> string -> option string }.

(** What the process reads from its host. *)
Record World := {
  Getenv : string -> string;                       (* os.Getenv *)
  Getwd : string + string;                         (* os.Getwd *)
  CloudRootEndpointUrl : string;                   (* cloud.GetCloudRootEndpoint().Url *)
  IsInteractive : bool;                            (* msg.IsInteractive() *)
  engine : Engine;                                 (* qdcontainer.GetContainerClient() *)
  (* cliconfig.Load(""), and GetAuthConfig of the loaded file *)
  cliconfigLoad : (string -> registry.AuthConfig + string) + string;
  jsonMarshal : registry.AuthConfig -> string + string  (* json.Marshal *) }.

(** A message for the user: the arguments of a call to [msg.WarningMessageCI]
    or [msg.ErrorMessage]. *)
Inductive Message :=
| WarningCI (format : string) (args : list string)
| ErrorMsg (text : string).

(** The state of the process: the package variable [containerName], the engine
    calls made so far and the messages printed so far (both oldest first). *)
Record Proc := {
  containerName : string;
  calls : list Call;
  messages : list Message }.

(** The state at process start: [containerName = "qodana-cli"]. *)
Definition initialProc : Proc :=
  {| containerName := "qodana-cli"; calls := []; messages := [] |}.

(** How a computation ends: it returns, or the process is terminated by
    [log.Fatal] (which exits with status 1), or it panics. *)
Inductive Outcome (A : Type) :=
| Done (a : A)
| Fatal (text : string)
| Panic (text : string).
Arguments Done {A} a.
Arguments Fatal {A} text.
Arguments Panic {A} text.

Definition M (A : Type) : Type := Proc -> Outcome A * Proc.

Global Instance M_ret : MRet M := fun A a s => (Done a, s).

Global Instance M_bind : MBind M := fun A B k m s =>
  match m s with
  | (Done a, s') => k a s'
  | (Fatal t, s') => (Fatal t, s')
  | (Panic t, s') => (Panic t, s')
  end.

Definition logFatal {A} (text : string) : M A := fun s => (Fatal text, s).
Definition panic {A} (text : string) : M A := fun s => (Panic text, s).
Definition emit (m : Message) : M unit :=
  fun s => (Done tt, {| containerName := containerName s; calls := calls s;
                        messages := messages s ++ [m] |}).
Definition getContainerName : M string := fun s => (Done (containerName s), s).
Definition setContainerName (n : string) : M unit :=
  fun s => (Done tt, {| containerName := n; calls := calls s;
                        messages := messages s |}).

(** An engine call: the answer is taken from the engine at the current
    history and the call is recorded. *)
Definition engineCall {A} (c : Call) (answer : list Call -> A) : M A :=
  fun s => (Done (answer (calls s)),
            {| containerName := containerName s; calls := calls s ++ [c];
               messages := messages s |}).

Fixpoint forEach {A} (l : list A) (body : A -> M unit) : M unit :=
  match l with
  | [] => mret tt
  | x :: l' => body x;; forEach l' body
  end.

(** The line feed of the Go format strings. *)
Definition nl : string := String (ascii_of_nat 10) EmptyString.

(** ** Packages [platform/qdenv] and [platform/qdcontainer]

    The names of the environment variables and the directories inside the
    container are constants of packages that are not among the sources; they
    are parameters of the development. *)
Module qdenv.
Record Names := {
  QodanaToken : string;
  QodanaLicenseOnlyToken : string;
  QodanaCliContainerName : string;
  QodanaCliContainerKeep : string }.
End qdenv.

Module qdcontainer.
Record Dirs := {
  DataCacheDir : string;
  DataProjectDir : string;
  DataResultsDir : string;
  DataResultsReportDir : string;
  DataGlobalConfigDir : string }.
End qdcontainer.

(** ** Package [core]: the container run *)
Section core.

Variable GOOS : string.                          (* runtime.GOOS *)
Variable Version : string.                       (* version.Version *)
Variable names : qdenv.Names.
Variable dirs : qdcontainer.Dirs.
(** [GetIdeArgs] is defined outside the sources; the builder passes its
    result on unchanged. *)
Variable GetIdeArgs : corescan.Context -> list string.
(** Modelled from the spec: [qdenv.ExtractQodanaEnvironment] and
    [Context.WithEnvExtractedFromOsEnv] are not among the sources.  The
    spec describes the extraction as "a copy-on-write style update that
    returns a new context value" through "a scoped with-extra-environment-
    variable constructor": the context after it differs from the one before
    in its environment list only, and this is that list. *)
Variable envExtractedFromOsEnv : World -> corescan.Context -> list string.
Variable w : World.

Definition officialImagePrefix : string := "jetbrains/qodana".
Definition containerJvmDebugPort : string := "5005".
Definition containerNameSentinel : string := "qodana-cli".

(** The context after [qdenv.ExtractQodanaEnvironment(updateScanContextEnv)]. *)
Definition withExtractedEnv (c : corescan.Context) : corescan.Context :=
  {| corescan.Analyser := corescan.Analyser c;
     corescan.CacheDir := corescan.CacheDir c;
     corescan.ProjectDir := corescan.ProjectDir c;
     corescan.ResultsDir := corescan.ResultsDir c;
     corescan.ReportDir := corescan.ReportDir c;
     corescan.GlobalConfigurationsDir := corescan.GlobalConfigurationsDir c;
     corescan.SkipPull := corescan.SkipPull c;
     corescan.Env := envExtractedFromOsEnv w c;
     corescan.QodanaUploadToken := corescan.QodanaUploadToken c;
     corescan.Id := corescan.Id c;
     corescan.Volumes := corescan.Volumes c;
     corescan.User := corescan.User c;
     corescan.JvmDebugPort := corescan.JvmDebugPort c |}.

(** *** Image policy *)

Definition isUnofficialLinter (linter : string) : bool :=
  negb (strings.HasPrefix linter officialImagePrefix).

Definition hasExactVersionTag (linter : string) : bool :=
  strings.Contains linter ":" && negb (strings.Contains linter ":latest").

Definition isCompatibleLinter (linter : string) : bool :=
  strings.Contains linter product.ReleaseVersion.

Definition unofficialFormat : string :=
  "You are using an unofficial Qodana linter: %s" +:+ nl.
Definition unpinnedFormat : string :=
  "You are running a Qodana linter without an exact version tag: %s " +:+ nl
  +:+ "   Consider pinning the version in your configuration to ensure version compatibility: %s"
  +:+ nl.
Definition incompatibleFormat : string :=
  "You are using a non-compatible Qodana linter %s with the current CLI (%s) " +:+ nl
  +:+ "   Consider updating CLI or using a compatible linter %s " +:+ nl.

Definition pinnedSuggestion (linter : string) : string :=
  strings.Join [strutil.SafeSplit linter ":" 0; product.ReleaseVersion] ":".

Definition unofficialWarning (linter : string) : Message :=
  WarningCI unofficialFormat [linter].
Definition unpinnedWarning (linter : string) : Message :=
  WarningCI unpinnedFormat [linter; pinnedSuggestion linter].
Definition incompatibleWarning (linter : string) : Message :=
  WarningCI incompatibleFormat [linter; Version; pinnedSuggestion linter].

Definition CheckImage (linter : string) : M unit :=
  if strings.Contains Version "nightly" || strings.Contains Version "dev"
  then mret tt
  else
    (if isUnofficialLinter linter then emit (unofficialWarning linter)
     else mret tt);;
    if negb (hasExactVersionTag linter) then emit (unpinnedWarning linter)
    else if negb (isCompatibleLinter linter) then emit (incompatibleWarning linter)
    else mret tt.

(** [fixDarwinCaches]: on darwin it removes [.port] files below the cache
    directory and downgrades a failure to a logged warning.  It touches
    files only: no engine call, no message of the kinds recorded in [Proc],
    and no termination. *)
Definition fixDarwinCaches (cacheDir : string) : M unit := mret tt.

(** *** Registry puller *)

Definition encodeAuthToBase64 (authConfig : registry.AuthConfig) : string + string :=
  match jsonMarshal w authConfig with
  | inr err => inr err
  | inl buf => inl (base64.URLEncoding_EncodeToString buf)
  end.

Definition isDockerUnauthorizedError (errMsg : string) : bool :=
  let errMsg := strutil.Lower errMsg in
  strings.Contains errMsg "unauthorized" || strings.Contains errMsg "denied"
  || strings.Contains errMsg "forbidden".

Definition ImagePull (image : string) (opts : types.ImagePullOptions)
  : M (PullStream + string) :=
  engineCall (CallImagePull image opts)
             (fun h => engImagePull (engine w) h image opts).

(** The tail of [pullImage]: the response is drained, then closed by the
    deferred call.  [log.Fatal] on a failed drain exits at once, so the
    deferred close does not run then. *)
Definition drainAndClose (reader : PullStream) : M unit :=
  match copyErr reader with
  | Some err => logFatal ("couldn't read the image pull logs " +:+ err)
  | None =>
      match closeErr reader with
      | Some err => logFatal ("can't pull image " +:+ err)
      | None => mret tt
      end
  end.

Definition anonymousPull : types.ImagePullOptions := {| types.RegistryAuth := "" |}.

Definition pullImage (image : string) : M unit :=
  r ← ImagePull image anonymousPull;
  match r with
  | inl reader => drainAndClose reader
  | inr err =>
      if isDockerUnauthorizedError err then
        match cliconfigLoad w with
        | inr err => logFatal err
        | inl cfg =>
            let registryHostname := strutil.SafeSplit image "/" 0 in
            match cfg registryHostname with
            | inr err => logFatal ("can't load the auth config" +:+ err)
            | inl a =>
                match encodeAuthToBase64 a with
                | inr err => logFatal ("can't encode auth to base64" +:+ err)
                | inl encodedAuth =>
                    r ← ImagePull image {| types.RegistryAuth := encodedAuth |};
                    match r with
                    | inr err =>
                        logFatal ("can't pull image from the private registry" +:+ err)
                    | inl reader => drainAndClose reader
                    end
                end
            end
        end
      else logFatal ("can't pull image " +:+ err)
  end.

(** [PullImage] wraps [pullImage] in a progress printer. *)
Definition PullImage (image : string) : M unit := pullImage image.

(** *** Cleanup *)

Definition ContainerCleanup : M unit :=
  name ← getContainerName;
  if negb (String.eqb name "qodana-cli") then
    r ← engineCall CallContainerList (fun h => engContainerList (engine w) h);
    match r with
    | inr err => logFatal ("couldn't get the running containers " +:+ err)
    | inl containers =>
        forEach containers (fun c =>
          match container.Names c with
          | [] => panic "index out of range [0] with length 0"
          | n0 :: _ =>
              name ← getContainerName;
              if String.eqb n0 ("/" +:+ name) then
                r ← engineCall (CallContainerStop n0)
                      (fun h => engContainerStop (engine w) h n0);
                match r with
                | Some err => logFatal ("couldn't stop the container " +:+ err)
                | None => mret tt
                end
              else mret tt
          end)
    end
  else mret tt.

(** *** Container configuration builder *)

Definition extractDockerVolumes (volume : string) : string * string :=
  if String.eqb GOOS "windows" then
    match strings.Split volume ":" with
    | p0 :: p1 :: p2 :: _ => (p0 +:+ ":" +:+ p1, p2)
    | _ => (EmptyString, EmptyString)
    end
  else
    let source := strutil.SafeSplit volume ":" 0 in
    let target := strutil.SafeSplit volume ":" 1 in
    if negb (String.eqb source EmptyString) && negb (String.eqb target EmptyString)
    then (source, target)
    else (EmptyString, EmptyString).

Definition bindMount (source target : string) : mount.Mount :=
  {| mount.Type_ := mount.TypeBind; mount.Source := source; mount.Target := target |}.

(** [filepath.Abs] with [log.Fatal] on failure. *)
Definition absOrFatal (what path : string) : M string :=
  match filepath.Abs (Getwd w) path with
  | inl p => mret p
  | inr err => logFatal (what +:+ err)
  end.

(** The loop over the user's volumes: each one is parsed and appended, and
    the first that does not parse terminates the process. *)
Fixpoint appendUserVolumes (volumes : list mount.Mount) (user : list string)
  : M (list mount.Mount) :=
  match user with
  | [] => mret volumes
  | volume :: rest =>
      let '(source, target) := extractDockerVolumes volume in
      if negb (String.eqb source EmptyString) && negb (String.eqb target EmptyString)
      then appendUserVolumes (volumes ++ [bindMount source target]) rest
      else logFatal ("couldn't parse volume " +:+ volume)
  end.

Definition getDockerOptions (c : corescan.Context) (image : string)
  : M backend.ContainerCreateConfig :=
  let cmdOpts := GetIdeArgs c in
  let c := withExtractedEnv c in
  let dockerEnv := corescan.Env c in
  let qodanaCloudUploadToken := corescan.QodanaUploadToken c in
  let dockerEnv :=
    if negb (String.eqb qodanaCloudUploadToken EmptyString)
    then dockerEnv ++ [qdenv.QodanaToken names +:+ "=" +:+ qodanaCloudUploadToken]
    else dockerEnv in
  let qodanaLicenseOnlyToken := Getenv w (qdenv.QodanaLicenseOnlyToken names) in
  let dockerEnv :=
    if negb (String.eqb qodanaLicenseOnlyToken EmptyString)
       && String.eqb qodanaCloudUploadToken EmptyString
    then dockerEnv ++ [qdenv.QodanaLicenseOnlyToken names +:+ "=" +:+ qodanaLicenseOnlyToken]
    else dockerEnv in
  cachePath ← absOrFatal "couldn't get abs path for cache" (corescan.CacheDir c);
  projectPath ← absOrFatal "couldn't get abs path for project" (corescan.ProjectDir c);
  resultsPath ← absOrFatal "couldn't get abs path for results" (corescan.ResultsDir c);
  reportPath ← absOrFatal "couldn't get abs path for report" (corescan.ReportDir c);
  setContainerName (Getenv w (qdenv.QodanaCliContainerName names));;
  name ← getContainerName;
  (if String.eqb name EmptyString
   then setContainerName ("qodana-cli-" +:+ corescan.Id c)
   else mret tt);;
  let volumes :=
    [ bindMount cachePath (qdcontainer.DataCacheDir dirs);
      bindMount projectPath (qdcontainer.DataProjectDir dirs);
      bindMount resultsPath (qdcontainer.DataResultsDir dirs);
      bindMount reportPath (qdcontainer.DataResultsReportDir dirs) ] in
  volumes ←
    (if negb (String.eqb (corescan.GlobalConfigurationsDir c) EmptyString) then
       globalConfigDirAbsPath ←
         absOrFatal
           ("Failed to get absolute path for global configurations file "
            +:+ corescan.GlobalConfigurationsDir c +:+ ": ")
           (corescan.GlobalConfigurationsDir c);
       mret (volumes ++ [bindMount globalConfigDirAbsPath
                                   (qdcontainer.DataGlobalConfigDir dirs)])
     else mret volumes);
  volumes ← appendUserVolumes volumes (corescan.Volumes c);
  let '(portBindings, exposedPorts) :=
    if 0 <? corescan.JvmDebugPort c then
      ({[ containerJvmDebugPort :=
            [ {| nat_.HostIP := "0.0.0.0";
                 nat_.HostPort := strconv.Itoa (corescan.JvmDebugPort c) |} ] ]},
       {[ containerJvmDebugPort ]})
    else ((∅ : gmap string (list nat_.PortBinding)), (∅ : gset string)) in
  let '(capAdd, securityOpt) :=
    if strings.Contains image "dotnet"
    then (["SYS_PTRACE"], ["seccomp=unconfined"])
    else ([], []) in
  let isLocalHttpCloud := strings.HasPrefix (CloudRootEndpointUrl w) "http://" in
  let networkMode := if isLocalHttpCloud then network.NetworkHost else EmptyString in
  name ← getContainerName;
  mret
    {| backend.Name := name;
       backend.Config :=
         {| container.Image := image;
            container.Cmd := cmdOpts;
            container.Tty := IsInteractive w;
            container.AttachStdout := true;
            container.AttachStderr := true;
            container.Env := dockerEnv;
            container.User := corescan.User c;
            container.ExposedPorts := exposedPorts |};
       backend.HostConfig :=
         {| container.AutoRemove :=
              String.eqb (Getenv w (qdenv.QodanaCliContainerKeep names)) EmptyString;
            container.Mounts := volumes;
            container.CapAdd := capAdd;
            container.SecurityOpt := securityOpt;
            container.PortBindings := portBindings;
            container.NetworkMode := networkMode |} |}.

(** *** Container lifecycle driver *)

Definition runContainer (opts : backend.ContainerCreateConfig) : M unit :=
  r ← engineCall (CallContainerCreate opts)
        (fun h => engContainerCreate (engine w) h opts);
  match r with
  | inr err => logFatal ("couldn't create the container " +:+ err)
  | inl createRespID =>
      r ← engineCall (CallContainerStart createRespID)
            (fun h => engContainerStart (engine w) h createRespID);
      match r with
      | Some err => logFatal ("couldn't bootstrap the container " +:+ err)
      | None => mret tt
      end
  end.

Definition getContainerExitCode (id : string) : M Z :=
  r ← engineCall (CallContainerWait id)
        (fun h => engContainerWait (engine w) h id);
  match r with
  | container.WaitErr (Some err) => logFatal ("container hasn't finished " +:+ err)
  | container.WaitErr None => mret 0
  | container.WaitStatus code => mret code
  end.

(** [runQodanaContainer].  The spinner, the debug logging of the equivalent
    command line and the concurrent log follower ([go followLinter]) only
    observe the run and are left out. *)
Definition runQodanaContainer (c : corescan.Context) : M Z :=
  match corescan.Analyser c with
  | product.NativeAnalyzer _ => logFatal "Context is not a DockerAnalyzer"
  | product.DockerAnalyzer image =>
      r ← engineCall CallInfo (fun h => engInfo (engine w) h);
      match r with
      | inr err => logFatal ("Couldn't retrieve Docker daemon information" +:+ err)
      | inl info =>
          if negb (String.eqb (types.OSType info) "linux") then
            emit (ErrorMsg "Container engine is not running a Linux platform, other platforms are not supported by Qodana");;
            mret 1
          else
            fixDarwinCaches (corescan.CacheDir c);;
            CheckImage image;;
            (if negb (corescan.SkipPull c) then PullImage image else mret tt);;
            dockerConfig ← getDockerOptions c image;
            runContainer dockerConfig;;
            exitCode ← getContainerExitCode (backend.Name dockerConfig);
            fixDarwinCaches (corescan.CacheDir c);;
            mret exitCode
      end
  end.

End core.

(** *** The equivalent command line, for the debug log *)
Section debug_command.

Variable names : qdenv.Names.
Variable QodanaLicense : string.                 (* qdenv.QodanaLicense *)

(** What the loop over the environment writes for one entry. *)
Definition debugEnv (env : string) : string :=
  if negb (strings.Contains env (qdenv.QodanaToken names))
     || strings.Contains env QodanaLicense
     || strings.Contains env (qdenv.QodanaLicenseOnlyToken names)
  then "-e " +:+ env +:+ " "
  else EmptyString.

(** The text of a [strings.Builder] after the given writes. *)
Definition written (parts : list string) : string := foldr String.app EmptyString parts.

(** [generateDebugDockerRunCommand], on the fields of its argument: the
    [Config] it points to, and the [HostConfig], a pointer that may be
    nil. *)
Definition generateDebugDockerRunCommand
    (Config : container.Config) (HostConfig : option container.HostConfig) : string :=
  written
    ([ "docker run " ]
     ++ match HostConfig with
        | Some h => if container.AutoRemove h then [ "--rm " ] else []
        | None => []
        end
     ++ (if container.AttachStdout Config then [ "-a stdout " ] else [])
     ++ (if container.AttachStderr Config then [ "-a stderr " ] else [])
     ++ (if container.Tty Config then [ "-it " ] else [])
     ++ (if negb (String.eqb (container.User Config) EmptyString)
         then [ "-u " +:+ container.User Config +:+ " " ] else [])
     ++ map debugEnv (container.Env Config)
     ++ match HostConfig with
        | Some h =>
            map (fun m => "-v " +:+ mount.Source m +:+ ":" +:+ mount.Target m +:+ " ")
                (container.Mounts h)
            ++ map (fun capAdd => "--cap-add " +:+ capAdd +:+ " ") (container.CapAdd h)
            ++ map (fun secOpt => "--security-opt " +:+ secOpt +:+ " ")
                   (container.SecurityOpt h)
        | None => []
        end
     ++ [ container.Image Config +:+ " " ]
     ++ map (fun arg => arg +:+ " ") (container.Cmd Config)).

End debug_command.

(** *** The stale port files of the cache ([removePortSocket])

    [fixDarwinCaches] with the file system it works on: the calls it makes
    (oldest first) and the warning it logs. *)
Module disk.

(** An entry of [os.ReadDir]. *)
Record DirEntry := { Name : string; IsDir : bool }.

Inductive Op :=
| ReadDir (path : string)
| Stat (path : string)
| Remove (path : string).

Section disk.

Variable GOOS : string.                                        (* runtime.GOOS *)
Variable readDir : list Op -> string -> list DirEntry + string.  (* os.ReadDir *)
Variable stat : list Op -> string -> option string.            (* the error of os.Stat *)
Variable remove : list Op -> string -> option string.          (* os.Remove *)

(** The loop of [removePortSocket] over the entries of the directory. *)
Fixpoint removePorts (ideaDir : string) (files : list DirEntry) (ops : list Op)
  : option string * list Op :=
  match files with
  | [] => (None, ops)
  | file :: rest =>
      if IsDir file then
        let dotPort := filepath.Join [ideaDir; Name file; ".port"] in
        match stat ops dotPort with
        | None =>
            match remove (ops ++ [Stat dotPort]) dotPort with
            | Some err => (Some err, ops ++ [Stat dotPort; Remove dotPort])
            | None => removePorts ideaDir rest (ops ++ [Stat dotPort; Remove dotPort])
            end
        | Some _ => removePorts ideaDir rest (ops ++ [Stat dotPort])
        end
      else removePorts ideaDir rest ops
  end.

(** [removePortSocket] removes [.port] from the system dir to resolve
    QD-7383. *)
Definition removePortSocket (systemDir : string) (ops : list Op)
  : option string * list Op :=
  let ideaDir := filepath.Join [systemDir; "idea"] in
  match readDir ops ideaDir with
  | inr _ => (None, ops ++ [ReadDir ideaDir])
  | inl files => removePorts ideaDir files (ops ++ [ReadDir ideaDir])
  end.

(** [fixDarwinCaches]: the warnings logged, and the calls made. *)
Definition fixDarwinCaches (cacheDir : string) (ops : list Op)
  : list string * list Op :=
  if String.eqb GOOS "darwin" then
    match removePortSocket cacheDir ops with
    | (Some err, ops) =>
        ([ "Could not remove .port from " +:+ cacheDir +:+ ": " +:+ err ], ops)
    | (None, ops) => ([], ops)
    end
  else ([], ops).

End disk.

End disk.

(** ** Package [platform/commoncontext]: the run identifier *)
Module commoncontext.

(** [getHash] returns a SHA256 hash of a given string. *)
Definition getHash (s : string) : string :=
  hex.EncodeToString (sha256.Sum256 s).

(** The analyzer identity of [computeId]: the linter when there is one,
    else the IDE, else the empty string. *)
Definition analyzerOf (linter ide : string) : string :=
  if negb (String.eqb linter EmptyString) then linter
  else if negb (String.eqb ide EmptyString) then ide
  else EmptyString.

(** [projectAbs, _ := filepath.Abs(projectDir)]: the error is dropped, and
    the path is empty when there is one. *)
Definition projectAbsOf (getwd : string + string) (projectDir : string) : string :=
  match filepath.Abs getwd projectDir with
  | inl p => p
  | inr _ => EmptyString
  end.

(** [computeId]; [None] stands for the panic of an out-of-range slice. *)
Definition computeId (getwd : string + string) (linter ide projectDir : string)
  : option string :=
  let analyzer := analyzerOf linter ide in
  let length := 7%nat in
  let projectAbs := projectAbsOf getwd projectDir in
  a ← bytes.slice (getHash analyzer) 0 (length + 1);
  p ← bytes.slice (getHash projectAbs) 0 (length + 1);
  Some (a +:+ "-" +:+ p).

End commoncontext.

(** ** Package [platform]: archive extraction (embed.go) *)
Module platform.

(** A member of a zip archive ([zip.File]): its name, whether its mode is
    a directory, its permission bits, the result of opening it (its content,
    or an error) and the error, if any, of closing it. *)
Record zipFile := {
  zName : string;
  zIsDir : bool;
  zMode : Z;
  zOpen : string + string;
  zSrcClose : option string }.

(** An opened zip archive ([zip.ReadCloser]). *)
Record zipReader := { zFiles : list zipFile; zClose : option string }.

(** An entry of a tar stream ([tar.Header] with the data behind it). *)
Record tarHeader := {
  hName : string;
  hTypeflag : ascii;
  hMode : Z;
  hData : string }.

Definition tar_TypeReg : ascii := "0"%char.
Definition tar_TypeDir : ascii := "5"%char.

(** The gzip stream of an archive: each item is a result of
    [tarReader.Next], and the end of the list is [io.EOF]. *)
Record gzipStream := {
  tItems : list (tarHeader + string);
  tGzipClose : option string }.

(** An opened archive file: the result of [gzip.NewReader] on it, and the
    error, if any, of closing the file. *)
Record tarGz := {
  tGzip : gzipStream + string;
  tFileClose : option string }.

(** The calls into the file system made by the extraction. *)
Inductive FsOp :=
| OpStat (path : string)
| OpMkdirAll (path : string) (perm : Z)
| OpOpenFile (path : string) (truncate : bool) (perm : Z)
| OpCopy (path : string) (data : string)
| OpClose (path : string).

(** The part of a path up to its last separator, the separator included. *)
Fixpoint dirPart (path : string) : string :=
  match path with
  | EmptyString => EmptyString
  | String c rest =>
      if Ascii.eqb c filepath.Separator || strings.Contains rest filepath.sepString
      then String c (dirPart rest)
      else EmptyString
  end.

(** [filepath.Dir(path)]. *)
Definition Dir (path : string) : string := filepath.Clean (dirPart path).

Section extraction.

(** The file system: the error, if any, of an operation made after the
    operations of a history. *)
Variable osErr : list FsOp -> FsOp -> option string.

(** The extraction threads the list of operations made so far (oldest
    first) and ends with the Go result [(error, bool)]. *)
Definition Result : Type := Outcome (option string * bool) * list FsOp.

Definition perform (ops : list FsOp) (op : FsOp) : option string * list FsOp :=
  (osErr ops op, ops ++ [op]).

Definition os_ModePerm : Z := 511.  (* 0777 *)

(** One iteration of the loop of [unpackZip]: [inl] carries on with the
    next member, [inr] returns from the function. *)
Definition unpackZipFile (destPath : string) (f : zipFile) (ops : list FsOp)
  : list FsOp + (option string * bool) * list FsOp :=
  let fpath := filepath.Join [destPath; zName f] in
  (* Check for Path Traversal *)
  if negb (strings.HasPrefix fpath (filepath.Clean destPath +:+ filepath.sepString))
  then inr (Some (fpath +:+ ": illegal file path"), true, ops)
  else if zIsDir f then
    match perform ops (OpMkdirAll fpath os_ModePerm) with
    | (Some err, ops) => inr (Some err, true, ops)
    | (None, ops) => inl ops
    end
  else
    match perform ops (OpMkdirAll (Dir fpath) os_ModePerm) with
    | (Some err, ops) => inr (Some err, true, ops)
    | (None, ops) =>
        match perform ops (OpOpenFile fpath true (zMode f)) with
        | (Some err, ops) => inr (Some err, true, ops)
        | (None, ops) =>
            match zOpen f with
            | inr err => inr (Some err, true, ops)
            | inl src =>
                match perform ops (OpCopy fpath src) with
                | (Some err, ops) => inr (Some err, true, ops)
                | (None, ops) =>
                    match perform ops (OpClose fpath) with
                    | (Some err, ops) => inr (Some err, true, ops)
                    | (None, ops) =>
                        match zSrcClose f with
                        | Some err => inr (Some err, true, ops)
                        | None => inl ops
                        end
                    end
                end
            end
        end
    end.

Fixpoint unpackZipFiles (destPath : string) (files : list zipFile) (ops : list FsOp)
  : (option string * bool) * list FsOp :=
  match files with
  | [] => (None, false, ops)
  | f :: rest =>
      match unpackZipFile destPath f ops with
      | inl ops => unpackZipFiles destPath rest ops
      | inr r => r
      end
  end.

(** [unpackZip], given the result of [zip.OpenReader(archivePath)].  The
    deferred close of the reader ends the process when it fails. *)
Definition unpackZip (archive : zipReader + string) (destPath : string)
                     (ops : list FsOp) : Result :=
  match archive with
  | inr err => (Done (Some err, true), ops)
  | inl zr =>
      let '(r, ops) := unpackZipFiles destPath (zFiles zr) ops in
      match zClose zr with
      | Some err => (Fatal err, ops)
      | None => (Done r, ops)
      end
  end.

(** [isInDirectory] checks if the target file is within the destination
    directory. *)
Definition isInDirectory (destPath target : string) : bool :=
  match filepath.Rel destPath target with
  | inr _ => false
  | inl relative => negb (strings.HasPrefix relative "..")
  end.

(** One iteration of the loop of [extractTarGz] on a header. *)
Definition extractTarEntry (destPath : string) (header : tarHeader) (ops : list FsOp)
  : list FsOp + (option string * bool) * list FsOp :=
  let target := filepath.Join [destPath; hName header] in
  if negb (isInDirectory destPath target)
  then inr (Some (target +:+ ": illegal file path"), true, ops)
  else if Ascii.eqb (hTypeflag header) tar_TypeDir then
    match perform ops (OpStat target) with
    | (Some _, ops) =>
        match perform ops (OpMkdirAll target 493 (* 0755 *)) with
        | (Some err, ops) => inr (Some err, true, ops)
        | (None, ops) => inl ops
        end
    | (None, ops) => inl ops
    end
  else if Ascii.eqb (hTypeflag header) tar_TypeReg then
    match perform ops (OpOpenFile target false (hMode header)) with
    | (Some err, ops) => inr (Some err, true, ops)
    | (None, ops) =>
        match perform ops (OpCopy target (hData header)) with
        | (Some _, ops) =>
            (* the error of the copy is shadowed by the one of the close *)
            match perform ops (OpClose target) with
            | (Some err, ops) => inr (Some err, true, ops)
            | (None, ops) => inr (None, true, ops)
            end
        | (None, ops) =>
            match perform ops (OpClose target) with
            | (Some err, ops) => inr (Some err, true, ops)
            | (None, ops) => inl ops
            end
        end
    end
  else inl ops.

Fixpoint extractTarItems (destPath : string) (items : list (tarHeader + string))
                         (ops : list FsOp) : (option string * bool) * list FsOp :=
  match items with
  | [] => (None, false, ops)                       (* io.EOF *)
  | inr err :: _ => (Some err, true, ops)
  | inl header :: rest =>
      match extractTarEntry destPath header ops with
      | inl ops => extractTarItems destPath rest ops
      | inr r => r
      end
  end.

(** [extractTarGz], given the result of [os.Open(archivePath)].  The
    deferred closes of the gzip reader and then of the file end the process
    when they fail. *)
Definition extractTarGz (archive : tarGz + string) (destPath : string)
                        (ops : list FsOp) : Result :=
  match archive with
  | inr err => (Done (Some err, true), ops)
  | inl archiveFile =>
      match tGzip archiveFile with
      | inr err =>
          match tFileClose archiveFile with
          | Some err' => (Fatal err', ops)
          | None => (Done (Some err, true), ops)
          end
      | inl gzipReader =>
          let '(r, ops) := extractTarItems destPath (tItems gzipReader) ops in
          match tGzipClose gzipReader with
          | Some err => (Fatal err, ops)
          | None =>
              match tFileClose archiveFile with
              | Some err => (Fatal err, ops)
              | None => (Done r, ops)
              end
          end
      end
  end.

End extraction.

Section decompress.

Variable GOOS : string.                               (* runtime.GOOS *)
Variable osErr : list FsOp -> FsOp -> option string.
Variable zipOpenReader : string -> zipReader + string.  (* zip.OpenReader *)
Variable osOpen : string -> tarGz + string.           (* os.Open, gzip.NewReader *)

(** [Decompress]: the archive is unpacked as a zip archive when its path
    ends in [.zip] or the host is windows, and as a gzipped tar archive
    otherwise; the error of the unpacking is returned when it says that it
    is done, and [nil] otherwise. *)
Definition Decompress (archivePath destPath : string) (ops : list FsOp)
  : Outcome (option string) * list FsOp :=
  let isZip := strings.HasSuffix archivePath ".zip" in
  let '(out, ops) :=
    if isZip || String.eqb GOOS "windows"
    then unpackZip osErr (zipOpenReader archivePath) destPath ops
    else extractTarGz osErr (osOpen archivePath) destPath ops in
  match out with
  | Done (err, done) => if done then (Done err, ops) else (Done None, ops)
  | Fatal text => (Fatal text, ops)
  | Panic text => (Panic text, ops)
  end.

End decompress.

(** *** Where a path leads

    A directory is the list of the names from the root down to it.  A
    path is followed from a working directory element by element: an empty
    element and [.] stay, [..] goes to the parent (the root is its own
    parent), a name goes down. *)
Definition follow (dir : list string) (elem : string) : list string :=
  if String.eqb elem EmptyString then dir
  else if String.eqb elem "." then dir
  else if String.eqb elem ".." then removelast dir
  else dir ++ [elem].

Definition resolve (cwd : list string) (path : string) : list string :=
  foldl follow (if filepath.IsAbs path then [] else cwd)
        (strings.Split path filepath.sepString).

Fixpoint isPrefixOf (l1 l2 : list string) : bool :=
  match l1, l2 with
  | [], _ => true
  | x :: l1', y :: l2' => String.eqb x y && isPrefixOf l1' l2'
  | _ :: _, [] => false
  end.

(** [target] leads outside of the directory [destPath] leads to: it is
    neither that directory nor below it. *)
Definition outside (cwd : list string) (destPath target : string) : bool :=
  negb (isPrefixOf (resolve cwd destPath) (resolve cwd target)).

End platform.

(** ** Package [platform/commoncontext]: the directories of a run
    (compute.go) *)
Module compute.

(** [commoncontext.Context]. *)
Record Context := {
  Linter : string;
  Ide : string;
  IsClearCache : bool;
  CacheDir : string;
  ProjectDir : string;
  ResultsDir : string;
  QodanaSystemDir : string;
  ReportDir : string;
  Id : string;
  QodanaToken : string }.

(** The fields that are read of the loaded [qodana.yaml]. *)
Record QodanaYaml := { yamlLinter : string; yamlIde : string }.

(** A call to [msg.WarningMessage] or to [msg.ErrorMessage]. *)
Inductive Notice :=
| WarningMessage (format : string) (args : list string)
| ErrorMessage (format : string) (args : list string).

(** How a computation ends: it returns, or the process exits ([os.Exit]),
    or it panics. *)
Inductive Ending (A : Type) :=
| Returns (a : A)
| Exits (status : Z)
| Panics.
Arguments Returns {A} a.
Arguments Exits {A} status.
Arguments Panics {A}.

Section compute.

Variable getwd : string + string.                  (* os.Getwd *)
Variable UserCacheDir : string + string.           (* os.UserCacheDir *)
Variable IsContainer : bool.                       (* qdenv.IsContainer() *)
Variable dirs : qdcontainer.Dirs.
(** The loaded configuration file of a project,
    [qdyaml.LoadQodanaYamlByFullPath] at the path of
    [qdyaml.GetLocalNotEffectiveQodanaYamlFullPath]; the analyzer found for
    a project, [GetAnalyzer]; the membership test [strutil.Contains]; the
    style [msg.PrimaryBold].  They are defined outside the sources. *)
Variable LoadQodanaYaml : string -> string -> QodanaYaml.
Variable GetAnalyzer : string -> string -> string.
Variable strutil_Contains : list string -> string -> bool.
Variable PrimaryBold : string -> string.

(** [product.IsNativeAnalyzer]. *)
Definition IsNativeAnalyzer (analyzer : string) : bool :=
  strutil_Contains product.AllNativeCodes analyzer.

Definition getLinterAndIdeFromProject
    (qodanaCloudToken projectDir localNotEffectiveQodanaYamlPathInProject : string)
  : list Notice * Ending (string * string) :=
  let qodanaYaml := LoadQodanaYaml projectDir localNotEffectiveQodanaYamlPathInProject in
  let noLinter := String.eqb (yamlLinter qodanaYaml) EmptyString in
  let noIde := String.eqb (yamlIde qodanaYaml) EmptyString in
  let '(notices, ending) :=
    if noLinter && noIde then
      let analyzer := GetAnalyzer projectDir qodanaCloudToken in
      ([ WarningMessage
           "No valid `linter:` or `ide:` field found in %s. Have you run %s? Running that for you..."
           [ PrimaryBold localNotEffectiveQodanaYamlPathInProject;
             PrimaryBold "qodana init" ] ],
       Returns (if IsNativeAnalyzer analyzer then (EmptyString, analyzer)
                else (analyzer, EmptyString)))
    else if negb noLinter && negb noIde then
      ([ ErrorMessage
           "You have both `linter:` (%s) and `ide:` (%s) fields set in %s. Modify the configuration file to keep one of them"
           [ yamlLinter qodanaYaml; yamlIde qodanaYaml;
             localNotEffectiveQodanaYamlPathInProject ] ],
       Exits 1)
    else ([], Returns (EmptyString, EmptyString)) in
  match ending with
  | Returns (linter, ide) =>
      if negb noLinter then (notices, Returns (yamlLinter qodanaYaml, ide))
      else if negb noIde then (notices, Returns (linter, yamlIde qodanaYaml))
      else (notices, Returns (linter, ide))
  | _ => (notices, ending)
  end.

Definition computeQodanaSystemDir (cacheDirFromCliOptions : string) : string :=
  if negb (String.eqb cacheDirFromCliOptions EmptyString)
  then platform.Dir (platform.Dir cacheDirFromCliOptions)
  else
    let userCacheDir := match UserCacheDir with inl d => d | inr _ => EmptyString end in
    filepath.Join [userCacheDir; "JetBrains"; "Qodana"].

Definition computeResultsDir (resultsDirFromCliOptions linterDir : string) : string :=
  if negb (String.eqb resultsDirFromCliOptions EmptyString) then resultsDirFromCliOptions
  else if IsContainer then qdcontainer.DataResultsDir dirs
  else filepath.Join [linterDir; "results"].

Definition computeCacheDir (cacheDirFromCliOptions linterDir : string) : string :=
  if negb (String.eqb cacheDirFromCliOptions EmptyString) then cacheDirFromCliOptions
  else if IsContainer then qdcontainer.DataCacheDir dirs
  else filepath.Join [linterDir; "cache"].

Definition computeReportDir (reportDirFromCliOptions resultsDir : string) : string :=
  if negb (String.eqb reportDirFromCliOptions EmptyString) then reportDirFromCliOptions
  else if IsContainer then qdcontainer.DataResultsReportDir dirs
  else filepath.Join [resultsDir; "report"].

Definition Compute
    (overrideLinter overrideIde cacheDirFromCliOptions resultsDirFromCliOptions
     reportDirFromCliOptions qodanaCloudToken : string) (clearCache : bool)
    (projectDir localNotEffectiveQodanaYamlPathInProject : string)
  : list Notice * Ending Context :=
  let '(notices, found) :=
    if String.eqb overrideLinter EmptyString && String.eqb overrideIde EmptyString
    then getLinterAndIdeFromProject qodanaCloudToken projectDir
           localNotEffectiveQodanaYamlPathInProject
    else ([], Returns (overrideLinter, overrideIde)) in
  match found with
  | Exits status => (notices, Exits status)
  | Panics => (notices, Panics)
  | Returns (linter, ide) =>
      match commoncontext.computeId getwd linter ide projectDir with
      | None => (notices, Panics)
      | Some qodanaId =>
          let systemDir := computeQodanaSystemDir cacheDirFromCliOptions in
          let linterDir := filepath.Join [systemDir; qodanaId] in
          let resultsDir := computeResultsDir resultsDirFromCliOptions linterDir in
          let cacheDir := computeCacheDir cacheDirFromCliOptions linterDir in
          let reportDir := computeReportDir reportDirFromCliOptions resultsDir in
          (notices,
           Returns {| Linter := linter;
                      Ide := ide;
                      IsClearCache := clearCache;
                      CacheDir := cacheDir;
                      ProjectDir := projectDir;
                      ResultsDir := resultsDir;
                      QodanaSystemDir := systemDir;
                      ReportDir := reportDir;
                      Id := qodanaId;
                      QodanaToken := qodanaCloudToken |})
      end
  end.

End compute.

End compute.

(** ** Vocabulary of the properties *)

(** The format of a printed message. *)
Definition formatOf (m : Message) : string :=
  match m with
  | WarningCI format _ => format
  | ErrorMsg _ => EmptyString
  end.

(** The run identifier in the words of the spec: the first 8 hex characters
    of the SHA-256 of the analyzer identity, a hyphen, and the first 8 hex
    characters of the SHA-256 of the absolute project path. *)
Definition hashPrefixPair (analyzer projectAbs : string) : string :=
  String.substring 0 8 (hex.EncodeToString (sha256.Sum256 analyzer))
  +:+ "-" +:+
  String.substring 0 8 (hex.EncodeToString (sha256.Sum256 projectAbs)).

(** A volume string parses when [extractDockerVolumes] gives it a non-empty
    source and a non-empty target: the test of the loop in
    [getDockerOptions]. *)
Definition parses (GOOS volume : string) : bool :=
  let '(source, target) := extractDockerVolumes GOOS volume in
  negb (String.eqb source EmptyString) && negb (String.eqb target EmptyString).

(** The bind mount of a volume string. *)
Definition userMount (GOOS volume : string) : mount.Mount :=
  bindMount (extractDockerVolumes GOOS volume).1 (extractDockerVolumes GOOS volume).2.

(** An entry [name=value] of an environment list, and the test that an
    entry sets the variable [name]. *)
Definition envEntry (name value : string) : string := name +:+ "=" +:+ value.
Definition setsVariable (name entry : string) : bool :=
  strings.HasPrefix entry (name +:+ "=").

(** The entries the builder appends to the environment list of a context. *)
Definition tokenEntries (names : qdenv.Names) (w : World) (c : corescan.Context)
  : list string :=
  (if negb (String.eqb (corescan.QodanaUploadToken c) EmptyString)
   then [envEntry (qdenv.QodanaToken names) (corescan.QodanaUploadToken c)] else [])
  ++
  (if negb (String.eqb (Getenv w (qdenv.QodanaLicenseOnlyToken names)) EmptyString)
      && String.eqb (corescan.QodanaUploadToken c) EmptyString
   then [envEntry (qdenv.QodanaLicenseOnlyToken names)
                  (Getenv w (qdenv.QodanaLicenseOnlyToken names))] else []).

(** The calls that pull an image, and those that query the daemon. *)
Definition isImagePull (c : Call) : bool :=
  match c with CallImagePull _ _ => true | _ => false end.
Definition isInfoOrImagePull (c : Call) : bool :=
  match c with CallInfo | CallImagePull _ _ => true | _ => false end.
Definition isCreateOrStart (c : Call) : bool :=
  match c with CallContainerCreate _ | CallContainerStart _ => true | _ => false end.

(** The credentials of the spec: the locally stored credentials of the
    registry host of an image (the part of the reference before the first
    [/]), as a base64 JSON payload; [None] when they cannot be loaded, looked
    up or encoded. *)
Definition storedCredentials (w : World) (image : string) : option string :=
  match cliconfigLoad w with
  | inr _ => None
  | inl cfg =>
      match cfg (strutil.SafeSplit image "/" 0) with
      | inr _ => None
      | inl a =>
          match jsonMarshal w a with
          | inr _ => None
          | inl buf => Some (base64.URLEncoding_EncodeToString buf)
          end
      end
  end.

(** A computation is quiet when it makes no engine call and does not panic:
    it returns or ends the process with the calls as they were. *)
Definition quiet {A} (m : M A) : Prop :=
  ∀ s, calls (m s).2 = calls s ∧ ∀ t, (m s).1 ≠ Panic t.

(** *** Cleaned paths

    The vocabulary of the facts on [filepath.Clean], [filepath.Join] and
    [filepath.Rel]. *)

(** The elements of a path. *)
Abbreviation elemsOf p := (strings.Split p "/").

Definition slashFree (s : string) : Prop := strings.Contains s "/" = false.

(** A name: an element that [Clean] keeps as it is. *)
Definition isName (s : string) : Prop :=
  slashFree s ∧ String.eqb s EmptyString = false
  ∧ String.eqb s "." = false ∧ String.eqb s ".." = false.

(** The cleaned path with the given root flag, number of leading [..]
    elements and names. *)
Definition render (rooted : bool) (ups : nat) (names : list string) : string :=
  let body := strings.Join (replicate ups ".." ++ names) "/" in
  if rooted then "/" +:+ body
  else if String.eqb body EmptyString then "." else body.

(** The state of the element loop of [Clean] after the elements. *)
Definition norm (rooted : bool) (elems : list string) : nat * list string :=
  foldl (filepath.cleanStep rooted) (O, []) elems.

(** The [n]-th ancestor of a directory. *)
Fixpoint ascend (n : nat) (dir : list string) : list string :=
  match n with
  | O => dir
  | S n' => removelast (ascend n' dir)
  end.

(** A string is the cleaned path with the given root flag, number of
    leading [..] elements and names. *)
Definition cleaned (s : string) (r : bool) (u : nat) (names : list string) : Prop :=
  s = render r u names ∧ Forall isName names ∧ (r = true -> u = O).

(** The path of a file system operation. *)
Definition pathOf (op : platform.FsOp) : string :=
  match op with
  | platform.OpStat p | platform.OpMkdirAll p _ | platform.OpOpenFile p _ _
  | platform.OpCopy p _ | platform.OpClose p => p
  end.

(** *** The container of the process *)

(** The name the builder gives to the container: the name in the
    environment, or [qodana-cli-] and the run identifier. *)
Definition chosenName (names : qdenv.Names) (w : World) (c : corescan.Context) : string :=
  if String.eqb (Getenv w (qdenv.QodanaCliContainerName names)) EmptyString
  then "qodana-cli-" +:+ corescan.Id c
  else Getenv w (qdenv.QodanaCliContainerName names).

(** The mounts of a specification are those the builder makes for the
    directories of the context, at their absolute paths, followed by the
    volumes of the user. *)
Definition fixedMounts (GOOS : string) (dirs : qdcontainer.Dirs) (w : World)
    (c : corescan.Context) (cfg : backend.ContainerCreateConfig) : Prop :=
  ∃ cachePath projectPath resultsPath reportPath global,
    filepath.Abs (Getwd w) (corescan.CacheDir c) = inl cachePath
    ∧ filepath.Abs (Getwd w) (corescan.ProjectDir c) = inl projectPath
    ∧ filepath.Abs (Getwd w) (corescan.ResultsDir c) = inl resultsPath
    ∧ filepath.Abs (Getwd w) (corescan.ReportDir c) = inl reportPath
    ∧ (if String.eqb (corescan.GlobalConfigurationsDir c) EmptyString then global = []
       else ∃ g, filepath.Abs (Getwd w) (corescan.GlobalConfigurationsDir c) = inl g
                 ∧ global = [bindMount g (qdcontainer.DataGlobalConfigDir dirs)])
    ∧ container.Mounts (backend.HostConfig cfg)
      = [ bindMount cachePath (qdcontainer.DataCacheDir dirs);
          bindMount projectPath (qdcontainer.DataProjectDir dirs);
          bindMount resultsPath (qdcontainer.DataResultsDir dirs);
          bindMount reportPath (qdcontainer.DataResultsReportDir dirs) ]
        ++ global ++ map (userMount GOOS) (corescan.Volumes c).

(** A listed container is the container of the process: its first name is
    the name of the process's container, as the engine writes it. *)
Definition isOwn (name : string) (c : container.Summary) : bool :=
  match container.Names c with
  | n0 :: _ => String.eqb n0 ("/" +:+ name)
  | [] => false
  end.

(** Every call that a computation adds satisfies a test. *)
Definition callsOnly {A} (P : Call -> bool) (m : M A) : Prop :=
  ∀ s, ∃ new, calls (m s).2 = calls s ++ new ∧ Forall (fun call => P call = true) new.

(** A specification with another environment. *)
Definition withEnv (config : container.Config) (env : list string) : container.Config :=
  {| container.Image := container.Image config;
     container.Cmd := container.Cmd config;
     container.Tty := container.Tty config;
     container.AttachStdout := container.AttachStdout config;
     container.AttachStderr := container.AttachStderr config;
     container.Env := env;
     container.User := container.User config;
     container.ExposedPorts := container.ExposedPorts config |}.

(** The path of the port file of an entry of the directory [idea] of a
    system directory. *)
Definition portFile (systemDir : string) (file : disk.DirEntry) : string :=
  filepath.Join [filepath.Join [systemDir; "idea"]; disk.Name file; ".port"].

(** The paths of the [os.Stat] calls of a history, in their order. *)
Definition statted (ops : list disk.Op) : list string :=
  omap (fun op => match op with disk.Stat p => Some p | _ => None end) ops.

(** The calls [new] that the loop of [removePortSocket] adds to a history
    [ops], ending with the error [res]: a file is removed right after its
    [os.Stat] succeeded, and only then; a removal that fails is the last
    call, and its error is the result. *)
Definition portTrace (stat remove : list disk.Op -> string -> option string)
    (ops new : list disk.Op) (res : option string) : Prop :=
  (∀ pre path post, new = pre ++ disk.Remove path :: post ->
     ∃ pre', pre = pre' ++ [disk.Stat path] ∧ stat (ops ++ pre') path = None)
  ∧ (∀ pre path post, new = pre ++ disk.Stat path :: post ->
       stat (ops ++ pre) path = None -> ∃ post', post = disk.Remove path :: post')
  ∧ (∀ pre path post err, new = pre ++ disk.Remove path :: post ->
       remove (ops ++ pre) path = Some err -> post = [] ∧ res = Some err)
  ∧ (∀ err, res = Some err ->
       ∃ pre path, new = pre ++ [disk.Remove path] ∧ remove (ops ++ pre) path = Some err).

(** *** Archives *)

(** The calls of [unpackZip] for a member, when none of them fails. *)
Definition zipOps (destPath : string) (f : platform.zipFile) : list platform.FsOp :=
  let fpath := filepath.Join [destPath; platform.zName f] in
  if platform.zIsDir f then [ platform.OpMkdirAll fpath platform.os_ModePerm ]
  else
    match platform.zOpen f with
    | inl src =>
        [ platform.OpMkdirAll (platform.Dir fpath) platform.os_ModePerm;
          platform.OpOpenFile fpath true (platform.zMode f);
          platform.OpCopy fpath src;
          platform.OpClose fpath ]
    | inr _ => []
    end.

(** The check of [unpackZip] accepts the member. *)
Definition zipAccepts (destPath : string) (f : platform.zipFile) : bool :=
  strings.HasPrefix (filepath.Join [destPath; platform.zName f])
                    (filepath.Clean destPath +:+ filepath.sepString).

(** *** The directories of a run *)

(** The cache directory of the user, as [computeQodanaSystemDir] takes it:
    empty when it is not known. *)
Definition userCacheDir (UserCacheDir : string + string) : string :=
  match UserCacheDir with inl d => d | inr _ => EmptyString end.

(** The bytes of a string all satisfy a test. *)
Fixpoint allBytes (P : ascii -> bool) (s : string) : bool :=
  match s with
  | EmptyString => true
  | String c s' => P c && allBytes P s'
  end.

(** A lower-case hexadecimal digit, or a hyphen. *)
Definition isHexOrHyphen (c : ascii) : bool :=
  match String.index 0 (String c EmptyString) "0123456789abcdef-" with
  | Some _ => true
  | None => false
  end.

(** ** Package [cloud] *)
Module cloud.

(** Modelled from the spec: the resolver of the cloud endpoint (package
    [cloud]) is not among the sources.  The builder reads only the URL the
    resolver exposes, a string ([CloudRootEndpointUrl] of the host).  The
    spec speaks of a plaintext local endpoint as one whose "URL scheme is
    http and host is local"; the scheme and the host are read off the URL
    here, and a host is local when it names the machine itself. *)

(** A string without a prefix, when it starts with it. *)
Fixpoint without (pre s : string) : option string :=
  match pre with
  | EmptyString => Some s
  | String a pre' =>
      match s with
      | String c s' => if Ascii.eqb a c then without pre' s' else None
      | EmptyString => None
      end
  end.

(** The text before and after the first occurrence of a separator. *)
Fixpoint cut (sep s : string) : option (string * string) :=
  match without sep s with
  | Some after => Some (EmptyString, after)
  | None =>
      match s with
      | EmptyString => None
      | String c s' =>
          match cut sep s' with
          | Some (before, after) => Some (String c before, after)
          | None => None
          end
      end
  end.

Definition before (sep s : string) : string :=
  match cut sep s with Some (b, _) => b | None => s end.

(** The scheme of a URL: what stands before [://]. *)
Definition scheme (url : string) : string :=
  match cut "://" url with Some (b, _) => b | None => EmptyString end.

(** The host and port of a URL: what stands between [://] and the path. *)
Definition authority (url : string) : string :=
  match cut "://" url with Some (_, a) => before "/" a | None => EmptyString end.

(** The host of a URL: its authority without the port; an IPv6 address keeps
    its brackets. *)
Definition host (url : string) : string :=
  if strings.HasPrefix (authority url) "["
  then before "]" (authority url) +:+ "]"
  else before ":" (authority url).

(** The names of the machine itself. *)
Definition isLocalHost (h : string) : bool :=
  String.eqb h "localhost" || String.eqb h "127.0.0.1" || String.eqb h "[::1]".

(** The endpoint of the spec's scenario: scheme [http] and a local host. *)
Definition plaintextLocal (url : string) : bool :=
  String.eqb (scheme url) "http" && isLocalHost (host url).

End cloud.

(** ** A concrete host, for the examples *)
Module Example.

Definition names : qdenv.Names :=
  {| qdenv.QodanaToken := "QODANA_TOKEN";
     qdenv.QodanaLicenseOnlyToken := "QODANA_LICENSE_ONLY_TOKEN";
     qdenv.QodanaCliContainerName := "QODANA_CLI_CONTAINER_NAME";
     qdenv.QodanaCliContainerKeep := "QODANA_CLI_CONTAINER_KEEP" |}.

Definition dirs : qdcontainer.Dirs :=
  {| qdcontainer.DataCacheDir := "/data/cache";
     qdcontainer.DataProjectDir := "/data/project";
     qdcontainer.DataResultsDir := "/data/results";
     qdcontainer.DataResultsReportDir := "/data/results/report";
     qdcontainer.DataGlobalConfigDir := "/data/qodana-global-config" |}.

Definition GetIdeArgs (c : corescan.Context) : list string := ["--save-report"].

(** An extraction that adds nothing to the environment list. *)
Definition envExtractedFromOsEnv (w : World) (c : corescan.Context) : list string :=
  corescan.Env c.

Definition stream : PullStream := {| copyErr := None; closeErr := None |}.

(** An engine on the given platform on which every call succeeds and the
    container exits with status 0. *)
Definition engineOn (osType : string) : Engine :=
  {| engInfo := fun _ => inl {| types.OSType := osType |};
     engImagePull := fun _ _ _ => inl stream;
     engContainerCreate := fun _ _ => inl "c0ffee";
     engContainerStart := fun _ _ => None;
     engContainerWait := fun _ _ => container.WaitStatus 0;
     engContainerList := fun _ => inl [];
     engContainerStop := fun _ _ => None |}.

(** An engine that refuses every pull with the given error. *)
Definition engineRefusing (err : string) : Engine :=
  {| engInfo := fun _ => inl {| types.OSType := "linux" |};
     engImagePull := fun _ _ _ => inr err;
     engContainerCreate := fun _ _ => inl "c0ffee";
     engContainerStart := fun _ _ => None;
     engContainerWait := fun _ _ => container.WaitStatus 0;
     engContainerList := fun _ => inl [];
     engContainerStop := fun _ _ => None |}.

Definition auth : registry.AuthConfig :=
  {| registry.Username := "u"; registry.Password := "p"; registry.Auth := "";
     registry.Email := ""; registry.ServerAddress := "registry.example.com";
     registry.IdentityToken := ""; registry.RegistryToken := "" |}.

Definition world (eng : Engine) (env : string -> string) (url : string) : World :=
  {| Getenv := env;
     Getwd := inl "/home/u";
     CloudRootEndpointUrl := url;
     IsInteractive := false;
     engine := eng;
     cliconfigLoad := inl (fun _ => inl auth);
     jsonMarshal := fun a => inl ("{" +:+ registry.Username a +:+ "}") |}.

Definition noEnv (name : string) : string := EmptyString.

(** An OS environment that sets the license-only token. *)
Definition licenseEnv (name : string) : string :=
  if String.eqb name "QODANA_LICENSE_ONLY_TOKEN" then "lic" else EmptyString.

(** A host whose credential configuration cannot be loaded. *)
Definition worldWithoutCredentials (eng : Engine) : World :=
  {| Getenv := noEnv;
     Getwd := inl "/home/u";
     CloudRootEndpointUrl := "https://qodana.cloud";
     IsInteractive := false;
     engine := eng;
     cliconfigLoad := inr "invalid character in config.json";
     jsonMarshal := fun a => inl ("{" +:+ registry.Username a +:+ "}") |}.

Definition context (analyser : product.Analyzer) (env volumes : list string)
                   (token : string) (port : Z) : corescan.Context :=
  {| corescan.Analyser := analyser;
     corescan.CacheDir := "/home/u/.cache/qodana";
     corescan.ProjectDir := "proj";
     corescan.ResultsDir := "/home/u/results";
     corescan.ReportDir := "/home/u/results/report";
     corescan.GlobalConfigurationsDir := EmptyString;
     corescan.SkipPull := false;
     corescan.Env := env;
     corescan.QodanaUploadToken := token;
     corescan.Id := "e7090287-9c09f805";
     corescan.Volumes := volumes;
     corescan.User := "1000:1000";
     corescan.JvmDebugPort := port |}.

Definition image : string := "jetbrains/qodana-jvm:2025.1".

(** A file system on which every operation succeeds. *)
Definition noErr (ops : list platform.FsOp) (op : platform.FsOp) : option string := None.

(** A zip archive and a tar.gz archive with one regular file named
    [../x]. *)
Definition escapingZip : platform.zipReader :=
  {| platform.zFiles :=
       [ {| platform.zName := "../x"; platform.zIsDir := false;
            platform.zMode := 420; platform.zOpen := inl "data";
          platform.zSrcClose := None |} ];
     platform.zClose := None |}.

Definition escapingTarGz : platform.tarGz :=
  {| platform.tGzip :=
       inl {| platform.tItems :=
                [ inl {| platform.hName := "../x";
                         platform.hTypeflag := platform.tar_TypeReg;
                         platform.hMode := 420; platform.hData := "data" |} ];
              platform.tGzipClose := None |};
     platform.tFileClose := None |}.

(** An engine that lists the given containers; every other call succeeds. *)
Definition engineListing (containers : list container.Summary) : Engine :=
  {| engInfo := fun _ => inl {| types.OSType := "linux" |};
     engImagePull := fun _ _ _ => inl stream;
     engContainerCreate := fun _ _ => inl "c0ffee";
     engContainerStart := fun _ _ => None;
     engContainerWait := fun _ _ => container.WaitStatus 0;
     engContainerList := fun _ => inl containers;
     engContainerStop := fun _ _ => None |}.

(** An OS environment that names the container. *)
Definition nameEnv (given : string) (name : string) : string :=
  if String.eqb name "QODANA_CLI_CONTAINER_NAME" then given else EmptyString.

(** The process after a container was named. *)
Definition namedProc (name : string) : Proc :=
  {| containerName := name; calls := []; messages := [] |}.

(** A project without a configuration file, for which no analyzer is
    found. *)
Definition LoadQodanaYaml (projectDir path : string) : compute.QodanaYaml :=
  {| compute.yamlLinter := EmptyString; compute.yamlIde := EmptyString |}.
Definition GetAnalyzer (projectDir token : string) : string := EmptyString.
Definition strutil_Contains (l : list string) (x : string) : bool :=
  existsb (String.eqb x) l.
Definition PrimaryBold (text : string) : string := text.

(** The context that [Compute] returns for the image and the project
    [proj] of the user [u], without directory options, outside of a
    container. *)
Definition computedContext : compute.Context :=
  {| compute.Linter := image;
     compute.Ide := "";
     compute.IsClearCache := false;
     compute.CacheDir := "/home/u/.cache/JetBrains/Qodana/e7090287-9c09f805/cache";
     compute.ProjectDir := "proj";
     compute.ResultsDir := "/home/u/.cache/JetBrains/Qodana/e7090287-9c09f805/results";
     compute.QodanaSystemDir := "/home/u/.cache/JetBrains/Qodana";
     compute.ReportDir :=
       "/home/u/.cache/JetBrains/Qodana/e7090287-9c09f805/results/report";
     compute.Id := "e7090287-9c09f805";
     compute.QodanaToken := "tok" |}.

(** A zip archive with a directory and a regular file in it. *)
Definition plainZip : list platform.zipFile :=
  [ {| platform.zName := "lib/"; platform.zIsDir := true;
       platform.zMode := 493; platform.zOpen := inl "";
       platform.zSrcClose := None |};
    {| platform.zName := "lib/tool.jar"; platform.zIsDir := false;
       platform.zMode := 420; platform.zOpen := inl "data";
       platform.zSrcClose := None |} ].

(** A regular file of a tar archive, and a file system on which every copy
    fails. *)
Definition tarFile : platform.tarHeader :=
  {| platform.hName := "lib/tool.jar"; platform.hTypeflag := platform.tar_TypeReg;
     platform.hMode := 420; platform.hData := "data" |}.

Definition copyFails (ops : list platform.FsOp) (op : platform.FsOp) : option string :=
  match op with
  | platform.OpCopy _ _ => Some "no space left on device"
  | _ => None
  end.

Definition tarArchive (path : string) : platform.tarGz + string :=
  inl {| platform.tGzip :=
           inl {| platform.tItems := [ inl tarFile; inl tarFile ];
                  platform.tGzipClose := None |};
         platform.tFileClose := None |}.

Definition noZip (path : string) : platform.zipReader + string := inr "not a zip".

(** A context that skips the pull. *)
Definition skipping : corescan.Context :=
  {| corescan.Analyser := product.DockerAnalyzer image;
     corescan.CacheDir := "/home/u/.cache/qodana";
     corescan.ProjectDir := "proj";
     corescan.ResultsDir := "/home/u/results";
     corescan.ReportDir := "/home/u/results/report";
     corescan.GlobalConfigurationsDir := EmptyString;
     corescan.SkipPull := true;
     corescan.Env := [];
     corescan.QodanaUploadToken := "tok";
     corescan.Id := "e7090287-9c09f805";
     corescan.Volumes := [];
     corescan.User := "1000:1000";
     corescan.JvmDebugPort := 0 |}.

(** A cache directory whose directory [idea] holds the directory of a
    session and a plain file; every port file is there and can be
    removed. *)
Definition ideaEntries (ops : list disk.Op) (path : string)
  : list disk.DirEntry + string :=
  inl [ {| disk.Name := "session1"; disk.IsDir := true |};
        {| disk.Name := "idea.log"; disk.IsDir := false |} ].
Definition found (ops : list disk.Op) (path : string) : option string := None.
Definition removed (ops : list disk.Op) (path : string) : option string := None.

End Example.

(** * Properties *)

(** ** Strings *)
Section strings_facts.

Lemma eqb_empty_false (s : string) :
  s ≠ EmptyString -> String.eqb s EmptyString = false.
Proof. intros H. apply String.eqb_neq. exact H. Qed.

Lemma sprefix_empty (s : string) : String.prefix EmptyString s = true.
Proof. destruct s; reflexivity. Qed.

Lemma sprefix_refl (s : string) : String.prefix s s = true.
Proof.
  induction s as [|c s IH]; [reflexivity|].
  simpl. destruct (ascii_dec c c); [exact IH | congruence].
Qed.

Lemma sprefix_app (p s : string) : String.prefix p (p +:+ s) = true.
Proof.
  induction p as [|c p IH]; simpl; [apply sprefix_empty|].
  destruct (ascii_dec c c); [exact IH | congruence].
Qed.

Lemma Contains_self (s : string) : strings.Contains s s = true.
Proof.
  destruct s as [|c s]; [reflexivity|].
  cbn [strings.Contains]. rewrite sprefix_refl. reflexivity.
Qed.

(** A string contains each of its suffixes. *)
Lemma Contains_suffix (a b : string) : strings.Contains (a +:+ b) b = true.
Proof.
  induction a as [|c a IH]; [apply Contains_self|].
  change (String c a +:+ b) with (String c (a +:+ b)).
  cbn [strings.Contains]. rewrite IH. apply orb_true_r.
Qed.

Lemma Contains_cons_false (c : ascii) (s sub : string) :
  strings.Contains (String c s) sub = false ->
  String.prefix sub (String c s) = false ∧ strings.Contains s sub = false.
Proof. cbn [strings.Contains]. intros H. apply orb_false_elim in H. exact H. Qed.

Lemma sprefix_byte (d c : ascii) (s : string) :
  String.prefix (String d EmptyString) (String c s) = Ascii.eqb c d.
Proof.
  change (String.prefix (String d EmptyString) (String c s))
    with (if ascii_dec d c then String.prefix EmptyString s else false).
  destruct (ascii_dec d c) as [<-|Hne].
  - rewrite sprefix_empty. symmetry. apply Ascii.eqb_refl.
  - symmetry. apply Ascii.eqb_neq. congruence.
Qed.

(** Splitting on a one-byte separator a string without it gives the string
    itself. *)
Lemma genSplit_free (d : ascii) (s : string) :
  strings.Contains s (String d EmptyString) = false ->
  strings.genSplit (String d EmptyString) 0 s = [s].
Proof.
  induction s as [|c s IH]; [reflexivity|].
  intros H. apply Contains_cons_false in H as [Hp Hs].
  cbn [strings.genSplit]. rewrite Hp, (IH Hs). reflexivity.
Qed.

(** Splitting on a one-byte separator cuts at the first one. *)
Lemma genSplit_app (d : ascii) (s rest : string) :
  strings.Contains s (String d EmptyString) = false ->
  strings.genSplit (String d EmptyString) 0 (s +:+ String d EmptyString +:+ rest)
  = s :: strings.genSplit (String d EmptyString) 0 rest.
Proof.
  induction s as [|c s IH]; intros H.
  - change (EmptyString +:+ String d EmptyString +:+ rest) with (String d rest).
    cbn [strings.genSplit]. rewrite sprefix_byte, Ascii.eqb_refl.
    destruct rest; reflexivity.
  - apply Contains_cons_false in H as [Hp Hs].
    change (String c s +:+ String d EmptyString +:+ rest)
      with (String c (s +:+ String d EmptyString +:+ rest)).
    cbn [strings.genSplit].
    rewrite sprefix_byte in Hp |- *. rewrite Hp, (IH Hs). reflexivity.
Qed.

Lemma Split_source_target (source target : string) :
  strings.Contains source ":" = false ->
  strings.Contains target ":" = false ->
  strings.Split (source +:+ ":" +:+ target) ":" = [source; target].
Proof.
  intros Hs Ht. unfold strings.Split.
  rewrite (genSplit_app ":" _ _ Hs), (genSplit_free ":" _ Ht). reflexivity.
Qed.

(** The segment at index 0 is the part before the first separator. *)
Lemma SafeSplit_before_first (d : ascii) (s rest : string) :
  strings.Contains s (String d EmptyString) = false ->
  strutil.SafeSplit (s +:+ String d EmptyString +:+ rest) (String d EmptyString) 0 = s
  ∧ strutil.SafeSplit s (String d EmptyString) 0 = s.
Proof.
  intros Hs. unfold strutil.SafeSplit, strings.Split.
  rewrite (genSplit_app d _ _ Hs), (genSplit_free d _ Hs). done.
Qed.

Lemma app_cons (c : ascii) (s t : string) : String c s +:+ t = String c (s +:+ t).
Proof. reflexivity. Qed.

Lemma app_empty_r (s : string) : s +:+ EmptyString = s.
Proof. induction s as [|c s IH]; [reflexivity | rewrite app_cons; by f_equal]. Qed.

Lemma slength_app (a b : string) :
  String.length (a +:+ b) = (String.length a + String.length b)%nat.
Proof.
  induction a as [|c a IH]; [reflexivity | rewrite app_cons; simpl; by f_equal].
Qed.

Lemma length_substring (n : nat) (s : string) :
  (n ≤ String.length s)%nat -> String.length (String.substring 0 n s) = n.
Proof.
  revert s. induction n as [|n IH]; intros s Hn.
  - destruct s; reflexivity.
  - destruct s as [|c s]; simpl in *; [lia|]. rewrite IH; [reflexivity | lia].
Qed.

End strings_facts.

(** ** The library model on known values *)
Section library_examples.

(** The checksums of the empty message and of [abc] (FIPS 180-4). *)
Example Sum256_empty :
  hex.EncodeToString (sha256.Sum256 EmptyString)
  = "e3b0c44298fc1c149afbf4c8996fb92427ae41e4649b934ca495991b7852b855".
Proof. vm_compute. reflexivity. Qed.

Example Sum256_abc :
  hex.EncodeToString (sha256.Sum256 "abc")
  = "ba7816bf8f01cfea414140de5dae2223b00361a396177a9cb410ff61f20015ad".
Proof. vm_compute. reflexivity. Qed.

Example base64_padding :
  map base64.URLEncoding_EncodeToString ["a"; "ab"; "abc"; "a?>b"]
  = ["YQ=="; "YWI="; "YWJj"; "YT8-Yg=="].
Proof. vm_compute. reflexivity. Qed.

(** [filepath.Clean] on the cases of its documentation: already clean,
    trailing and doubled separators, [.] and [..] elements. *)
Example Clean_cases :
  map filepath.Clean
    [ "abc"; "abc/def"; "."; ".."; "../.."; "../../abc"; "/abc"; "/"; "";
      "abc/"; "./"; "../"; "/abc/"; "abc//def//ghi"; "//abc"; "//abc//";
      "abc/./def"; "/./abc/def"; "abc/."; "abc/def/ghi/../jkl";
      "abc/def/../ghi/../jkl"; "abc/def/.."; "abc/def/../.."; "/abc/def/../..";
      "abc/def/../../.."; "/abc/def/../../..";
      "abc/def/../../../ghi/jkl/../../../mno"; "/../abc"; "abc/./../def";
      "abc/../../././../def" ]
  = [ "abc"; "abc/def"; "."; ".."; "../.."; "../../abc"; "/abc"; "/"; ".";
      "abc"; "."; ".."; "/abc"; "abc/def/ghi"; "/abc"; "/abc";
      "abc/def"; "/abc/def"; "abc"; "abc/def/jkl";
      "abc/jkl"; "abc"; "."; "/";
      ".."; "/";
      "../../mno"; "/abc"; "def";
      "../../def" ].
Proof. vm_compute. reflexivity. Qed.

Example Join_cases :
  map filepath.Join [ ["a"; "b"]; ["a"; ""]; [""; "b"]; [""; ""]; ["/"; "a"];
                      ["a/"; "b"]; ["a"; "../.."; "b"] ]
  = [ "a/b"; "a"; "b"; ""; "/a"; "a/b"; "../b" ].
Proof. vm_compute. reflexivity. Qed.

Example Rel_cases :
  map (fun bt => filepath.Rel bt.1 bt.2)
    [ ("a/b", "a/b"); ("a/b", "a/b/c/d"); ("a/b", "a/b/../c"); ("a/b/c", "a/c/d");
      ("a/b", "c/d"); ("a/b/c/d", "a/b"); ("../../a/b", "../../a/b/c/d");
      ("/a/b", "/a/b/c/d"); ("/a/b/c", "/a/c/d"); ("/a/b/c/d", "/a/b");
      (".", "a/b"); (".", "..") ]
  = [ inl "."; inl "c/d"; inl "../c"; inl "../../c/d";
      inl "../../c/d"; inl "../.."; inl "c/d";
      inl "c/d"; inl "../../c/d"; inl "../..";
      inl "a/b"; inl ".." ]
  ∧ filepath.Rel ".." "a" = inr "Rel: can't make a relative to .."
  ∧ filepath.Rel "/a" "a" = inr "Rel: can't make a relative to /a".
Proof. vm_compute. done. Qed.

Example Split_cases :
  strings.Split "a:b:c" ":" = ["a"; "b"; "c"]
  ∧ strings.Split "" ":" = [""]
  ∧ strings.Split "a::b:" ":" = ["a"; ""; "b"; ""]
  ∧ strings.Split "a--b-c--" "--" = ["a"; "b-c"; ""]
  ∧ strconv.Itoa 5005 = "5005" ∧ strconv.Itoa 0 = "0" ∧ strconv.Itoa (-12) = "-12".
Proof. vm_compute. done. Qed.

End library_examples.

(** ** The monad of the process *)
Section monad_facts.

Lemma bind_Done {A B} (m : M A) (k : A -> M B) (s s' : Proc) (a : A) :
  m s = (Done a, s') -> (m ≫= k) s = k a s'.
Proof. intros H. unfold mbind, M_bind. rewrite H. reflexivity. Qed.

Lemma bind_Fatal {A B} (m : M A) (k : A -> M B) (s s' : Proc) (t : string) :
  m s = (Fatal t, s') -> (m ≫= k) s = (Fatal t, s').
Proof. intros H. unfold mbind, M_bind. rewrite H. reflexivity. Qed.

Lemma bind_inv {A B} (m : M A) (k : A -> M B) (s s' : Proc) (b : B) :
  (m ≫= k) s = (Done b, s') -> ∃ a s1, m s = (Done a, s1) ∧ k a s1 = (Done b, s').
Proof.
  unfold mbind, M_bind. destruct (m s) as [[a| |] s1]; [eauto | discriminate..].
Qed.

Lemma quiet_ret {A} (a : A) : quiet (mret a).
Proof. intros s. split; [reflexivity | discriminate]. Qed.

Lemma quiet_logFatal {A} (t : string) : quiet (@logFatal A t).
Proof. intros s. split; [reflexivity | discriminate]. Qed.

Lemma quiet_setContainerName (n : string) : quiet (setContainerName n).
Proof. intros s. split; [reflexivity | discriminate]. Qed.

Lemma quiet_getContainerName : quiet getContainerName.
Proof. intros s. split; [reflexivity | discriminate]. Qed.

Lemma quiet_emit (m : Message) : quiet (emit m).
Proof. intros s. split; [reflexivity | discriminate]. Qed.

Lemma quiet_bind {A B} (m : M A) (k : A -> M B) :
  quiet m -> (∀ a, quiet (k a)) -> quiet (m ≫= k).
Proof.
  intros Hm Hk s. specialize (Hm s). unfold mbind, M_bind.
  destruct (m s) as [[a|t|t] s1]; cbn in Hm; destruct Hm as [Hc Hp].
  - destruct (Hk a s1) as [Hc' Hp']. split; [congruence | exact Hp'].
  - split; [exact Hc | discriminate].
  - exfalso. by apply (Hp t).
Qed.

End monad_facts.

(** ** C5: the image policy *)
Section image_policy.

Variable Version : string.

Lemma hasExactVersionTag_no_colon (linter : string) :
  strings.Contains linter ":" = false -> hasExactVersionTag linter = false.
Proof. intros H. unfold hasExactVersionTag. rewrite H. reflexivity. Qed.

Lemma hasExactVersionTag_latest (repo : string) :
  hasExactVersionTag (repo +:+ ":latest") = false.
Proof.
  unfold hasExactVersionTag. rewrite Contains_suffix. apply andb_false_r.
Qed.

(** C5. For an image reference without a tag (no colon) or tagged [latest],
    when the version of the CLI is neither a nightly nor a dev build,
    [CheckImage] returns, the messages it prints include the
    unpinned-version warning for that reference, and none of them is the
    incompatible-version warning. *)
Theorem CheckImage_unpinned_takes_precedence (linter : string) (s : Proc) :
  strings.Contains Version "nightly" = false ->
  strings.Contains Version "dev" = false ->
  (strings.Contains linter ":" = false ∨ ∃ repo, linter = repo +:+ ":latest") ->
  ∃ emitted,
    CheckImage Version linter s
    = (Done tt, {| containerName := containerName s; calls := calls s;
                   messages := messages s ++ emitted |})
    ∧ unpinnedWarning linter ∈ emitted
    ∧ ∀ m, m ∈ emitted -> formatOf m ≠ incompatibleFormat.
Proof.
  intros Hn Hd Htag.
  assert (Hexact : hasExactVersionTag linter = false).
  { destruct Htag as [H | [repo ->]];
      [by apply hasExactVersionTag_no_colon | apply hasExactVersionTag_latest]. }
  unfold CheckImage. rewrite Hn, Hd, Hexact. cbn [orb negb].
  destruct (isUnofficialLinter linter).
  - exists [unofficialWarning linter; unpinnedWarning linter].
    split; [|split].
    + unfold mbind, M_bind, emit. cbn. by rewrite <- app_assoc.
    + right. left.
    + intros m Hm.
      apply elem_of_cons in Hm as [-> | Hm]; [discriminate|].
      apply list_elem_of_singleton in Hm as ->. discriminate.
  - exists [unpinnedWarning linter].
    split; [|split].
    + reflexivity.
    + left.
    + intros m Hm. apply list_elem_of_singleton in Hm as ->. discriminate.
Qed.

End image_policy.

Lemma CheckImage_unpinned_takes_precedence_witness :
  ∃ emitted,
    CheckImage "2025.1.1" "jetbrains/qodana-jvm:latest" initialProc
    = (Done tt, {| containerName := "qodana-cli"; calls := [];
                   messages := [] ++ emitted |})
    ∧ unpinnedWarning "jetbrains/qodana-jvm:latest" ∈ emitted
    ∧ ∀ m, m ∈ emitted -> formatOf m ≠ incompatibleFormat.
Proof.
  apply (CheckImage_unpinned_takes_precedence
           "2025.1.1" "jetbrains/qodana-jvm:latest" initialProc).
  - reflexivity.
  - reflexivity.
  - right. exists "jetbrains/qodana-jvm". reflexivity.
Defined.

(** ** C6: the run identifier *)
Section run_identifier.
Import commoncontext.

Lemma length_EncodeToString (src : string) :
  String.length (hex.EncodeToString src) = (2 * String.length src)%nat.
Proof. induction src as [|c src IH]; [reflexivity | simpl; lia]. Qed.

Lemma length_ofList (l : list Z) : String.length (bytes.ofList l) = length l.
Proof. induction l as [|z l IH]; [reflexivity | simpl; by f_equal]. Qed.

Lemma length_digestBytes (d : sha256.digest) : length (sha256.digestBytes d) = 32%nat.
Proof. reflexivity. Qed.

(** A checksum has 32 bytes, whatever the data. *)
Lemma length_Sum256 (data : string) : String.length (sha256.Sum256 data) = 32%nat.
Proof. unfold sha256.Sum256. rewrite length_ofList. apply length_digestBytes. Qed.

Lemma length_getHash (s : string) : String.length (getHash s) = 64%nat.
Proof. unfold getHash. rewrite length_EncodeToString, length_Sum256. reflexivity. Qed.

Lemma slice_getHash (s : string) :
  bytes.slice (getHash s) 0 8 = Some (String.substring 0 8 (getHash s)).
Proof.
  unfold bytes.slice. rewrite length_getHash.
  destruct (decide _) as [_|H]; [reflexivity | lia].
Qed.

(** C6. [computeId] always returns, and what it returns is the first 8
    hex characters of the SHA-256 of the analyzer identity, a hyphen, and
    the first 8 hex characters of the SHA-256 of the absolute project path
    (17 characters); so two calls with the same analyzer identity and the
    same absolute project path return the same identifier. *)
Theorem computeId_hash_prefix_pair
    (getwd : string + string) (linter ide projectDir : string) :
  computeId getwd linter ide projectDir
  = Some (hashPrefixPair (analyzerOf linter ide) (projectAbsOf getwd projectDir))
  ∧ String.length
      (hashPrefixPair (analyzerOf linter ide) (projectAbsOf getwd projectDir))
    = 17%nat
  ∧ ∀ getwd' linter' ide' projectDir',
      analyzerOf linter' ide' = analyzerOf linter ide ->
      projectAbsOf getwd' projectDir' = projectAbsOf getwd projectDir ->
      computeId getwd' linter' ide' projectDir'
      = computeId getwd linter ide projectDir.
Proof.
  assert (Hid : ∀ g l i p,
    computeId g l i p = Some (hashPrefixPair (analyzerOf l i) (projectAbsOf g p))).
  { intros g l i p. unfold computeId. cbn [Nat.add].
    rewrite !slice_getHash. reflexivity. }
  split; [apply Hid | split].
  - unfold hashPrefixPair. fold (getHash (analyzerOf linter ide)).
    fold (getHash (projectAbsOf getwd projectDir)).
    rewrite !slength_app, !length_substring; [reflexivity | |];
      rewrite length_getHash; lia.
  - intros g l i p Ha Hp. rewrite !Hid, Ha, Hp. reflexivity.
Qed.

End run_identifier.

Lemma computeId_hash_prefix_pair_witness :
  commoncontext.computeId (inl "/") "" "jetbrains/qodana-jvm:2025.1" "/home/u/proj"
  = commoncontext.computeId (inl "/home/u") "jetbrains/qodana-jvm:2025.1" "" "proj".
Proof.
  apply (computeId_hash_prefix_pair (inl "/home/u") "jetbrains/qodana-jvm:2025.1" "" "proj").
  - reflexivity.
  - reflexivity.
Defined.

(** The identifier of the Qodana JVM image for the project [/home/u/proj]. *)
Example computeId_example :
  commoncontext.computeId (inl "/home/u") "jetbrains/qodana-jvm:2025.1" "" "proj"
  = Some "e7090287-9c09f805".
Proof. vm_compute. reflexivity. Qed.

(** ** C9: cleanup *)
Section cleanup.

Variable w : World.

(** C9. When the package variable [containerName] holds its initial value
    [qodana-cli], [ContainerCleanup] returns and leaves the process state
    as it was: no call is made to the engine (no list, no stop). *)
Theorem ContainerCleanup_sentinel_no_engine_call (s : Proc) :
  containerName s = containerNameSentinel ->
  ContainerCleanup w s = (Done tt, s) ∧ calls (ContainerCleanup w s).2 = calls s.
Proof.
  intros Hname.
  assert (H : ContainerCleanup w s = (Done tt, s)).
  { unfold ContainerCleanup, mbind, M_bind, getContainerName.
    rewrite Hname. reflexivity. }
  rewrite H. split; reflexivity.
Qed.

End cleanup.

(** ** The container configuration builder *)
Section builder.

Variable GOOS : string.
Variable names : qdenv.Names.
Variable dirs : qdcontainer.Dirs.
Variable GetIdeArgs : corescan.Context -> list string.
Variable envExtractedFromOsEnv : World -> corescan.Context -> list string.
Variable w : World.

Local Abbreviation builder := (getDockerOptions GOOS names dirs GetIdeArgs envExtractedFromOsEnv w).

Ltac quiet_step :=
  first
    [ apply quiet_ret | apply quiet_logFatal | apply quiet_setContainerName
    | apply quiet_getContainerName | apply quiet_emit
    | apply quiet_bind; [|intros ?]
    | match goal with
      | |- quiet (if ?b then _ else _) => destruct b
      | |- quiet (match ?x with _ => _ end) => destruct x
      end ].

Lemma quiet_absOrFatal (what path : string) : quiet (absOrFatal w what path).
Proof. unfold absOrFatal. repeat quiet_step. Qed.

Lemma quiet_appendUserVolumes (user : list string) (volumes : list mount.Mount) :
  quiet (appendUserVolumes GOOS volumes user).
Proof.
  revert volumes. induction user as [|v user IH]; intros volumes; cbn [appendUserVolumes].
  - apply quiet_ret.
  - destruct (extractDockerVolumes GOOS v) as [source target].
    destruct (negb _ && negb _); [apply IH | apply quiet_logFatal].
Qed.

(** The builder makes no engine call and does not panic. *)
Lemma quiet_getDockerOptions (c : corescan.Context) (image : string) :
  quiet (builder c image).
Proof.
  unfold getDockerOptions.
  repeat first [ apply quiet_absOrFatal | apply quiet_appendUserVolumes | quiet_step ].
Qed.

Lemma appendUserVolumes_Done (user : list string) :
  ∀ (volumes volumes' : list mount.Mount) (s s' : Proc),
    appendUserVolumes GOOS volumes user s = (Done volumes', s') ->
    s' = s ∧ volumes' = volumes ++ map (userMount GOOS) user
    ∧ Forall (fun v => parses GOOS v = true) user.
Proof.
  induction user as [|v user IH]; intros volumes volumes' s s' H.
  - cbn in H. injection H as <- <-. by rewrite app_nil_r.
  - cbn [appendUserVolumes] in H. unfold userMount, parses in *.
    destruct (extractDockerVolumes GOOS v) as [source target] eqn:Hv.
    destruct (negb (source =? "")%string && negb (target =? "")%string) eqn:Hp.
    + apply IH in H as (-> & -> & Hall). split; [done|]. split.
      * cbn [map]. rewrite Hv. cbn. by rewrite <- app_assoc.
      * constructor; [by rewrite Hv | done].
    + discriminate.
Qed.

Lemma appendUserVolumes_parsed (user : list string) :
  ∀ (volumes : list mount.Mount) (s : Proc),
    Forall (fun v => parses GOOS v = true) user ->
    appendUserVolumes GOOS volumes user s
    = (Done (volumes ++ map (userMount GOOS) user), s).
Proof.
  induction user as [|v user IH]; intros volumes s Hall.
  - cbn. by rewrite app_nil_r.
  - apply Forall_cons in Hall as [Hv Hall]. cbn [appendUserVolumes map].
    unfold parses, userMount in *.
    destruct (extractDockerVolumes GOOS v) as [source target].
    rewrite Hv, (IH _ _ Hall). cbn. by rewrite <- app_assoc.
Qed.

Lemma absOrFatal_Done (what path p : string) (s s' : Proc) :
  absOrFatal w what path s = (Done p, s') ->
  filepath.Abs (Getwd w) path = inl p ∧ s' = s.
Proof.
  unfold absOrFatal. destruct (filepath.Abs (Getwd w) path); [|discriminate].
  intros [= -> ->]. done.
Qed.

(** What the builder returns, when it returns. *)
Lemma getDockerOptions_Done (c : corescan.Context) (image : string)
      (s s' : Proc) (cfg : backend.ContainerCreateConfig) :
  builder c image s = (Done cfg, s') ->
  calls s' = calls s ∧ messages s' = messages s
  ∧ backend.Name cfg = containerName s'
  ∧ container.Env (backend.Config cfg) = envExtractedFromOsEnv w c ++ tokenEntries names w c
  ∧ (∃ fixed, container.Mounts (backend.HostConfig cfg)
              = fixed ++ map (userMount GOOS) (corescan.Volumes c)
            ∧ (length fixed = 4 ∨ length fixed = 5)%nat)
  ∧ Forall (fun v => parses GOOS v = true) (corescan.Volumes c)
  ∧ container.PortBindings (backend.HostConfig cfg)
    = (if 0 <? corescan.JvmDebugPort c
       then {[ containerJvmDebugPort :=
                 [ {| nat_.HostIP := "0.0.0.0";
                      nat_.HostPort := strconv.Itoa (corescan.JvmDebugPort c) |} ] ]}
       else ∅)
  ∧ container.ExposedPorts (backend.Config cfg)
    = (if 0 <? corescan.JvmDebugPort c then {[ containerJvmDebugPort ]} else ∅)
  ∧ container.NetworkMode (backend.HostConfig cfg)
    = (if strings.HasPrefix (CloudRootEndpointUrl w) "http://"
       then network.NetworkHost else EmptyString).
Proof.
  unfold getDockerOptions. intros H.
  apply bind_inv in H as (cachePath & s1 & [_ ->]%absOrFatal_Done & H).
  apply bind_inv in H as (projectPath & s1 & [_ ->]%absOrFatal_Done & H).
  apply bind_inv in H as (resultsPath & s1 & [_ ->]%absOrFatal_Done & H).
  apply bind_inv in H as (reportPath & s1 & [_ ->]%absOrFatal_Done & H).
  apply bind_inv in H as ([] & s1 & [= <-] & H).
  apply bind_inv in H as (name & s2 & [= <- <-] & H).
  apply bind_inv in H as ([] & s3 & Hname & H).
  apply bind_inv in H as (volumes & s4 & Hglobal & H).
  apply bind_inv in H as (volumes' & s5 & (-> & -> & Hall)%appendUserVolumes_Done & H).
  assert (Hs3 : calls s3 = calls s ∧ messages s3 = messages s).
  { destruct (_ =? _)%string in Hname; injection Hname as <-; done. }
  assert (Hs4 : s4 = s3 ∧ (length volumes = 4 ∨ length volumes = 5)%nat).
  { destruct (negb _) in Hglobal.
    - apply bind_inv in Hglobal as (g & s6 & [_ ->]%absOrFatal_Done & [= <- <-]).
      split; [done | by right].
    - injection Hglobal as <- <-. split; [done | by left]. }
  destruct Hs4 as (-> & Hfixed). clear Hglobal Hname.
  unfold withExtractedEnv in *.
  cbn [corescan.JvmDebugPort corescan.Env corescan.Volumes corescan.QodanaUploadToken] in *.
  destruct Hs3 as [Hc Hm].
  destruct (0 <? corescan.JvmDebugPort c);
    destruct (strings.Contains image "dotnet");
    apply bind_inv in H as (name' & s6 & [= <- <-] & [= <- <-]);
    cbn [backend.Name backend.Config backend.HostConfig container.Env
         container.Mounts container.PortBindings container.ExposedPorts
         container.NetworkMode].
  all: repeat split; try done; try (by eexists; split).
  all: unfold tokenEntries, envEntry;
    destruct (negb (Getenv w _ =? _)%string && _);
    destruct (negb (corescan.QodanaUploadToken c =? _)%string);
    by rewrite ?app_nil_r, <- ?app_assoc.
Qed.

(** A volume that does not parse ends the process in the builder. *)
Lemma getDockerOptions_Fatal (c : corescan.Context) (image : string) (s : Proc) :
  Exists (fun v => parses GOOS v = false) (corescan.Volumes c) ->
  ∃ t s', builder c image s = (Fatal t, s') ∧ calls s' = calls s.
Proof.
  intros Hex. destruct (quiet_getDockerOptions c image s) as [Hc Hp].
  destruct (builder c image s) as [[cfg|t|t] s'] eqn:H; cbn in Hc, Hp.
  - apply getDockerOptions_Done in H as (_ & _ & _ & _ & _ & Hall & _).
    exfalso. apply Exists_exists in Hex as (v & Hv & Hf).
    rewrite Forall_forall in Hall. specialize (Hall v Hv). congruence.
  - eauto.
  - exfalso. by apply (Hp t).
Qed.

(** The builder returns when the working directory is known and every
    volume parses. *)
Lemma getDockerOptions_returns (c : corescan.Context) (image wd : string) (s : Proc) :
  Getwd w = inl wd ->
  Forall (fun v => parses GOOS v = true) (corescan.Volumes c) ->
  ∃ cfg s', builder c image s = (Done cfg, s').
Proof.
  intros Hwd Hall.
  assert (Habs : ∀ what path s0, ∃ p, absOrFatal w what path s0 = (Done p, s0)).
  { intros what path s0. unfold absOrFatal, filepath.Abs. rewrite Hwd.
    destruct (filepath.IsAbs path); eauto. }
  unfold getDockerOptions.
  destruct (Habs "couldn't get abs path for cache"
              (corescan.CacheDir (withExtractedEnv envExtractedFromOsEnv w c)) s)
    as [p1 H1]. rewrite (bind_Done _ _ _ _ _ H1).
  destruct (Habs "couldn't get abs path for project"
              (corescan.ProjectDir (withExtractedEnv envExtractedFromOsEnv w c)) s)
    as [p2 H2]. rewrite (bind_Done _ _ _ _ _ H2).
  destruct (Habs "couldn't get abs path for results"
              (corescan.ResultsDir (withExtractedEnv envExtractedFromOsEnv w c)) s)
    as [p3 H3]. rewrite (bind_Done _ _ _ _ _ H3).
  destruct (Habs "couldn't get abs path for report"
              (corescan.ReportDir (withExtractedEnv envExtractedFromOsEnv w c)) s)
    as [p4 H4]. rewrite (bind_Done _ _ _ _ _ H4).
  erewrite bind_Done by reflexivity.
  erewrite bind_Done by reflexivity.
  cbn [containerName].
  match goal with
  | |- context [((if ?b then setContainerName ?n else mret tt) ≫= ?k) ?s0] =>
      assert (Hn : ∃ s1, (if b then setContainerName n else mret tt) s0 = (Done tt, s1))
        by (destruct b; eauto);
      destruct Hn as [s1 Hn]; rewrite (bind_Done _ k _ _ _ Hn)
  end.
  match goal with
  | |- context [(?m ≫= ?k) s1] =>
      assert (Hg : ∃ vols, m s1 = (Done vols, s1))
  end.
  { destruct (negb _); [|eauto].
    match goal with
    | |- context [absOrFatal w ?what ?path] => destruct (Habs what path s1) as [g Hg]
    end.
    rewrite (bind_Done _ _ _ _ _ Hg). eauto. }
  destruct Hg as [vols Hg]. rewrite (bind_Done _ _ _ _ _ Hg).
  rewrite (bind_Done _ _ _ _ _ (appendUserVolumes_parsed _ _ _ Hall)).
  destruct (0 <? _); destruct (strings.Contains image "dotnet");
    (erewrite bind_Done by reflexivity); eauto.
Qed.


(** *** C8: the debug port *)

(** C8. In the container specification the builder returns, the port
    bindings are exactly the fixed internal debug port 5005 bound to host
    IP 0.0.0.0 at the requested host port (in decimal), and the exposed
    ports are exactly that internal port, when the requested debug port is
    positive; otherwise there is no port binding and no exposed port.  So
    5005 is bound, and is exposed, if and only if the requested port is
    positive. *)
Theorem debug_port_published_iff_positive
    (c : corescan.Context) (image : string) (s s' : Proc)
    (cfg : backend.ContainerCreateConfig) :
  builder c image s = (Done cfg, s') ->
  let port := corescan.JvmDebugPort c in
  let bindings := container.PortBindings (backend.HostConfig cfg) in
  let exposed := container.ExposedPorts (backend.Config cfg) in
  (0 < port ->
     bindings = {[ "5005" := [ {| nat_.HostIP := "0.0.0.0";
                                  nat_.HostPort := strconv.Itoa port |} ] ]}
     ∧ exposed = {[ "5005" ]})
  ∧ (port ≤ 0 -> bindings = ∅ ∧ exposed = ∅)
  ∧ (is_Some (bindings !! "5005") ↔ 0 < port)
  ∧ ("5005" ∈ exposed ↔ 0 < port).
Proof.
  intros H port bindings exposed.
  apply getDockerOptions_Done in H as (_ & _ & _ & _ & _ & _ & Hb & He & _).
  subst bindings exposed. rewrite Hb, He. fold port.
  destruct (0 <? port) eqn:Hp; [apply Z.ltb_lt in Hp | apply Z.ltb_ge in Hp].
  - split; [done|]. split; [lia|]. split; (split; [done|]); intros _.
    + rewrite lookup_singleton_eq. eauto.
    + by apply elem_of_singleton.
  - split; [lia|]. split; [done|]. split; (split; [|lia]).
    + intros [x Hx]. by rewrite lookup_empty in Hx.
    + intros Hx. by apply not_elem_of_empty in Hx.
Qed.

(** *** C7: the network mode *)

Lemma without_app (pre s rest : string) :
  cloud.without pre s = Some rest -> s = pre +:+ rest.
Proof.
  revert s. induction pre as [|a pre IH]; intros s; cbn [cloud.without].
  - by intros [= ->].
  - destruct s as [|c s]; [discriminate|].
    destruct (Ascii.eqb a c) eqn:Hac; [|discriminate].
    apply Ascii.eqb_eq in Hac as ->. intros ->%IH. done.
Qed.

Lemma cut_app (sep s a b : string) :
  cloud.cut sep s = Some (a, b) -> s = a +:+ sep +:+ b.
Proof.
  revert a. induction s as [|c s IH]; intros a; cbn [cloud.cut].
  - destruct (cloud.without sep EmptyString) as [after|] eqn:Hw; [|discriminate].
    intros [= <- <-]. exact (without_app _ _ _ Hw).
  - destruct (cloud.without sep (String c s)) as [after|] eqn:Hw.
    + intros [= <- <-]. exact (without_app _ _ _ Hw).
    + destruct (cloud.cut sep s) as [[a' b']|]; [|discriminate].
      intros [= <- <-]. by rewrite (IH a' eq_refl).
Qed.

Lemma sprefix_without (pre s : string) :
  String.prefix pre s = true -> ∃ rest, s = pre +:+ rest.
Proof.
  revert s. induction pre as [|a pre IH]; intros s H; [by exists s|].
  destruct s as [|c s]; [discriminate|]. simpl in H.
  destruct (ascii_dec a c) as [<-|]; [|discriminate].
  destruct (IH s H) as [rest ->]. by exists rest.
Qed.

(** The test of the builder is a test of the scheme. *)
Lemma HasPrefix_http_scheme (url : string) :
  strings.HasPrefix url "http://" = true ↔ cloud.scheme url = "http".
Proof.
  unfold strings.HasPrefix, cloud.scheme. split.
  - intros [rest ->]%sprefix_without. reflexivity.
  - destruct (cloud.cut "://" url) as [[a b]|] eqn:Hc; [|discriminate].
    intros ->. apply cut_app in Hc as ->. apply (sprefix_app "http://" b).
Qed.

Lemma HasPrefix_http_https (url : string) :
  cloud.scheme url = "https" -> strings.HasPrefix url "http://" = false.
Proof.
  unfold strings.HasPrefix, cloud.scheme.
  destruct (cloud.cut "://" url) as [[a b]|] eqn:Hc; [|discriminate].
  intros ->. apply cut_app in Hc as ->. reflexivity.
Qed.

(** C7. In the container specification the builder returns, the network
    mode is [host] if and only if the URL of the cloud endpoint starts with
    [http://], that is, if and only if its scheme is [http]; the host of
    the URL is not looked at.  In every other case, and so for the scheme
    [https], the mode is left empty (the default of the engine, bridge).
    A plaintext endpoint on a local host is one of the endpoints that get
    [host]. *)
Theorem network_mode_host_iff_http_prefix
    (c : corescan.Context) (image : string) (s s' : Proc)
    (cfg : backend.ContainerCreateConfig) :
  builder c image s = (Done cfg, s') ->
  let mode := container.NetworkMode (backend.HostConfig cfg) in
  let url := CloudRootEndpointUrl w in
  (mode = network.NetworkHost ↔ strings.HasPrefix url "http://" = true)
  ∧ (mode = network.NetworkHost ↔ cloud.scheme url = "http")
  ∧ (strings.HasPrefix url "http://" = false -> mode = EmptyString)
  ∧ (cloud.scheme url = "https" -> mode = EmptyString)
  ∧ (cloud.plaintextLocal url = true -> mode = network.NetworkHost).
Proof.
  intros H mode url.
  apply getDockerOptions_Done in H as (_ & _ & _ & _ & _ & _ & _ & _ & Hn).
  subst mode. rewrite Hn. fold url.
  assert (Hcode : ∀ b : bool,
    ((if b then network.NetworkHost else EmptyString) = network.NetworkHost ↔ b = true)
    ∧ (b = false -> (if b then network.NetworkHost else EmptyString) = EmptyString)).
  { intros []; repeat split; try done. }
  split; [apply Hcode|].
  split; [rewrite <- HasPrefix_http_scheme; apply Hcode|].
  split; [apply Hcode|].
  split; [intros Hs; apply Hcode; by apply HasPrefix_http_https|].
  unfold cloud.plaintextLocal. intros [Hs _]%andb_prop.
  apply String.eqb_eq, HasPrefix_http_scheme in Hs. by apply Hcode.
Qed.

End builder.

Section builder_witnesses.
Import Example.

Lemma debug_port_published_iff_positive_witness :
  ∃ cfg s',
    getDockerOptions "linux" names dirs GetIdeArgs envExtractedFromOsEnv
      (world (engineOn "linux") noEnv "https://qodana.cloud")
      (context (product.DockerAnalyzer image) [] [] "tok" 5005) image initialProc
    = (Done cfg, s')
    ∧ container.PortBindings (backend.HostConfig cfg)
      = {[ "5005" := [ {| nat_.HostIP := "0.0.0.0"; nat_.HostPort := "5005" |} ] ]}
    ∧ container.ExposedPorts (backend.Config cfg) = {[ "5005" ]}.
Proof.
  eexists _, _. split; [vm_compute; reflexivity|].
  refine (proj1 (debug_port_published_iff_positive
                   "linux" names dirs GetIdeArgs envExtractedFromOsEnv
                   (world (engineOn "linux") noEnv "https://qodana.cloud")
                   (context (product.DockerAnalyzer image) [] [] "tok" 5005)
                   image initialProc _ _ eq_refl) _).
  reflexivity.
Defined.

Lemma network_mode_host_iff_http_prefix_witness :
  ∃ cfg s',
    getDockerOptions "linux" names dirs GetIdeArgs envExtractedFromOsEnv
      (world (engineOn "linux") noEnv "http://localhost:8080")
      (context (product.DockerAnalyzer image) [] [] "tok" 0) image initialProc
    = (Done cfg, s')
    ∧ cloud.plaintextLocal "http://localhost:8080" = true
    ∧ container.NetworkMode (backend.HostConfig cfg) = "host".
Proof.
  eexists _, _. split; [vm_compute; reflexivity|]. split; [reflexivity|].
  refine (proj2 (proj2 (proj2 (proj2 (network_mode_host_iff_http_prefix
                   "linux" names dirs GetIdeArgs envExtractedFromOsEnv
                   (world (engineOn "linux") noEnv "http://localhost:8080")
                   (context (product.DockerAnalyzer image) [] [] "tok" 0)
                   image initialProc _ _ eq_refl)))) _).
  reflexivity.
Defined.

(** C7 as stated fails: the endpoint [http://8.8.8.8] has the scheme [http]
    and a host that is not local, so it is no plaintext local endpoint; yet
    the builder sets the network mode to [host], since it looks at the
    prefix [http://] only. *)
Lemma network_mode_host_for_remote_http :
  let url := "http://8.8.8.8" in
  let w := world (engineOn "linux") noEnv url in
  let c := context (product.DockerAnalyzer image) [] [] "tok" 0 in
  cloud.scheme url = "http"
  ∧ cloud.host url = "8.8.8.8"
  ∧ cloud.isLocalHost (cloud.host url) = false
  ∧ cloud.plaintextLocal url = false
  ∧ strings.HasPrefix url "http://" = true
  ∧ ∃ cfg s',
      getDockerOptions "linux" names dirs GetIdeArgs envExtractedFromOsEnv w c image
        initialProc = (Done cfg, s')
      ∧ container.NetworkMode (backend.HostConfig cfg) = network.NetworkHost.
Proof.
  intros url w c. repeat (split; [reflexivity|]).
  eexists _, _. split; vm_compute; reflexivity.
Qed.

End builder_witnesses.

(** ** C2: the token entries of the environment list *)
Section token_entries.

Variable GOOS : string.
Variable names : qdenv.Names.
Variable dirs : qdcontainer.Dirs.
Variable GetIdeArgs : corescan.Context -> list string.
Variable envExtractedFromOsEnv : World -> corescan.Context -> list string.
Variable w : World.

Lemma sprefix_cons (a c : ascii) (p s : string) :
  String.prefix (String a p) (String c s) = true -> a = c ∧ String.prefix p s = true.
Proof.
  change (String.prefix (String a p) (String c s))
    with (if ascii_dec a c then String.prefix p s else false).
  destruct (ascii_dec a c); [done | discriminate].
Qed.

(** An entry sets one variable only: names without [=] that are followed
    by [=] at the start of the same entry are equal. *)
Lemma setsVariable_envEntry (name name' value : string) :
  strings.Contains name "=" = false ->
  strings.Contains name' "=" = false ->
  setsVariable name (envEntry name' value) = true -> name = name'.
Proof.
  unfold setsVariable, envEntry, strings.HasPrefix.
  revert name'. induction name as [|a name IH]; intros [|c name'] Hn Hn' H.
  - reflexivity.
  - apply Contains_cons_false in Hn' as [Hp _].
    rewrite app_cons in H. apply sprefix_cons in H as [<- _].
    rewrite sprefix_byte in Hp. discriminate.
  - apply Contains_cons_false in Hn as [Hp _].
    rewrite app_cons in H. apply sprefix_cons in H as [-> _].
    rewrite sprefix_byte in Hp. discriminate.
  - apply Contains_cons_false in Hn as [_ Hn].
    apply Contains_cons_false in Hn' as [_ Hn'].
    rewrite !app_cons in H. apply sprefix_cons in H as [-> H].
    f_equal. by apply IH.
Qed.

Lemma setsVariable_own (name value : string) :
  setsVariable name (envEntry name value) = true.
Proof.
  unfold setsVariable, envEntry, strings.HasPrefix.
  replace (name +:+ "=" +:+ value) with ((name +:+ "=") +:+ value).
  - apply sprefix_app.
  - induction name as [|a name IH]; [reflexivity|].
    rewrite !app_cons. by f_equal.
Qed.

Local Abbreviation builder :=
  (getDockerOptions GOOS names dirs GetIdeArgs envExtractedFromOsEnv w).

(** C2, as amended.  The names of the two token variables are different
    and free of [=].  For a scan context whose own environment list (after
    the extraction from the OS environment) sets neither of the two
    variables, the final environment list is that list followed by the
    entries the builder appends, and it contains the upload-token entry if
    and only if the upload token is non-empty, and the license-only-token
    entry if and only if the license-only token is non-empty and the upload
    token is empty; when both tokens are set no entry of the final list
    sets the license-only variable. *)
Theorem token_entries_of_final_environment
    (c : corescan.Context) (image : string) (s s' : Proc)
    (cfg : backend.ContainerCreateConfig) :
  let tokenName := qdenv.QodanaToken names in
  let licenseName := qdenv.QodanaLicenseOnlyToken names in
  let token := corescan.QodanaUploadToken c in
  let license := Getenv w licenseName in
  strings.Contains tokenName "=" = false ->
  strings.Contains licenseName "=" = false ->
  tokenName ≠ licenseName ->
  (∀ e, e ∈ envExtractedFromOsEnv w c ->
        setsVariable tokenName e = false ∧ setsVariable licenseName e = false) ->
  builder c image s = (Done cfg, s') ->
  let env := container.Env (backend.Config cfg) in
  env = envExtractedFromOsEnv w c ++ tokenEntries names w c
  ∧ (envEntry tokenName token ∈ env ↔ token ≠ EmptyString)
  ∧ (envEntry licenseName license ∈ env
       ↔ license ≠ EmptyString ∧ token = EmptyString)
  ∧ (token ≠ EmptyString -> license ≠ EmptyString ->
       ∀ e, e ∈ env -> setsVariable licenseName e = false).
Proof.
  intros tokenName licenseName token license Ht Hl Hne Hbase H env.
  apply getDockerOptions_Done in H as (_ & _ & _ & Henv & _).
  subst env. rewrite Henv. split; [reflexivity|].
  assert (Hnotin : ∀ name value,
    (name = tokenName ∨ name = licenseName) ->
    envEntry name value ∉ envExtractedFromOsEnv w c).
  { intros name value Hname Hin. destruct (Hbase _ Hin) as [H1 H2].
    pose proof (setsVariable_own name value) as Hown.
    destruct Hname as [-> | ->]; congruence. }
  assert (Hcross : ∀ v v', envEntry tokenName v ≠ envEntry licenseName v').
  { intros v v' Heq. apply Hne.
    apply (setsVariable_envEntry tokenName licenseName v' Ht Hl).
    rewrite <- Heq. apply setsVariable_own. }
  unfold tokenEntries. fold tokenName licenseName token license.
  destruct (String.eqb_spec token EmptyString) as [Htok|Htok];
    destruct (String.eqb_spec license EmptyString) as [Hlic|Hlic];
    cbn [negb andb app]; rewrite ?app_nil_r.
  - split; [|split].
    + split; [intros Hin | done]. exfalso. by eapply Hnotin; [left|].
    + split; [intros Hin | intros [? _]; done].
      exfalso. by eapply Hnotin; [right|].
    + done.
  - split; [|split].
    + split; [intros Hin | done]. exfalso.
      apply elem_of_app in Hin as [Hin | Hin%list_elem_of_singleton].
      * by eapply Hnotin; [left|].
      * by eapply Hcross.
    + split; [done|]. intros _. apply elem_of_app. right. left.
    + done.
  - split; [|split].
    + split; [done|]. intros _. apply elem_of_app. right. left.
    + split; [intros Hin | intros [? _]; done]. exfalso.
      apply elem_of_app in Hin as [Hin | Hin%list_elem_of_singleton].
      * by eapply Hnotin; [right|].
      * symmetry in Hin. by eapply Hcross.
    + done.
  - split; [|split].
    + split; [done|]. intros _. apply elem_of_app. right. left.
    + split; [intros Hin | intros [_ ?]; done]. exfalso.
      apply elem_of_app in Hin as [Hin | Hin%list_elem_of_singleton].
      * by eapply Hnotin; [right|].
      * symmetry in Hin. by eapply Hcross.
    + intros _ _ e Hin.
      apply elem_of_app in Hin as [Hin | Hin%list_elem_of_singleton].
      * by apply Hbase.
      * subst e. destruct (setsVariable licenseName (envEntry tokenName token)) eqn:Hs;
          [|done].
        exfalso. apply Hne. symmetry.
        by apply (setsVariable_envEntry licenseName tokenName token Hl Ht).
Qed.

End token_entries.

Section token_entries_examples.
Import Example.

Lemma token_entries_of_final_environment_witness :
  ∃ cfg s',
    getDockerOptions "linux" names dirs GetIdeArgs envExtractedFromOsEnv
      (world (engineOn "linux") licenseEnv "https://qodana.cloud")
      (context (product.DockerAnalyzer image) ["FOO=bar"] [] "tok" 0) image initialProc
    = (Done cfg, s')
    ∧ container.Env (backend.Config cfg) = ["FOO=bar"; "QODANA_TOKEN=tok"].
Proof.
  eexists _, _. split; [vm_compute; reflexivity|].
  refine (proj1 (token_entries_of_final_environment
                   "linux" names dirs GetIdeArgs envExtractedFromOsEnv
                   (world (engineOn "linux") licenseEnv "https://qodana.cloud")
                   (context (product.DockerAnalyzer image) ["FOO=bar"] [] "tok" 0)
                   image initialProc _ _ eq_refl eq_refl _ _ eq_refl)).
  - discriminate.
  - intros e He. apply list_elem_of_singleton in He as ->. split; reflexivity.
Defined.

(** C2 as stated fails: a context whose own environment list carries a
    license-only entry keeps it in the final list, next to the upload-token
    entry, although both tokens are set. *)
Lemma token_entries_not_exclusive :
  ∃ cfg s',
    getDockerOptions "linux" names dirs GetIdeArgs envExtractedFromOsEnv
      (world (engineOn "linux") licenseEnv "https://qodana.cloud")
      (context (product.DockerAnalyzer image) ["QODANA_LICENSE_ONLY_TOKEN=lic"] []
               "tok" 0)
      image initialProc
    = (Done cfg, s')
    ∧ corescan.QodanaUploadToken
        (context (product.DockerAnalyzer image) ["QODANA_LICENSE_ONLY_TOKEN=lic"] []
                 "tok" 0) ≠ EmptyString
    ∧ licenseEnv (qdenv.QodanaLicenseOnlyToken names) = "lic"
    ∧ envEntry (qdenv.QodanaToken names) "tok" ∈ container.Env (backend.Config cfg)
    ∧ envEntry (qdenv.QodanaLicenseOnlyToken names) "lic"
        ∈ container.Env (backend.Config cfg)
    ∧ ¬ (envEntry (qdenv.QodanaLicenseOnlyToken names) "lic"
           ∈ container.Env (backend.Config cfg)
         ↔ "lic" ≠ EmptyString ∧ "tok" = EmptyString).
Proof.
  eexists _, _. split; [vm_compute; reflexivity|].
  cbn [backend.Config container.Env].
  split; [discriminate|]. split; [reflexivity|].
  assert (Hin : envEntry (qdenv.QodanaLicenseOnlyToken names) "lic"
                ∈ ["QODANA_LICENSE_ONLY_TOKEN=lic"; "QODANA_TOKEN=tok"]) by left.
  split; [right; left|]. split; [exact Hin|].
  intros [Hto _]. destruct (Hto Hin) as [_ Hfalse]. discriminate.
Qed.

End token_entries_examples.

Lemma ContainerCleanup_sentinel_no_engine_call_witness :
  ContainerCleanup (Example.world (Example.engineOn "linux") Example.noEnv "") initialProc
  = (Done tt, initialProc)
  ∧ calls (ContainerCleanup
             (Example.world (Example.engineOn "linux") Example.noEnv "") initialProc).2
    = [].
Proof.
  apply (ContainerCleanup_sentinel_no_engine_call
           (Example.world (Example.engineOn "linux") Example.noEnv "") initialProc).
  reflexivity.
Defined.

(** ** C3: the registry puller *)
Section puller.

Variable w : World.

Lemma drainAndClose_state (reader : PullStream) (s : Proc) :
  (drainAndClose reader s).2 = s.
Proof.
  unfold drainAndClose. destruct (copyErr reader); [reflexivity|].
  destruct (closeErr reader); reflexivity.
Qed.

Lemma drainAndClose_no_panic (reader : PullStream) (s : Proc) (t : string) :
  (drainAndClose reader s).1 ≠ Panic t.
Proof.
  unfold drainAndClose. destruct (copyErr reader); [discriminate|].
  destruct (closeErr reader); discriminate.
Qed.

(** C3, as amended.  [pullImage] first makes an anonymous pull.  It makes
    one more call, and no other, exactly when that pull fails with an error
    whose lower-cased text contains [unauthorized], [denied] or [forbidden]
    and the stored credentials of the registry host of the image are loaded,
    found and encoded; that call is a pull carrying those credentials.  A
    failure of the anonymous pull with any other error, a failure to obtain
    the credentials, and a failure of the credentialed pull each end the
    process. *)
Theorem pullImage_single_credentialed_retry (image : string) (s : Proc) :
  let first := CallImagePull image anonymousPull in
  let answer := engImagePull (engine w) (calls s) image anonymousPull in
  let out := (pullImage w image s).1 in
  ∃ rest,
    calls (pullImage w image s).2 = calls s ++ first :: rest
    ∧ (rest = []
       ∨ ∃ enc, storedCredentials w image = Some enc
                ∧ rest = [CallImagePull image {| types.RegistryAuth := enc |}])
    ∧ (rest ≠ [] ↔ ∃ err enc, answer = inr err
                             ∧ isDockerUnauthorizedError err = true
                             ∧ storedCredentials w image = Some enc)
    ∧ (∀ err, answer = inr err -> isDockerUnauthorizedError err = false ->
              out = Fatal ("can't pull image " +:+ err))
    ∧ (∀ err, answer = inr err -> storedCredentials w image = None ->
              ∃ t, out = Fatal t)
    ∧ (∀ err enc err',
         answer = inr err -> isDockerUnauthorizedError err = true ->
         storedCredentials w image = Some enc ->
         engImagePull (engine w) (calls s ++ [first]) image
                      {| types.RegistryAuth := enc |} = inr err' ->
         out = Fatal ("can't pull image from the private registry" +:+ err')).
Proof.
  intros first answer out. subst out.
  destruct (pullImage w image s) as [o s'] eqn:Hr. cbn [fst snd].
  unfold pullImage, ImagePull, engineCall, encodeAuthToBase64 in Hr.
  unfold storedCredentials.
  unfold mbind at 1, M_bind at 1 in Hr. fold first in Hr. fold answer in Hr.
  set (s1 := {| containerName := containerName s; calls := calls s ++ [first];
                messages := messages s |}) in Hr.
  destruct answer as [reader | err] eqn:Hanswer.
  { (* the anonymous pull succeeds *)
    pose proof (drainAndClose_state reader s1) as Hs. rewrite Hr in Hs.
    cbn in Hs. subst s'. exists [].
    split; [done|]. split; [by left|]. split.
    - split; [done|]. intros (? & ? & ? & _). discriminate.
    - repeat split; intros; discriminate. }
  destruct (isDockerUnauthorizedError err) eqn:Hauth.
  2: { (* another failure *)
    injection Hr as <- <-. exists [].
    split; [done|]. split; [by left|]. split.
    - split; [done|]. intros (e & ? & [= <-] & ? & _). congruence.
    - split; [intros e [= <-] _; reflexivity|].
      split; [intros e [= <-] _; eauto|].
      intros e enc e' [= <-] ?. congruence. }
  (* an authorization failure *)
  destruct (cliconfigLoad w) as [cfg | e1].
  2: { injection Hr as <- <-. exists [].
       split; [done|]. split; [by left|]. split.
       - split; [done|]. intros (? & ? & _ & _ & ?). discriminate.
       - split; [intros e [= <-]; congruence|].
         split; [intros e [= <-] _; eauto|].
         intros e enc e' _ _ ?. discriminate. }
  destruct (cfg (strutil.SafeSplit image "/" 0)) as [a | e2].
  2: { injection Hr as <- <-. exists [].
       split; [done|]. split; [by left|]. split.
       - split; [done|]. intros (? & ? & _ & _ & ?). discriminate.
       - split; [intros e [= <-]; congruence|].
         split; [intros e [= <-] _; eauto|].
         intros e enc e' _ _ ?. discriminate. }
  destruct (jsonMarshal w a) as [buf | e3].
  2: { injection Hr as <- <-. exists [].
       split; [done|]. split; [by left|]. split.
       - split; [done|]. intros (? & ? & _ & _ & ?). discriminate.
       - split; [intros e [= <-]; congruence|].
         split; [intros e [= <-] _; eauto|].
         intros e enc e' _ _ ?. discriminate. }
  (* the credentials are there: one credentialed pull *)
  set (enc := base64.URLEncoding_EncodeToString buf) in *.
  exists [CallImagePull image {| types.RegistryAuth := enc |}].
  unfold mbind, M_bind in Hr. cbn beta iota in Hr.
  set (s2 := {| containerName := containerName s1;
                calls := calls s1 ++ [CallImagePull image {| types.RegistryAuth := enc |}];
                messages := messages s1 |}) in Hr.
  assert (Hs2 : calls s2 = calls s ++ [first; CallImagePull image {| types.RegistryAuth := enc |}]).
  { subst s2 s1. cbn [calls]. by rewrite <- app_assoc. }
  destruct (engImagePull (engine w) (calls s1) image
              {| types.RegistryAuth := enc |}) as [reader | e4] eqn:Hretry.
  - pose proof (drainAndClose_state reader s2) as Hs. rewrite Hr in Hs.
    cbn in Hs. subst s'.
    split; [exact Hs2|]. split; [right; by exists enc|]. split.
    + split; [intros _; by exists err, enc | done].
    + split; [intros e [= <-]; congruence|].
      split; [intros e _ ?; discriminate|].
      intros e enc' e' _ _ [= <-] He'. subst s1. cbn [calls] in Hretry. congruence.
  - injection Hr as <- <-.
    split; [exact Hs2|]. split; [right; by exists enc|]. split.
    + split; [intros _; by exists err, enc | done].
    + split; [intros e [= <-]; congruence|].
      split; [intros e _ ?; discriminate|].
      intros e enc' e' _ _ [= <-] He'. subst s1. cbn [calls] in Hretry. congruence.
Qed.

(** Every call of [pullImage] is an image pull, and it does not panic. *)
Lemma pullImage_calls (image : string) (s : Proc) :
  ∃ new, calls (pullImage w image s).2 = calls s ++ new
         ∧ Forall (fun c => isInfoOrImagePull c = true) new
         ∧ ∀ t, (pullImage w image s).1 ≠ Panic t.
Proof.
  destruct (pullImage w image s) as [o s'] eqn:Hr. cbn [fst snd].
  assert (Hdrain : ∀ reader s0 new,
    drainAndClose reader s0 = (o, s') ->
    calls s0 = calls s ++ new ->
    Forall (fun c => isInfoOrImagePull c = true) new ->
    ∃ new, calls s' = calls s ++ new
           ∧ Forall (fun c => isInfoOrImagePull c = true) new
           ∧ ∀ t, o ≠ Panic t).
  { intros reader s0 new Hd Hc Hall. exists new.
    pose proof (drainAndClose_state reader s0) as Hs.
    pose proof (drainAndClose_no_panic reader s0) as Hp.
    rewrite Hd in Hs, Hp. cbn in Hs, Hp. subst s'. done. }
  assert (Hfatal : ∀ (t : string) s0 new,
    (Fatal t, s0) = (o, s') ->
    calls s0 = calls s ++ new ->
    Forall (fun c => isInfoOrImagePull c = true) new ->
    ∃ new, calls s' = calls s ++ new
           ∧ Forall (fun c => isInfoOrImagePull c = true) new
           ∧ ∀ t, o ≠ Panic t).
  { intros t s0 new [= <- <-] Hc Hall. exists new. done. }
  unfold pullImage, ImagePull, engineCall in Hr.
  unfold mbind at 1, M_bind at 1 in Hr. cbn beta iota in Hr.
  set (first := CallImagePull image anonymousPull) in Hr.
  assert (H1 : Forall (fun c => isInfoOrImagePull c = true) [first])
    by (repeat constructor).
  destruct (engImagePull (engine w) (calls s) image anonymousPull) as [reader | err].
  { by apply (Hdrain _ _ [first] Hr). }
  unfold logFatal in Hr.
  destruct (isDockerUnauthorizedError err); [|by apply (Hfatal _ _ [first] Hr)].
  destruct (cliconfigLoad w) as [cfg|]; [|by apply (Hfatal _ _ [first] Hr)].
  destruct (cfg _) as [a|]; [|by apply (Hfatal _ _ [first] Hr)].
  destruct (encodeAuthToBase64 w a) as [enc|]; [|by apply (Hfatal _ _ [first] Hr)].
  unfold mbind, M_bind in Hr. cbn beta iota in Hr. cbn [calls] in Hr.
  set (retry := CallImagePull image {| types.RegistryAuth := enc |}) in Hr.
  assert (H2 : Forall (fun c => isInfoOrImagePull c = true) [first; retry])
    by (repeat constructor).
  destruct (engImagePull _ _ _ _) as [reader | err'].
  - apply (Hdrain _ _ [first; retry] Hr); [|done]. cbn [calls]. by rewrite <- app_assoc.
  - apply (Hfatal _ _ [first; retry] Hr); [|done]. cbn [calls]. by rewrite <- app_assoc.
Qed.

End puller.

Section puller_examples.
Import Example.

Lemma pullImage_single_credentialed_retry_witness :
  (pullImage (world (engineRefusing "unauthorized") noEnv "") image initialProc).1
  = Fatal "can't pull image from the private registryunauthorized".
Proof.
  destruct (pullImage_single_credentialed_retry
              (world (engineRefusing "unauthorized") noEnv "") image initialProc)
    as (rest & _ & _ & _ & _ & _ & Hretry).
  apply (Hretry "unauthorized" "e3V9" "unauthorized"); reflexivity.
Defined.

(** C3 as stated fails: the anonymous pull is refused with an
    authorization error, but the credential configuration cannot be loaded;
    the process ends after that one call, without a retry. *)
Lemma pullImage_no_retry_without_credentials :
  let w := worldWithoutCredentials (engineRefusing "unauthorized: authentication required") in
  engImagePull (engine w) (calls initialProc) image anonymousPull
  = inr "unauthorized: authentication required"
  ∧ isDockerUnauthorizedError "unauthorized: authentication required" = true
  ∧ pullImage w image initialProc
    = (Fatal "invalid character in config.json",
       {| containerName := "qodana-cli";
          calls := [CallImagePull image anonymousPull];
          messages := [] |})
  ∧ length (filter (fun c => isImagePull c = true)
                   (calls (pullImage w image initialProc).2)) ≠ 2%nat.
Proof. repeat split; try reflexivity. vm_compute. discriminate. Qed.

End puller_examples.

(** ** C1 and C4: the run *)
Section run.

Variable GOOS : string.
Variable Version : string.
Variable names : qdenv.Names.
Variable dirs : qdcontainer.Dirs.
Variable GetIdeArgs : corescan.Context -> list string.
Variable envExtractedFromOsEnv : World -> corescan.Context -> list string.
Variable w : World.

Local Abbreviation builder :=
  (getDockerOptions GOOS names dirs GetIdeArgs envExtractedFromOsEnv w).
Local Abbreviation run :=
  (runQodanaContainer GOOS Version names dirs GetIdeArgs envExtractedFromOsEnv w).

(** [CheckImage] always returns, and only prints. *)
Lemma CheckImage_Done (linter : string) (s : Proc) :
  ∃ s', CheckImage Version linter s = (Done tt, s')
        ∧ calls s' = calls s ∧ containerName s' = containerName s.
Proof.
  unfold CheckImage. destruct (_ || _); [by exists s|].
  unfold mbind, M_bind, emit, mret, M_ret.
  destruct (isUnofficialLinter linter); cbn beta iota;
    destruct (negb (hasExactVersionTag linter));
    try destruct (negb (isCompatibleLinter linter)); eauto.
Qed.

(** C1, as amended.  For a scan context whose analyzer is a Docker
    analyzer, if the daemon information reports an OS type other than
    [linux], the run returns status 1 after that one query: it makes no
    image pull and no container create call, and it prints one error
    message. *)
Theorem unsupported_engine_returns_1
    (c : corescan.Context) (image : string) (info : types.Info) (s : Proc) :
  corescan.Analyser c = product.DockerAnalyzer image ->
  engInfo (engine w) (calls s) = inl info ->
  types.OSType info ≠ "linux" ->
  ∃ text,
    run c s = (Done 1, {| containerName := containerName s;
                          calls := calls s ++ [CallInfo];
                          messages := messages s ++ [ErrorMsg text] |}).
Proof.
  intros Ha Hinfo Hos. unfold runQodanaContainer. rewrite Ha.
  unfold engineCall, mbind at 1, M_bind at 1. rewrite Hinfo.
  apply String.eqb_neq in Hos. rewrite Hos. cbn [negb].
  eexists. reflexivity.
Qed.

(** With any other analyzer the process ends before the engine is asked. *)
Lemma not_a_DockerAnalyzer_is_fatal (c : corescan.Context) (name : string) (s : Proc) :
  corescan.Analyser c = product.NativeAnalyzer name ->
  run c s = (Fatal "Context is not a DockerAnalyzer", s).
Proof. intros Ha. unfold runQodanaContainer. rewrite Ha. reflexivity. Qed.

(** When a volume of the context does not parse, every engine call of the
    run is the daemon query or an image pull, and the run does not return
    the exit status of a container. *)
Lemma run_stops_in_builder (c : corescan.Context) (s : Proc) :
  Exists (fun v => parses GOOS v = false) (corescan.Volumes c) ->
  ∃ new, calls (run c s).2 = calls s ++ new
         ∧ Forall (fun call => isInfoOrImagePull call = true) new
         ∧ ((∃ t, (run c s).1 = Fatal t) ∨ (run c s).1 = Done 1).
Proof.
  intros Hbad. destruct (run c s) as [out s'] eqn:Hr. cbn [fst snd].
  unfold runQodanaContainer in Hr.
  destruct (corescan.Analyser c) as [image | name].
  2: { injection Hr as <- <-. exists []. rewrite app_nil_r.
       split; [done|]. split; [constructor|]. left. by eexists. }
  unfold engineCall, mbind at 1, M_bind at 1 in Hr. cbn beta iota in Hr.
  set (s1 := {| containerName := containerName s; calls := calls s ++ [CallInfo];
                messages := messages s |}) in Hr.
  destruct (engInfo (engine w) (calls s)) as [info | err].
  2: { injection Hr as <- <-. exists [CallInfo].
       split; [done|]. split; [repeat constructor|]. left. by eexists. }
  destruct (negb (types.OSType info =? "linux")%string).
  { injection Hr as <- <-. exists [CallInfo].
    split; [done|]. split; [repeat constructor|]. by right. }
  unfold fixDarwinCaches at 1 in Hr. erewrite bind_Done in Hr by reflexivity.
  destruct (CheckImage_Done image s1) as (s2 & Hcheck & Hc2 & _).
  rewrite (bind_Done _ _ _ _ _ Hcheck) in Hr.
  assert (Hpull : ∃ o s3 new,
    (if negb (corescan.SkipPull c) then PullImage w image else mret tt) s2 = (o, s3)
    ∧ calls s3 = calls s2 ++ new
    ∧ Forall (fun call => isInfoOrImagePull call = true) new
    ∧ ∀ t, o ≠ Panic t).
  { destruct (negb (corescan.SkipPull c)).
    - destruct (pullImage_calls w image s2) as (new & Hc & Hall & Hp).
      unfold PullImage. destruct (pullImage w image s2) as [o s3]. by exists o, s3, new.
    - exists (Done tt), s2, []. rewrite app_nil_r. repeat split; [constructor | done]. }
  destruct Hpull as (o & s3 & new & Hpull & Hc3 & Hnew & Hnp).
  exists (CallInfo :: new).
  assert (Hcalls : calls s3 = calls s ++ CallInfo :: new).
  { rewrite Hc3, Hc2. subst s1. cbn [calls]. by rewrite <- app_assoc. }
  destruct o as [[] | t | t].
  - rewrite (bind_Done _ _ _ _ _ Hpull) in Hr.
    destruct (getDockerOptions_Fatal GOOS names dirs GetIdeArgs envExtractedFromOsEnv
                w c image s3 Hbad) as (t & s4 & Hb & Hc4).
    rewrite (bind_Fatal _ _ _ _ _ Hb) in Hr. injection Hr as <- <-.
    split; [congruence|]. split; [by constructor|]. left. by eexists.
  - rewrite (bind_Fatal _ _ _ _ _ Hpull) in Hr. injection Hr as <- <-.
    split; [done|]. split; [by constructor|]. left. by eexists.
  - exfalso. by apply (Hnp t).
Qed.

(** On a POSIX host a volume string [source:target] parses into its two
    parts, when both are non-empty and free of [:]. *)
Lemma extractDockerVolumes_posix (source target : string) :
  String.eqb GOOS "windows" = false ->
  source ≠ EmptyString -> target ≠ EmptyString ->
  strings.Contains source ":" = false ->
  strings.Contains target ":" = false ->
  extractDockerVolumes GOOS (source +:+ ":" +:+ target) = (source, target).
Proof.
  intros Hos Hs Ht Hcs Hct. unfold extractDockerVolumes, strutil.SafeSplit.
  rewrite Hos, (Split_source_target _ _ Hcs Hct).
  change (default EmptyString ([source; target] !! 0%nat)) with source.
  change (default EmptyString ([source; target] !! 1%nat)) with target.
  rewrite (eqb_empty_false _ Hs), (eqb_empty_false _ Ht). reflexivity.
Qed.

(** C4, as amended.  On a POSIX host: a volume string [source:target]
    whose parts are non-empty and free of [:] parses, and its bind mount
    has that source and that target; the mounts of a specification the
    builder returns are its four or five fixed mounts followed by the bind
    mounts of the volume strings of the context, one for each, in order;
    and when some volume string does not parse into two non-empty parts
    the builder ends the process without an engine call, so that the run
    makes no container create or start call: all it has asked of the engine
    by then is the daemon information and, unless skipped, the image pull. *)
Theorem user_volumes_mounted_or_fatal :
  String.eqb GOOS "windows" = false ->
  (∀ source target,
      source ≠ EmptyString -> target ≠ EmptyString ->
      strings.Contains source ":" = false -> strings.Contains target ":" = false ->
      parses GOOS (source +:+ ":" +:+ target) = true
      ∧ userMount GOOS (source +:+ ":" +:+ target) = bindMount source target)
  ∧ (∀ c image s s' cfg,
      builder c image s = (Done cfg, s') ->
      ∃ fixed,
        container.Mounts (backend.HostConfig cfg)
        = fixed ++ map (userMount GOOS) (corescan.Volumes c)
        ∧ (length fixed = 4 ∨ length fixed = 5)%nat)
  ∧ (∀ c image s,
      Exists (fun v => parses GOOS v = false) (corescan.Volumes c) ->
      (∃ t s', builder c image s = (Fatal t, s') ∧ calls s' = calls s)
      ∧ ∃ new, calls (run c s).2 = calls s ++ new
               ∧ Forall (fun call => isCreateOrStart call = false) new
               ∧ Forall (fun call => isInfoOrImagePull call = true) new
               ∧ ((∃ t, (run c s).1 = Fatal t) ∨ (run c s).1 = Done 1)).
Proof.
  intros Hos. split; [|split].
  - intros source target Hs Ht Hcs Hct. unfold parses, userMount.
    rewrite (extractDockerVolumes_posix _ _ Hos Hs Ht Hcs Hct). cbn [fst snd].
    rewrite (eqb_empty_false _ Hs), (eqb_empty_false _ Ht). done.
  - intros c image s s' cfg H.
    by apply getDockerOptions_Done in H as (_ & _ & _ & _ & Hm & _).
  - intros c image s Hbad. split; [by apply getDockerOptions_Fatal|].
    destruct (run_stops_in_builder c s Hbad) as (new & Hc & Hall & Hout).
    exists new. split; [done|]. split; [|done].
    eapply Forall_impl; [exact Hall|]. by intros [].
Qed.

End run.

Section run_examples.
Import Example.

Lemma unsupported_engine_returns_1_witness :
  ∃ text,
    runQodanaContainer "linux" "2025.1.1" names dirs GetIdeArgs envExtractedFromOsEnv
      (world (engineOn "windows") noEnv "https://qodana.cloud")
      (context (product.DockerAnalyzer image) [] [] "tok" 0) initialProc
    = (Done 1, {| containerName := "qodana-cli";
                  calls := [] ++ [CallInfo];
                  messages := [] ++ [ErrorMsg text] |}).
Proof.
  apply (unsupported_engine_returns_1
           "linux" "2025.1.1" names dirs GetIdeArgs envExtractedFromOsEnv
           (world (engineOn "windows") noEnv "https://qodana.cloud")
           (context (product.DockerAnalyzer image) [] [] "tok" 0)
           image {| types.OSType := "windows" |} initialProc).
  - reflexivity.
  - reflexivity.
  - discriminate.
Defined.

(** C1 as stated fails: for a context whose analyzer is not a Docker
    analyzer the engine reports [windows], yet the run does not return 1:
    the process is ended by [log.Fatalf]. *)
Lemma unsupported_engine_native_analyzer :
  let w := world (engineOn "windows") noEnv "https://qodana.cloud" in
  let c := context (product.NativeAnalyzer "QDJVM") [] [] "tok" 0 in
  engInfo (engine w) (calls initialProc) = inl {| types.OSType := "windows" |}
  ∧ "windows" ≠ "linux"
  ∧ runQodanaContainer "linux" "2025.1.1" names dirs GetIdeArgs envExtractedFromOsEnv
      w c initialProc
    = (Fatal "Context is not a DockerAnalyzer", initialProc)
  ∧ ¬ ∃ s', runQodanaContainer "linux" "2025.1.1" names dirs GetIdeArgs
              envExtractedFromOsEnv w c initialProc
            = (Done 1, s').
Proof.
  intros w c. split; [reflexivity|]. split; [discriminate|].
  split; [reflexivity|]. intros [s' H]. discriminate.
Qed.

Lemma user_volumes_mounted_or_fatal_witness :
  parses "linux" "/src:/dst" = true
  ∧ userMount "linux" "/src:/dst" = bindMount "/src" "/dst".
Proof.
  refine (proj1 (user_volumes_mounted_or_fatal
                   "linux" "2025.1.1" names dirs GetIdeArgs envExtractedFromOsEnv
                   (world (engineOn "linux") noEnv "https://qodana.cloud")
                   eq_refl) "/src" "/dst" _ _ eq_refl eq_refl); discriminate.
Defined.

(** C4 as stated fails: a volume string without a colon ends the process
    in the builder, but by then the run has asked the engine for the daemon
    information and has pulled the image. *)
Lemma malformed_volume_after_engine_calls :
  let w := world (engineOn "linux") noEnv "https://qodana.cloud" in
  let c := context (product.DockerAnalyzer image) [] ["nocolon"] "tok" 0 in
  parses "linux" "nocolon" = false
  ∧ runQodanaContainer "linux" "2025.1.1" names dirs GetIdeArgs envExtractedFromOsEnv
      w c initialProc
    = (Fatal "couldn't parse volume nocolon",
       {| containerName := "qodana-cli-e7090287-9c09f805";
          calls := [CallInfo; CallImagePull image anonymousPull];
          messages := [] |})
  ∧ calls (runQodanaContainer "linux" "2025.1.1" names dirs GetIdeArgs
             envExtractedFromOsEnv w c initialProc).2 ≠ [].
Proof.
  intros w c. split; [reflexivity|].
  assert (H : runQodanaContainer "linux" "2025.1.1" names dirs GetIdeArgs
                envExtractedFromOsEnv w c initialProc
              = (Fatal "couldn't parse volume nocolon",
                 {| containerName := "qodana-cli-e7090287-9c09f805";
                    calls := [CallInfo; CallImagePull image anonymousPull];
                    messages := [] |})) by (vm_compute; reflexivity).
  split; [exact H|]. rewrite H. discriminate.
Qed.

End run_examples.

(** ** Paths: cleaning, joining, relating *)
Section path_facts.

Lemma Split_slash_cons (c : ascii) (s : string) :
  elemsOf (String c s)
  = if Ascii.eqb c "/" then EmptyString :: elemsOf s
    else match elemsOf s with
         | h :: t => String c h :: t
         | [] => [String c EmptyString]
         end.
Proof.
  unfold strings.Split, filepath.sepString, filepath.Separator.
  cbn [strings.genSplit]. rewrite sprefix_byte. reflexivity.
Qed.

Lemma Split_nonempty (s : string) : elemsOf s ≠ [].
Proof.
  destruct s as [|c s]; [discriminate|]. rewrite Split_slash_cons.
  destruct (Ascii.eqb c "/"); [discriminate|]. destruct (elemsOf s); discriminate.
Qed.

Lemma slashFree_cons (c : ascii) (s : string) :
  slashFree (String c s) ↔ Ascii.eqb c "/" = false ∧ slashFree s.
Proof.
  unfold slashFree. cbn [strings.Contains]. rewrite sprefix_byte.
  rewrite orb_false_iff. done.
Qed.

Lemma Split_slashFree (s : string) : Forall slashFree (elemsOf s).
Proof.
  induction s as [|c s IH]; [constructor; [exact eq_refl | constructor]|].
  rewrite Split_slash_cons. destruct (Ascii.eqb c "/") eqn:Hc.
  - constructor; [exact eq_refl | exact IH].
  - destruct (elemsOf s) as [|h t] eqn:Hs; [by apply Split_nonempty in Hs|].
    apply Forall_cons in IH as [Hh Ht]. constructor; [|exact Ht].
    by apply slashFree_cons.
Qed.

Lemma Split_free (s : string) : slashFree s -> elemsOf s = [s].
Proof. apply (genSplit_free "/"). Qed.

Lemma Split_app (a b : string) : elemsOf (a +:+ "/" +:+ b) = elemsOf a ++ elemsOf b.
Proof.
  induction a as [|c a IH].
  - change (EmptyString +:+ "/" +:+ b) with (String "/" b).
    rewrite Split_slash_cons. reflexivity.
  - rewrite app_cons, !Split_slash_cons, IH.
    destruct (Ascii.eqb c "/"); [reflexivity|].
    destruct (elemsOf a) as [|h t] eqn:Ha; [by apply Split_nonempty in Ha|]. reflexivity.
Qed.

Lemma Join_cons2 (e e' : string) (l : list string) :
  strings.Join (e :: e' :: l) "/" = e +:+ "/" +:+ strings.Join (e' :: l) "/".
Proof. reflexivity. Qed.

Lemma Split_Join (l : list string) :
  l ≠ [] -> Forall slashFree l -> elemsOf (strings.Join l "/") = l.
Proof.
  induction l as [|e l IH]; [done|]. intros _ Hall.
  apply Forall_cons in Hall as [He Hl]. destruct l as [|e' l].
  - by apply Split_free.
  - rewrite Join_cons2, Split_app, (Split_free _ He), IH; done.
Qed.

Lemma Clean_render (p : string) :
  p ≠ EmptyString ->
  filepath.Clean p
  = render (filepath.IsAbs p) (norm (filepath.IsAbs p) (elemsOf p)).1
           (rev (norm (filepath.IsAbs p) (elemsOf p)).2).
Proof.
  intros Hp. unfold filepath.Clean, render, norm.
  rewrite (eqb_empty_false _ Hp).
  destruct (foldl _ _ _) as [u o]. reflexivity.
Qed.

Lemma cleanStep_cases (rooted : bool) (u : nat) (o : list string) (e : string) :
  slashFree e ->
  (e = EmptyString ∨ e = ".") ∧ filepath.cleanStep rooted (u, o) e = (u, o)
                                ∧ platform.follow = platform.follow
  ∨ e = ".." ∧ filepath.cleanStep rooted (u, o) e
               = match o with
                 | _ :: o' => (u, o')
                 | [] => if rooted then (u, o) else (S u, [])
                 end
  ∨ isName e ∧ filepath.cleanStep rooted (u, o) e = (u, e :: o).
Proof.
  intros He. unfold filepath.cleanStep, isName.
  destruct (String.eqb_spec e EmptyString) as [->|H1]; [left; split; [by left | done]|].
  destruct (String.eqb_spec e ".") as [->|H2]; [left; split; [by right | done]|].
  destruct (String.eqb_spec e "..") as [->|H3]; [right; left; done|].
  right; right. split; [|done]. split; [done|].
  by rewrite <- !String.eqb_neq in *.
Qed.

Lemma follow_cases (dir : list string) (e : string) :
  ((e = EmptyString ∨ e = ".") -> platform.follow dir e = dir)
  ∧ (e = ".." -> platform.follow dir e = removelast dir)
  ∧ (isName e -> platform.follow dir e = dir ++ [e]).
Proof.
  unfold platform.follow, isName. split; [|split].
  - intros [-> | ->]; reflexivity.
  - intros ->. reflexivity.
  - intros (_ & -> & -> & ->). reflexivity.
Qed.

Lemma iter_removelast_nil (u : nat) : ascend u [] = [].
Proof. induction u as [|u IH]; [done|]. cbn. by rewrite IH. Qed.

Lemma removelast_snoc (l : list string) (x : string) : removelast (l ++ [x]) = l.
Proof. apply removelast_last. Qed.

(** Following the elements of a path is following its cleaned form. *)
Lemma follow_norm (rooted : bool) (start : list string) (elems : list string) :
  (rooted = true -> start = []) ->
  Forall slashFree elems ->
  ∀ u o,
    foldl platform.follow (ascend u start ++ rev o) elems
    = ascend (foldl (filepath.cleanStep rooted) (u, o) elems).1 start
      ++ rev (foldl (filepath.cleanStep rooted) (u, o) elems).2.
Proof.
  intros Hr Hall. induction Hall as [|e elems He Hall IH]; intros u o; [done|].
  cbn [foldl].
  destruct (cleanStep_cases rooted u o e He)
    as [(Hd & -> & _) | [(-> & ->) | (Hn & ->)]].
  - rewrite (proj1 (follow_cases _ e) Hd). apply IH.
  - rewrite (proj1 (proj2 (follow_cases _ "..")) eq_refl).
    destruct o as [|x o].
    + cbn [rev]. rewrite app_nil_r. destruct rooted.
      * specialize (IH u []). rewrite (Hr eq_refl) in *.
        rewrite !iter_removelast_nil in *. exact IH.
      * change (removelast (ascend u start))
          with (ascend (S u) start).
        rewrite <- (app_nil_r (ascend (S u) start)). apply (IH (S u) []).
    + cbn [rev]. rewrite app_assoc, removelast_snoc. apply IH.
  - rewrite (proj2 (proj2 (follow_cases _ e)) Hn).
    rewrite <- app_assoc. apply (IH u (e :: o)).
Qed.

(** Where a path leads, by its cleaned form. *)
Lemma resolve_norm (cwd : list string) (p : string) :
  let r := filepath.IsAbs p in
  platform.resolve cwd p
  = ascend (norm r (elemsOf p)).1 (if r then [] else cwd) ++ rev (norm r (elemsOf p)).2.
Proof.
  intros r. unfold platform.resolve, norm. fold r.
  rewrite <- (app_nil_r (if r then [] else cwd)) at 1.
  apply (follow_norm r (if r then [] else cwd) (elemsOf p) ltac:(by intros ->)
           (Split_slashFree p) O []).
Qed.

Lemma isName_dotdot : ¬ isName "..".
Proof. intros (_ & _ & _ & H). discriminate. Qed.

Lemma isName_dot : ¬ isName ".".
Proof. intros (_ & _ & H & _). discriminate. Qed.

Lemma isName_empty : ¬ isName EmptyString.
Proof. intros (_ & H & _). discriminate. Qed.

Lemma isName_slashFree (e : string) : isName e -> slashFree e.
Proof. by intros [H _]. Qed.

Lemma slashFree_dotdot : slashFree "..".
Proof. reflexivity. Qed.

(** The state of the element loop of [Clean] holds names only, and no [..]
    is kept when the path is rooted. *)
Lemma norm_inv (rooted : bool) (elems : list string) :
  Forall slashFree elems ->
  ∀ u o, Forall isName o -> (rooted = true -> u = O) ->
    Forall isName (foldl (filepath.cleanStep rooted) (u, o) elems).2
    ∧ (rooted = true -> (foldl (filepath.cleanStep rooted) (u, o) elems).1 = O).
Proof.
  intros Hall. induction Hall as [|e elems He Hall IH]; intros u o Ho Hu; [done|].
  cbn [foldl].
  destruct (cleanStep_cases rooted u o e He)
    as [(Hd & -> & _) | [(-> & ->) | (Hn & ->)]].
  - by apply IH.
  - destruct o as [|x o].
    + destruct rooted; [by apply IH|]. apply IH; [constructor | done].
    + apply Forall_cons in Ho as [_ Ho]. by apply IH.
  - apply IH; [by constructor | done].
Qed.

Lemma Clean_cleaned (p : string) :
  cleaned (filepath.Clean p) (filepath.IsAbs p)
          (norm (filepath.IsAbs p) (elemsOf p)).1 (rev (norm (filepath.IsAbs p) (elemsOf p)).2).
Proof.
  destruct (norm_inv (filepath.IsAbs p) (elemsOf p) (Split_slashFree p) O [])
    as [Hn Hu]; [constructor | done |].
  split; [|split; [by apply Forall_rev | exact Hu]].
  destruct (String.eqb_spec p EmptyString) as [->|Hp]; [reflexivity|].
  by apply Clean_render.
Qed.

Lemma Join_head (e : string) (l : list string) :
  ∃ rest, strings.Join (e :: l) "/" = e +:+ rest.
Proof.
  destruct l as [|e' l]; [exists EmptyString; by rewrite app_empty_r|].
  eexists. apply Join_cons2.
Qed.

Lemma elems_slashFree (u : nat) (names : list string) :
  Forall isName names -> Forall slashFree (replicate u ".." ++ names).
Proof.
  intros Hn. apply Forall_app. split.
  - apply Forall_replicate. exact slashFree_dotdot.
  - eapply Forall_impl; [exact Hn | apply isName_slashFree].
Qed.

(** The body of a cleaned path that is not empty starts with the first
    byte of its first element, which is not a separator. *)
Lemma body_first (u : nat) (names : list string) :
  Forall isName names -> replicate u ".." ++ names ≠ [] ->
  ∃ c rest, strings.Join (replicate u ".." ++ names) "/" = String c rest
            ∧ Ascii.eqb c "/" = false.
Proof.
  intros Hn Hne. destruct (replicate u ".." ++ names) as [|e l] eqn:Hl; [done|].
  assert (He : slashFree e ∧ e ≠ EmptyString).
  { destruct u as [|u].
    - cbn in Hl. subst names. apply Forall_cons in Hn as [(Hs & He & _) _].
      split; [done|]. by apply String.eqb_neq.
    - cbn in Hl. injection Hl as <- _. split; [exact slashFree_dotdot | done]. }
  destruct He as [Hs He]. destruct (Join_head e l) as [rest ->].
  destruct e as [|c e]; [done|]. apply slashFree_cons in Hs as [Hc _].
  rewrite app_cons. eauto.
Qed.

Lemma cleaned_elems (s : string) (r : bool) (u : nat) (names : list string) :
  cleaned s r u names ->
  elemsOf s = if r then EmptyString :: (match names with [] => [EmptyString] | _ => names end)
        else match replicate u ".." ++ names with
             | [] => ["."]
             | l => l
             end.
Proof.
  intros (-> & Hn & Hu). unfold render. destruct r.
  - rewrite (Hu eq_refl). cbn [replicate app].
    change ("/" +:+ ?b) with (String "/" b).
    rewrite Split_slash_cons. cbn [Ascii.eqb]. f_equal.
    destruct names as [|e l]; [reflexivity|].
    apply Split_Join; [done|]. by apply (elems_slashFree 0).
  - destruct (replicate u ".." ++ names) as [|e l] eqn:Hl; [reflexivity|].
    assert (Hne : replicate u ".." ++ names ≠ []) by (rewrite Hl; done).
    destruct (body_first u names Hn Hne) as (c & rest & Hb & _).
    rewrite Hl in Hb. rewrite Hb. cbn [String.eqb]. rewrite <- Hb.
    apply Split_Join; [done|]. rewrite <- Hl. by apply elems_slashFree.
Qed.

Lemma cleaned_IsAbs (s : string) (r : bool) (u : nat) (names : list string) :
  cleaned s r u names -> filepath.IsAbs s = r.
Proof.
  intros (-> & Hn & Hu). unfold render, filepath.IsAbs, strings.HasPrefix. destruct r.
  - apply sprefix_app.
  - destruct (replicate u ".." ++ names) as [|e l] eqn:Hl; [reflexivity|].
    assert (Hne : replicate u ".." ++ names ≠ []) by (rewrite Hl; done).
    destruct (body_first u names Hn Hne) as (c & rest & Hb & Hc).
    rewrite Hl in Hb. rewrite Hb. cbn [String.eqb].
    unfold filepath.sepString, filepath.Separator. by rewrite sprefix_byte.
Qed.

Lemma foldl_cleanStep_names (r : bool) (names : list string) :
  Forall isName names ->
  ∀ u o, foldl (filepath.cleanStep r) (u, o) names = (u, rev names ++ o).
Proof.
  intros Hn. induction Hn as [|e names He Hn IH]; intros u o; [done|].
  cbn [foldl rev].
  destruct (cleanStep_cases r u o e (isName_slashFree _ He))
    as [([-> | ->] & _) | [(-> & _) | (_ & ->)]].
  - by destruct isName_empty.
  - by destruct isName_dot.
  - by destruct isName_dotdot.
  - rewrite IH, <- app_assoc. reflexivity.
Qed.

Lemma foldl_cleanStep_ups (u k : nat) :
  foldl (filepath.cleanStep false) (k, []) (replicate u "..") = ((k + u)%nat, []).
Proof.
  revert k. induction u as [|u IH]; intros k; [cbn; f_equal; lia|].
  cbn [replicate foldl]. change (filepath.cleanStep false (k, []) "..") with (S k, @nil string).
  rewrite IH. f_equal. lia.
Qed.

Lemma cleaned_norm (s : string) (r : bool) (u : nat) (names : list string) :
  cleaned s r u names -> norm r (elemsOf s) = (u, rev names).
Proof.
  intros Hc. rewrite (cleaned_elems _ _ _ _ Hc). destruct Hc as (_ & Hn & Hu).
  unfold norm. destruct r.
  - rewrite (Hu eq_refl). destruct names as [|e l] eqn:Hnames; [reflexivity|].
    rewrite <- Hnames in *. cbn [foldl].
    change (filepath.cleanStep true (O, []) EmptyString) with (O, @nil string).
    rewrite (foldl_cleanStep_names _ _ Hn). by rewrite app_nil_r.
  - destruct (replicate u ".." ++ names) as [|e l] eqn:Hl.
    + apply app_eq_nil in Hl as [Hu0 ->]. destruct u; [reflexivity | discriminate].
    + rewrite <- Hl, foldl_app, (foldl_cleanStep_ups u 0).
      rewrite (foldl_cleanStep_names _ _ Hn). by rewrite app_nil_r.
Qed.

Lemma cleaned_resolve (cwd : list string) (s : string) (r : bool) (u : nat)
      (names : list string) :
  cleaned s r u names ->
  platform.resolve cwd s = ascend u (if r then [] else cwd) ++ names.
Proof.
  intros Hc. rewrite resolve_norm, (cleaned_IsAbs _ _ _ _ Hc), (cleaned_norm _ _ _ _ Hc).
  cbn [fst snd]. by rewrite rev_involutive.
Qed.

Lemma cleaned_inj (s : string) (r r' : bool) (u u' : nat) (names names' : list string) :
  cleaned s r u names -> cleaned s r' u' names' -> r = r' ∧ u = u' ∧ names = names'.
Proof.
  intros H H'. pose proof (cleaned_IsAbs _ _ _ _ H) as Hr.
  rewrite (cleaned_IsAbs _ _ _ _ H') in Hr. subst r'.
  pose proof (cleaned_norm _ _ _ _ H) as Hn. rewrite (cleaned_norm _ _ _ _ H') in Hn.
  injection Hn as -> Hrev. split; [done|]. split; [done|].
  by rewrite <- (rev_involutive names), <- Hrev, rev_involutive.
Qed.

Lemma cleaned_nonempty (s : string) (r : bool) (u : nat) (names : list string) :
  cleaned s r u names -> s ≠ EmptyString.
Proof.
  intros (-> & Hn & Hu). unfold render. destruct r; [done|].
  destruct (String.eqb_spec (strings.Join (replicate u ".." ++ names) "/")
              EmptyString); done.
Qed.

(** Cleaning a cleaned path changes nothing. *)
Lemma cleaned_Clean (s : string) (r : bool) (u : nat) (names : list string) :
  cleaned s r u names -> filepath.Clean s = s.
Proof.
  intros Hc. rewrite (Clean_render _ (cleaned_nonempty _ _ _ _ Hc)).
  rewrite (cleaned_IsAbs _ _ _ _ Hc), (cleaned_norm _ _ _ _ Hc). cbn [fst snd].
  rewrite rev_involutive. symmetry. by destruct Hc.
Qed.

Lemma IsAbs_app (a b : string) :
  a ≠ EmptyString -> filepath.IsAbs (a +:+ b) = filepath.IsAbs a.
Proof.
  intros Ha. destruct a as [|c a]; [done|]. rewrite app_cons.
  unfold filepath.IsAbs, strings.HasPrefix, filepath.sepString, filepath.Separator.
  by rewrite !sprefix_byte.
Qed.

Lemma sprefix_exists (p s : string) :
  String.prefix p s = true -> ∃ rest, s = p +:+ rest.
Proof.
  revert s. induction p as [|a p IH]; intros s H; [by exists s|].
  destruct s as [|c s]; [discriminate|].
  apply sprefix_cons in H as [-> H]. destruct (IH _ H) as [rest ->].
  exists rest. by rewrite app_cons.
Qed.

Lemma string_app_assoc (a b c : string) : (a +:+ b) +:+ c = a +:+ b +:+ c.
Proof. induction a as [|x a IH]; [done|]. rewrite !app_cons. by f_equal. Qed.

(** The joined path of a destination and a name, cleaned: the element loop
    goes on from the state the destination leaves. *)
Lemma Join_cleaned (dest name : string) :
  dest ≠ EmptyString ->
  let r := filepath.IsAbs dest in
  let st := foldl (filepath.cleanStep r) (norm r (elemsOf dest)) (elemsOf name) in
  cleaned (filepath.Join [dest; name]) r st.1 (rev st.2).
Proof.
  intros Hd r st. cbn [filepath.Join]. rewrite (eqb_empty_false _ Hd).
  change (strings.Join [dest; name] filepath.sepString) with (dest +:+ "/" +:+ name).
  pose proof (Clean_cleaned (dest +:+ "/" +:+ name)) as Hc.
  rewrite (IsAbs_app _ _ Hd), Split_app in Hc. fold r in Hc.
  unfold norm in Hc. rewrite foldl_app in Hc. exact Hc.
Qed.

Lemma isPrefixOf_app (l t : list string) : platform.isPrefixOf l (l ++ t) = true.
Proof.
  induction l as [|x l IH]; [done|]. cbn. by rewrite String.eqb_refl, IH.
Qed.

(** What [relSkip] leaves: the rests of both lists after a common start. *)
Lemma relSkip_spec (base targ : list string) :
  ∃ common,
    base = common ++ (filepath.relSkip base targ).1
    ∧ targ = common ++ (filepath.relSkip base targ).2.
Proof.
  revert targ. induction base as [|b base IH]; intros targ; [by exists []|].
  destruct targ as [|t targ]; [by exists []|]. cbn [filepath.relSkip].
  destruct (String.eqb_spec t b) as [->|Hne]; [|by exists []].
  destruct (IH targ) as (common & H1 & H2). exists (b :: common).
  cbn. by rewrite <- H1, <- H2.
Qed.

Lemma HasPrefix_Join_dotdot (l : list string) :
  strings.HasPrefix (strings.Join (".." :: l) "/") ".." = true.
Proof.
  destruct (Join_head ".." l) as [rest ->]. apply sprefix_app.
Qed.

(** Two lists that agree after their leading [..] elements have as many. *)
Lemma dotdots_unique (a b : nat) (xs ys : list string) :
  replicate a ".." ++ xs = replicate b ".." ++ ys ->
  head xs ≠ Some ".." -> head ys ≠ Some ".." -> a = b ∧ xs = ys.
Proof.
  revert b. induction a as [|a IH]; intros [|b] H Hx Hy; cbn in H.
  - done.
  - subst xs. by destruct Hx.
  - subst ys. by destruct Hy.
  - injection H as H. destruct (IH b H Hx Hy) as [-> ->]. done.
Qed.

Lemma head_names (names : list string) :
  Forall isName names -> head names ≠ Some "..".
Proof.
  intros Hn. destruct names as [|e l]; [done|]. cbn. intros [= ->].
  apply Forall_cons in Hn as [He _]. by apply isName_dotdot.
Qed.

Lemma cleaned_dot : cleaned "." false 0 [].
Proof. split; [reflexivity|]. split; [constructor | done]. Qed.

(** The element lists that [Rel] walks, for cleaned paths. *)
Lemma relElems_base (s : string) (r : bool) (u : nat) (names : list string) :
  cleaned s r u names ->
  filepath.relElems (if String.eqb s "." then EmptyString else s)
  = (if r then [EmptyString] else []) ++ replicate u ".." ++ names.
Proof.
  intros Hc. destruct (String.eqb_spec s ".") as [->|Hdot].
  - destruct (cleaned_inj _ _ _ _ _ _ _ Hc cleaned_dot) as (-> & -> & ->). reflexivity.
  - unfold filepath.relElems. rewrite (eqb_empty_false _ (cleaned_nonempty _ _ _ _ Hc)).
    change (strings.Split s filepath.sepString) with (elemsOf s).
    rewrite (cleaned_elems _ _ _ _ Hc). destruct Hc as (Hs & Hn & Hu). destruct r.
    + rewrite (Hu eq_refl) in *. destruct names as [|e l].
      * subst s. reflexivity.
      * destruct (String.eqb_spec s filepath.sepString) as [Hs'|_]; [|reflexivity].
        exfalso. rewrite Hs' in Hs. unfold render in Hs. cbn [replicate app] in Hs.
        destruct (Join_head e l) as [rest Hj]. rewrite Hj in Hs.
        apply Forall_cons in Hn as [(_ & He & _) _].
        destruct e as [|c e]; [discriminate|]. discriminate.
    + destruct (String.eqb_spec s filepath.sepString) as [Hs'|_].
      * exfalso. pose proof (cleaned_IsAbs s false u names (conj Hs (conj Hn Hu))) as Ha.
        rewrite Hs' in Ha. discriminate.
      * destruct (replicate u ".." ++ names) as [|e l] eqn:Hl; [|reflexivity].
        exfalso. apply Hdot. rewrite Hs. unfold render. by rewrite Hl.
Qed.

Lemma relElems_targ (s : string) (r : bool) (u : nat) (names : list string) :
  cleaned s r u names ->
  filepath.relElems s
  = if r then EmptyString :: names
    else match replicate u ".." ++ names with [] => ["."] | l => l end.
Proof.
  intros Hc. unfold filepath.relElems.
  rewrite (eqb_empty_false _ (cleaned_nonempty _ _ _ _ Hc)).
  change (strings.Split s filepath.sepString) with (elemsOf s).
  rewrite (cleaned_elems _ _ _ _ Hc). destruct Hc as (Hs & Hn & Hu). destruct r.
  - rewrite (Hu eq_refl) in *. destruct names as [|e l].
    + subst s. reflexivity.
    + destruct (String.eqb_spec s filepath.sepString) as [Hs'|_]; [|reflexivity].
      exfalso. rewrite Hs' in Hs. unfold render in Hs. cbn [replicate app] in Hs.
      destruct (Join_head e l) as [rest Hj]. rewrite Hj in Hs.
      apply Forall_cons in Hn as [(_ & He & _) _].
      destruct e as [|c e]; [discriminate|]. discriminate.
  - destruct (String.eqb_spec s filepath.sepString) as [Hs'|_]; [|reflexivity].
    exfalso. pose proof (cleaned_IsAbs s false u names (conj Hs (conj Hn Hu))) as Ha.
    rewrite Hs' in Ha. discriminate.
Qed.

(** When [isInDirectory] accepts a target, the cleaned target is the
    cleaned destination followed by more names. *)
Lemma isInDirectory_cleaned (dest target : string)
      (r r' : bool) (u u' : nat) (names names' : list string) :
  cleaned (filepath.Clean dest) r u names ->
  cleaned (filepath.Clean target) r' u' names' ->
  platform.isInDirectory dest target = true ->
  r' = r ∧ u' = u ∧ ∃ more, names' = names ++ more.
Proof.
  intros HB HT. unfold platform.isInDirectory, filepath.Rel.
  destruct (String.eqb_spec (filepath.Clean target) (filepath.Clean dest)) as [Heq|Hne].
  { intros _. rewrite Heq in HT.
    destruct (cleaned_inj _ _ _ _ _ _ _ HT HB) as (-> & -> & ->).
    split; [done|]. split; [done|]. exists []. by rewrite app_nil_r. }
  assert (Habs : filepath.IsAbs (if String.eqb (filepath.Clean dest) "." then EmptyString
                                 else filepath.Clean dest) = r).
  { destruct (String.eqb_spec (filepath.Clean dest) ".") as [Hd|_].
    - rewrite Hd in HB.
      by destruct (cleaned_inj _ _ _ _ _ _ _ HB cleaned_dot) as (-> & _).
    - by apply (cleaned_IsAbs _ _ _ _ HB). }
  rewrite Habs, (cleaned_IsAbs _ _ _ _ HT).
  destruct (Bool.eqb_spec r r') as [<-|Hr]; [|discriminate]. cbn [negb].
  rewrite (relElems_base _ _ _ _ HB), (relElems_targ _ _ _ _ HT).
  set (be := (if r then [EmptyString] else []) ++ replicate u ".." ++ names).
  set (te := if r then EmptyString :: names'
             else match replicate u' ".." ++ names' with [] => ["."] | l => l end).
  destruct (relSkip_spec be te) as (common & Hbe & Hte).
  destruct (filepath.relSkip be te) as [b t]. cbn [fst snd] in Hbe, Hte.
  destruct b as [|b0 b].
  2: { (* base elements left: the relative path goes up *)
       destruct (String.eqb _ ".."); [discriminate|].
       cbn [length replicate app]. rewrite HasPrefix_Join_dotdot. discriminate. }
  rewrite app_nil_r in Hbe. subst common.
  change (String.eqb EmptyString "..") with false. cbn beta iota.
  intros Hacc. apply negb_true_iff in Hacc.
  assert (Ht : head t ≠ Some "..").
  { destruct t as [|t0 t]; [done|]. cbn. intros [= ->].
    by rewrite HasPrefix_Join_dotdot in Hacc. }
  destruct HB as (HBs & Hn & Hu). destruct HT as (HTs & Hn' & Hu').
  split; [done|]. subst be te. destruct r.
  - rewrite (Hu eq_refl), (Hu' eq_refl) in *. cbn in Hte.
    injection Hte as ->. split; [done|]. by exists t.
  - cbn [app] in Hte.
    assert (Hhead : ∀ e l, replicate u ".." ++ names = e :: l -> e ≠ ".").
    { intros e l He ->. destruct u as [|u]; [|discriminate].
      cbn in He. subst names. apply Forall_cons in Hn as [Hd _]. by apply isName_dot. }
    destruct (replicate u' ".." ++ names') as [|e l] eqn:Hl.
    + (* the target is [.] *)
      exfalso. destruct (replicate u ".." ++ names) as [|e' l'] eqn:Hl'.
      * apply Hne. rewrite HTs, HBs. unfold render. by rewrite Hl, Hl'.
      * injection Hte as He' _. by apply (Hhead e' l').
    + rewrite <- Hl, <- app_assoc in Hte.
      apply dotdots_unique in Hte as [-> ->].
      * split; [done|]. by exists t.
      * by apply head_names.
      * destruct names as [|n names]; [exact Ht | by apply (head_names (n :: names))].
Qed.

Lemma isPrefixOf_refl (l : list string) : platform.isPrefixOf l l = true.
Proof. rewrite <- (app_nil_r l) at 2. apply isPrefixOf_app. Qed.

(** The tar path: a target that [isInDirectory] accepts leads into the
    destination, whatever the working directory. *)
Theorem isInDirectory_inside (cwd : list string) (destPath name : string) :
  platform.isInDirectory destPath (filepath.Join [destPath; name]) = true ->
  platform.outside cwd destPath (filepath.Join [destPath; name]) = false.
Proof.
  intros Hacc. unfold platform.outside. apply negb_false_iff.
  pose proof (Clean_cleaned destPath) as HB.
  assert (HT : ∃ r' u' names', cleaned (filepath.Join [destPath; name]) r' u' names'
                               ∨ filepath.Join [destPath; name] = EmptyString
                                 ∧ destPath = EmptyString).
  { destruct (String.eqb_spec destPath EmptyString) as [->|Hd].
    - destruct (String.eqb_spec name EmptyString) as [->|Hn].
      + exists false, O, []. by right.
      + eexists _, _, _. left. cbn [filepath.Join]. cbn [String.eqb].
        rewrite (eqb_empty_false _ Hn). apply Clean_cleaned.
    - eexists _, _, _. left. by apply Join_cleaned. }
  destruct HT as (r' & u' & names' & [HT | [Ht ->]]).
  2: { rewrite Ht. apply isPrefixOf_refl. }
  pose proof HT as HT'. rewrite <- (cleaned_Clean _ _ _ _ HT) in HT' at 1.
  destruct (isInDirectory_cleaned _ _ _ _ _ _ _ _ HB HT' Hacc) as (-> & -> & more & ->).
  rewrite (cleaned_resolve cwd _ _ _ _ HT), resolve_norm.
  rewrite app_assoc. apply isPrefixOf_app.
Qed.

Lemma length_Split_pos (s : string) : (1 ≤ length (elemsOf s))%nat.
Proof.
  destruct (elemsOf s) eqn:H; [by apply Split_nonempty in H | cbn; lia].
Qed.

(** When the check of [unpackZip] accepts a path, and the cleaned
    destination does not start with [..], the cleaned path is the cleaned
    destination followed by more names. *)
Lemma zipCheck_cleaned (base fpath : string)
      (r r' : bool) (u u' : nat) (names names' : list string) :
  cleaned base r u names ->
  cleaned fpath r' u' names' ->
  strings.HasPrefix base ".." = false ->
  strings.HasPrefix fpath (base +:+ filepath.sepString) = true ->
  r' = r ∧ u' = u ∧ ∃ more, names' = names ++ more.
Proof.
  intros HB HT Hup Hpre.
  apply sprefix_exists in Hpre as [rest Hf].
  change filepath.sepString with "/"%string in Hf. rewrite string_app_assoc in Hf.
  assert (Hr : r' = r).
  { rewrite <- (cleaned_IsAbs _ _ _ _ HT), <- (cleaned_IsAbs _ _ _ _ HB), Hf.
    apply IsAbs_app. by apply (cleaned_nonempty _ _ _ _ HB). }
  subst r'. split; [done|].
  pose proof (cleaned_elems _ _ _ _ HT) as HeT.
  rewrite Hf, Split_app, (cleaned_elems _ _ _ _ HB) in HeT.
  pose proof (length_Split_pos rest) as Hrest.
  set (more := elemsOf rest) in *. clearbody more.
  destruct HB as (HBs & Hn & Hu). destruct HT as (HTs & Hn' & Hu').
  destruct r.
  - rewrite (Hu eq_refl), (Hu' eq_refl). split; [done|].
    cbn [app] in HeT. injection HeT as HeT.
    destruct names as [|n names].
    + exfalso. destruct names' as [|n' names'].
      * apply (f_equal length) in HeT. cbn in HeT. lia.
      * cbn in HeT. injection HeT as Hn0 _. subst n'.
        apply Forall_cons in Hn' as [Hd _]. by apply isName_empty.
    + destruct names' as [|n' names'].
      * exfalso. apply (f_equal length) in HeT. rewrite length_app in HeT.
        cbn in HeT. lia.
      * by exists more.
  - assert (Hu0 : u = O).
    { destruct u as [|u]; [done|]. exfalso. rewrite HBs in Hup. unfold render in Hup.
      cbn [replicate app] in Hup.
      destruct (String.eqb_spec
                  (strings.Join (".." :: replicate u ".." ++ names) "/") EmptyString)
        as [Hj|_].
      - destruct (Join_head ".." (replicate u ".." ++ names)) as [tl Hj'].
        rewrite Hj' in Hj. discriminate.
      - rewrite HasPrefix_Join_dotdot in Hup. discriminate. }
    subst u. cbn [replicate app] in HeT.
    assert (Hhead : ∀ e l, replicate u' ".." ++ names' = e :: l -> e ≠ ".").
    { intros e l He ->. destruct u' as [|u']; [|discriminate].
      cbn in He. subst names'. apply Forall_cons in Hn' as [Hd _]. by apply isName_dot. }
    destruct names as [|n names].
    + exfalso. cbn [app] in HeT.
      destruct (replicate u' ".." ++ names') as [|e l] eqn:Hl.
      * apply (f_equal length) in HeT. cbn in HeT. lia.
      * injection HeT as He _. by apply (Hhead e l).
    + destruct (replicate u' ".." ++ names') as [|e l] eqn:Hl.
      * exfalso. apply (f_equal length) in HeT. rewrite length_app in HeT.
        cbn in HeT. lia.
      * rewrite <- Hl in HeT.
        assert (HeT' : replicate u' ".." ++ names'
                       = replicate 0 ".." ++ (n :: names) ++ more) by exact (eq_sym HeT).
        apply dotdots_unique in HeT' as [-> ->].
        -- split; [done|]. by exists more.
        -- by apply head_names.
        -- by apply (head_names (n :: names)).
Qed.

(** The zip path: when the cleaned destination does not start with [..]
    (as for every absolute destination), a path that the check of
    [unpackZip] accepts leads into the destination. *)
Theorem zipCheck_inside (cwd : list string) (destPath name : string) :
  strings.HasPrefix (filepath.Clean destPath) ".." = false ->
  strings.HasPrefix (filepath.Join [destPath; name])
                    (filepath.Clean destPath +:+ filepath.sepString) = true ->
  platform.outside cwd destPath (filepath.Join [destPath; name]) = false.
Proof.
  intros Hup Hacc. unfold platform.outside. apply negb_false_iff.
  pose proof (Clean_cleaned destPath) as HB.
  assert (HT : ∃ r' u' names', cleaned (filepath.Join [destPath; name]) r' u' names').
  { destruct (String.eqb_spec destPath EmptyString) as [->|Hd].
    - destruct (String.eqb_spec name EmptyString) as [->|Hn].
      + discriminate.
      + eexists _, _, _. cbn [filepath.Join]. cbn [String.eqb].
        rewrite (eqb_empty_false _ Hn). apply Clean_cleaned.
    - eexists _, _, _. by apply Join_cleaned. }
  destruct HT as (r' & u' & names' & HT).
  destruct (zipCheck_cleaned _ _ _ _ _ _ _ _ HB HT Hup Hacc) as (-> & -> & more & ->).
  rewrite (cleaned_resolve cwd _ _ _ _ HT), resolve_norm.
  rewrite app_assoc. apply isPrefixOf_app.
Qed.

Lemma Clean_abs_no_dotdot (destPath : string) :
  filepath.IsAbs destPath = true ->
  strings.HasPrefix (filepath.Clean destPath) ".." = false.
Proof.
  intros Ha. destruct (Clean_cleaned destPath) as (-> & _ & _).
  rewrite Ha. reflexivity.
Qed.

End path_facts.

(** ** C10: archive extraction *)
Section extraction_facts.
Import platform.

Variable osErr : list FsOp -> FsOp -> option string.
Variable cwd : list string.

(** The tar path refuses an entry that leads outside of the destination:
    when the loop of [extractTarGz] comes to it, the function returns the
    illegal file path error without a file system call. *)
Theorem extractTarGz_refuses_outside
    (destPath : string) (header : tarHeader) (rest : list (tarHeader + string))
    (ops : list FsOp) :
  outside cwd destPath (filepath.Join [destPath; hName header]) = true ->
  extractTarItems osErr destPath (inl header :: rest) ops
  = (Some (filepath.Join [destPath; hName header] +:+ ": illegal file path"), true, ops).
Proof.
  intros Hout. cbn [extractTarItems]. unfold extractTarEntry.
  destruct (isInDirectory destPath (filepath.Join [destPath; hName header])) eqn:Hin.
  - apply (isInDirectory_inside cwd) in Hin. congruence.
  - reflexivity.
Qed.

Lemma extractTarEntry_stays_inside (destPath : string) (header : tarHeader)
      (ops : list FsOp) :
  ∃ new,
    match extractTarEntry osErr destPath header ops with
    | inl ops' => ops' = ops ++ new
    | inr (_, ops') => ops' = ops ++ new
    end
    ∧ Forall (fun op => outside cwd destPath (pathOf op) = false) new.
Proof.
  unfold extractTarEntry, perform.
  destruct (isInDirectory destPath (filepath.Join [destPath; hName header])) eqn:Hin;
    [|exists []; by rewrite app_nil_r].
  apply (isInDirectory_inside cwd) in Hin. cbn [negb].
  repeat match goal with
  | |- context [if ?b then _ else _] => destruct b
  | |- context [match osErr ?o ?op with _ => _ end] => destruct (osErr o op)
  end;
  eexists; (split; [rewrite <- ?app_assoc; reflexivity || (symmetry; apply app_nil_r)
                   | repeat constructor; exact Hin]).
Qed.

(** X25.  The tar path stays inside: every file system call of the
    extraction is on a path that leads into the destination, whatever the
    destination and the archive. *)
Theorem extractTarGz_stays_inside
    (destPath : string) (items : list (tarHeader + string)) (ops : list FsOp) :
  ∃ new,
    (extractTarItems osErr destPath items ops).2 = ops ++ new
    ∧ Forall (fun op => outside cwd destPath (pathOf op) = false) new.
Proof.
  revert ops. induction items as [|[header | err] items IH]; intros ops.
  - exists []. by rewrite app_nil_r.
  - cbn [extractTarItems].
    destruct (extractTarEntry_stays_inside destPath header ops) as (new & Hops & Hnew).
    destruct (extractTarEntry osErr destPath header ops) as [ops' | [r ops']].
    + subst ops'. destruct (IH (ops ++ new)) as (new' & Hops' & Hnew').
      exists (new ++ new'). rewrite Hops', app_assoc. split; [done|].
      by apply Forall_app.
    + subst ops'. by exists new.
  - exists []. by rewrite app_nil_r.
Qed.

(** The zip path refuses an entry that leads outside of the destination
    when the cleaned destination does not start with [..]. *)
Theorem unpackZip_refuses_outside
    (destPath : string) (f : zipFile) (rest : list zipFile) (ops : list FsOp) :
  strings.HasPrefix (filepath.Clean destPath) ".." = false ->
  outside cwd destPath (filepath.Join [destPath; zName f]) = true ->
  unpackZipFiles osErr destPath (f :: rest) ops
  = (Some (filepath.Join [destPath; zName f] +:+ ": illegal file path"), true, ops).
Proof.
  intros Hup Hout. cbn [unpackZipFiles]. unfold unpackZipFile.
  destruct (strings.HasPrefix (filepath.Join [destPath; zName f])
              (filepath.Clean destPath +:+ filepath.sepString)) eqn:Hin.
  - apply (zipCheck_inside cwd _ _ Hup) in Hin. congruence.
  - reflexivity.
Qed.

(** An absolute destination is such a destination. *)
Corollary unpackZip_refuses_outside_absolute
    (destPath : string) (f : zipFile) (rest : list zipFile) (ops : list FsOp) :
  filepath.IsAbs destPath = true ->
  outside cwd destPath (filepath.Join [destPath; zName f]) = true ->
  unpackZipFiles osErr destPath (f :: rest) ops
  = (Some (filepath.Join [destPath; zName f] +:+ ": illegal file path"), true, ops).
Proof.
  intros Ha. apply unpackZip_refuses_outside. by apply Clean_abs_no_dotdot.
Qed.

End extraction_facts.

Section extraction_examples.
Import Example platform.

(** C10 fails on the zip path.  With the destination [..], followed from
    the working directory [/a/b/c], the member [../x] leads to [/a/x],
    outside of the destination [/a/b]; [unpackZip] takes the joined path
    [../../x] for a path below the destination, because it starts with
    [../], and creates and writes it.  [extractTarGz] refuses the same
    entry with an illegal file path error and makes no file system call. *)
Theorem unpackZip_writes_outside_parent_destination :
  let destPath := ".." in
  filepath.Join [destPath; "../x"] = "../../x"
  ∧ resolve ["a"; "b"; "c"] destPath = ["a"; "b"]
  ∧ resolve ["a"; "b"; "c"] "../../x" = ["a"; "x"]
  ∧ outside ["a"; "b"; "c"] destPath (filepath.Join [destPath; "../x"]) = true
  ∧ unpackZip noErr (inl escapingZip) destPath []
    = (Done (None, false),
       [ OpMkdirAll "../.." 511; OpOpenFile "../../x" true 420;
         OpCopy "../../x" "data"; OpClose "../../x" ])
  ∧ extractTarGz noErr (inl escapingTarGz) destPath []
    = (Done (Some "../../x: illegal file path", true), []).
Proof. repeat split; vm_compute; reflexivity. Qed.

(** With an absolute destination both paths refuse the same entry. *)
Example unpackZip_refuses_under_absolute_destination :
  unpackZip noErr (inl escapingZip) "/tmp/out" []
  = (Done (Some "/tmp/x: illegal file path", true), [])
  ∧ extractTarGz noErr (inl escapingTarGz) "/tmp/out" []
    = (Done (Some "/tmp/x: illegal file path", true), []).
Proof. split; vm_compute; reflexivity. Qed.

End extraction_examples.

(** * Further properties *)

(** ** Product codes and images *)
Section product_facts.
Import product.

Lemma sprefix_cons_iff (a c : ascii) (p s : string) :
  String.prefix (String a p) (String c s) = true ↔ a = c ∧ String.prefix p s = true.
Proof.
  change (String.prefix (String a p) (String c s))
    with (if ascii_dec a c then String.prefix p s else false).
  destruct (ascii_dec a c) as [Heq|Hne].
  - split; [intros H; by split | intros [_ H]; exact H].
  - split; [discriminate | intros [Hac _]; by destruct Hne].
Qed.

(** Two prefixes of one string: one is a prefix of the other. *)
Lemma sprefix_comparable (a b s : string) :
  String.prefix a s = true -> String.prefix b s = true ->
  String.prefix a b = true ∨ String.prefix b a = true.
Proof.
  revert b s. induction a as [|x a IH]; intros b s Ha Hb.
  - left. apply sprefix_empty.
  - destruct b as [|y b]; [right; reflexivity|].
    destruct s as [|z s]; [discriminate|].
    apply sprefix_cons_iff in Ha as [-> Ha]. apply sprefix_cons_iff in Hb as [-> Hb].
    destruct (IH b s Ha Hb) as [H | H]; [left | right];
      by apply sprefix_cons_iff.
Qed.

(** The entries of [DockerImageMap]. *)
Lemma DockerImageMap_entries :
  map_to_list DockerImageMap
  ≡ₚ [ (QDAND, "jetbrains/qodana-android:");
       (QDANDC, "jetbrains/qodana-jvm-android:");
       (QDPHP, "jetbrains/qodana-php:");
       (QDJS, "jetbrains/qodana-js:");
       (QDNET, "jetbrains/qodana-dotnet:");
       (QDCPP, "jetbrains/qodana-cpp:");
       (QDNETC, "jetbrains/qodana-cdnet:");
       (QDPY, "jetbrains/qodana-python:");
       (QDPYC, "jetbrains/qodana-python-community:");
       (QDGO, "jetbrains/qodana-go:");
       (QDJVM, "jetbrains/qodana-jvm:");
       (QDJVMC, "jetbrains/qodana-jvm-community:");
       (QDCLC, "jetbrains/qodana-clang:");
       (QDRUBY, "jetbrains/qodana-ruby:") ].
Proof.
  unfold DockerImageMap. apply map_to_list_to_map.
  apply (bool_decide_unpack _). vm_compute. exact I.
Qed.

(** No image prefix of the map is a prefix of another one. *)
Lemma DockerImageMap_incomparable (k1 v1 k2 v2 : string) :
  (k1, v1) ∈ map_to_list DockerImageMap ->
  (k2, v2) ∈ map_to_list DockerImageMap ->
  String.prefix v1 v2 = true -> k1 = k2.
Proof.
  rewrite DockerImageMap_entries. intros H1 H2.
  repeat (apply elem_of_cons in H1 as [[= -> ->] | H1]);
    try (by apply elem_of_nil in H1);
    repeat (apply elem_of_cons in H2 as [[= -> ->] | H2]);
    try (by apply elem_of_nil in H2);
    first [ reflexivity | intros Hp; vm_compute in Hp; discriminate Hp ].
Qed.

(** The loop returns the code of an entry whose image prefix starts the
    reference, wherever the entry comes in the range. *)
Lemma firstImageWithPrefix_found (linter k v : string) (order : list (string * string)) :
  order ⊆ map_to_list DockerImageMap ->
  (k, v) ∈ order -> strings.HasPrefix linter v = true ->
  firstImageWithPrefix linter order = k.
Proof.
  intros Hsub Hin Hp. induction order as [|[k' v'] order IH]; [by apply elem_of_nil in Hin|].
  cbn [firstImageWithPrefix].
  destruct (strings.HasPrefix linter v') eqn:Hp'.
  - unfold strings.HasPrefix in *.
    assert (Hk : (k, v) ∈ map_to_list DockerImageMap) by (by apply Hsub).
    assert (Hk' : (k', v') ∈ map_to_list DockerImageMap) by (apply Hsub; left).
    destruct (sprefix_comparable _ _ _ Hp Hp') as [H | H].
    + symmetry. by apply (DockerImageMap_incomparable _ _ _ _ Hk Hk').
    + by apply (DockerImageMap_incomparable _ _ _ _ Hk' Hk).
  - apply elem_of_cons in Hin as [[= -> ->] | Hin]; [congruence|].
    apply IH; [|done]. intros x Hx. apply Hsub. by right.
Qed.

Lemma firstImageWithPrefix_none (linter : string) (order : list (string * string)) :
  Forall (fun kv => strings.HasPrefix linter kv.2 = false) order ->
  firstImageWithPrefix linter order = EmptyString.
Proof.
  induction 1 as [|[k v] order Hkv _ IH]; [done|].
  cbn [firstImageWithPrefix]. cbn in Hkv. by rewrite Hkv.
Qed.

Lemma firstImageWithPrefix_order (linter : string) (order1 order2 : list (string * string)) :
  order1 ≡ₚ map_to_list DockerImageMap ->
  order2 ≡ₚ map_to_list DockerImageMap ->
  firstImageWithPrefix linter order1 = firstImageWithPrefix linter order2.
Proof.
  intros H1 H2.
  destruct (decide (Exists (fun kv => strings.HasPrefix linter kv.2 = true) order1))
    as [Hex | Hno].
  - apply Exists_exists in Hex as ([k v] & Hin & Hp). cbn in Hp.
    rewrite (firstImageWithPrefix_found linter k v order1); [|by rewrite H1|done|done].
    rewrite (firstImageWithPrefix_found linter k v order2); [done|by rewrite H2| |done].
    by rewrite H2, <- H1.
  - apply not_Exists_Forall in Hno; [|intros kv; apply _].
    assert (Hall : Forall (fun kv => strings.HasPrefix linter kv.2 = false) order1).
    { eapply Forall_impl; [exact Hno|]. intros kv Hkv. cbn in Hkv.
      by destruct (strings.HasPrefix linter kv.2). }
    rewrite (firstImageWithPrefix_none _ _ Hall).
    rewrite (firstImageWithPrefix_none linter order2); [done|].
    by rewrite H2, <- H1.
Qed.

(** X1.  The result of [GuessProductCode] does not depend on the order in which
    the range over [DockerImageMap] yields its entries: at most one image
    prefix of the map starts a given reference. *)
Theorem GuessProductCode_any_range_order
    (order1 order2 : list (string * string)) (ide linter : string) :
  order1 ≡ₚ map_to_list DockerImageMap ->
  order2 ≡ₚ map_to_list DockerImageMap ->
  GuessProductCode order1 ide linter = GuessProductCode order2 ide linter.
Proof.
  intros H1 H2. unfold GuessProductCode.
  destruct (negb (String.eqb ide EmptyString)); [done|].
  destruct (negb (String.eqb linter EmptyString)); [|done].
  by apply firstImageWithPrefix_order.
Qed.

Lemma Image_inv (code image : string) :
  Image code = inl image ->
  ∃ v, (code, v) ∈ map_to_list DockerImageMap
       ∧ (image = v +:+ ReleaseVersion ∨ image = v +:+ ReleaseVersion +:+ "-eap").
Proof.
  unfold Image. destruct (DockerImageMap !! code) as [v|] eqn:Hv; [|discriminate].
  intros H. exists v. split; [by apply elem_of_map_to_list|].
  cbn [IsReleased negb] in H. destruct (_ || _); injection H as <-; auto.
Qed.

(** X2.  Round trip: the code of the image of a code is that code. *)
Theorem GuessProductCode_of_Image
    (order : list (string * string)) (code image : string) :
  order ≡ₚ map_to_list DockerImageMap ->
  Image code = inl image ->
  GuessProductCode order EmptyString image = code.
Proof.
  intros Ho (v & Hin & Himg)%Image_inv.
  assert (Hin' : (code, v) ∈ order) by (by rewrite Ho).
  assert (Hsub : order ⊆ map_to_list DockerImageMap) by (by rewrite Ho).
  assert (Hg : ∀ rest,
    GuessProductCode order EmptyString (v +:+ rest) = firstImageWithPrefix (v +:+ rest) order).
  { intros rest. clear Himg Hin'. rewrite DockerImageMap_entries in Hin.
    repeat (apply elem_of_cons in Hin as [[= -> ->] | Hin]);
      try (by apply elem_of_nil in Hin); reflexivity. }
  assert (Hp : ∀ rest, strings.HasPrefix (v +:+ rest) v = true)
    by (intros rest; apply sprefix_app).
  destruct Himg as [-> | ->]; rewrite Hg; by apply (firstImageWithPrefix_found _ code v).
Qed.

Lemma substring_all (s : string) : String.substring 0 (String.length s) s = s.
Proof. induction s as [|c s IH]; [reflexivity | simpl; by rewrite IH]. Qed.

Lemma substring_skip (p s : string) :
  String.substring (String.length p) (String.length s) (p +:+ s) = s.
Proof.
  induction p as [|c p IH]; [apply substring_all|]. rewrite app_cons. exact IH.
Qed.

Lemma TrimPrefix_app (p s : string) : strings.TrimPrefix (p +:+ s) p = s.
Proof.
  unfold strings.TrimPrefix, strings.HasPrefix. rewrite sprefix_app, slength_app.
  replace (String.length p + String.length s - String.length p)%nat
    with (String.length s) by lia.
  apply substring_skip.
Qed.

(** X3.  References to the images of the JetBrains registry are read as
    references to the images of the same name under [jetbrains/], with or
    without the scheme in front. *)
Theorem GuessProductCode_registry (order : list (string * string)) (rest : string) :
  GuessProductCode order EmptyString ("registry.jetbrains.team/p/sa/containers/" +:+ rest)
  = GuessProductCode order EmptyString ("jetbrains/" +:+ rest)
  ∧ GuessProductCode order EmptyString
      ("https://registry.jetbrains.team/p/sa/containers/" +:+ rest)
    = GuessProductCode order EmptyString ("jetbrains/" +:+ rest).
Proof.
  assert (Hj : GuessProductCode order EmptyString ("jetbrains/" +:+ rest)
               = firstImageWithPrefix ("jetbrains/" +:+ rest) order) by reflexivity.
  assert (Hr : GuessProductCode order EmptyString
                 ("registry.jetbrains.team/p/sa/containers/" +:+ rest)
               = firstImageWithPrefix ("jetbrains/" +:+ rest) order).
  { unfold GuessProductCode.
    change (strings.TrimPrefix ("registry.jetbrains.team/p/sa/containers/" +:+ rest) "https://")
      with ("registry.jetbrains.team/p/sa/containers/" +:+ rest).
    unfold strings.HasPrefix at 1. rewrite sprefix_app, TrimPrefix_app. reflexivity. }
  split; [by rewrite Hr, Hj|].
  rewrite Hj, <- Hr. unfold GuessProductCode.
  change ("https://registry.jetbrains.team/p/sa/containers/" +:+ rest)
    with ("https://" +:+ "registry.jetbrains.team/p/sa/containers/" +:+ rest).
  rewrite TrimPrefix_app. reflexivity.
Qed.

Lemma Products_entries :
  map_to_list Products
  ≡ₚ [ (QDJVM, "IIU"); (QDJVMC, "IIC"); (QDPHP, "PS"); (QDJS, "WS"); (QDNET, "RD");
       (QDPY, "PCP"); (QDPYC, "PCC"); (QDGO, "GO"); (QDRUBY, "RM"); (QDRST, "RR");
       (QDCPP, "CL") ].
Proof.
  unfold Products. apply map_to_list_to_map.
  apply (bool_decide_unpack _). vm_compute. exact I.
Qed.

(** X4.  With an IDE code given, the linter and the range order are not looked
    at, and the result is empty or a code of [Products]; a code of
    [Products], with or without the EAP suffix, is its own product code. *)
Theorem GuessProductCode_of_ide
    (order : list (string * string)) (ide linter : string) :
  ide ≠ EmptyString ->
  let guessed := GuessProductCode order ide linter in
  (guessed = EmptyString ∨ is_Some (Products !! guessed))
  ∧ guessed = GuessProductCode [] ide EmptyString
  ∧ ∀ code, is_Some (Products !! code) ->
            ide = code ∨ ide = code +:+ EapSuffix -> guessed = code.
Proof.
  intros Hide guessed. subst guessed. unfold GuessProductCode.
  rewrite (eqb_empty_false _ Hide). cbn [negb].
  split; [|split; [done|]].
  - destruct (Products !! strings.TrimSuffix ide EapSuffix) eqn:Hp; [right | by left].
    by rewrite Hp.
  - intros code [name Hc] Hcode. apply elem_of_map_to_list in Hc.
    rewrite Products_entries in Hc.
    repeat (apply elem_of_cons in Hc as [[= -> ->] | Hc]);
      try (by apply elem_of_nil in Hc);
      destruct Hcode as [-> | ->]; vm_compute; reflexivity.
Qed.

(** X5.  The images of the codes are official, pinned and of the release of the
    CLI: [CheckImage] prints nothing for them. *)
Theorem CheckImage_silent_on_Image (Version code image : string) (s : Proc) :
  strings.Contains Version "nightly" = false ->
  strings.Contains Version "dev" = false ->
  Image code = inl image ->
  CheckImage Version image s = (Done tt, s).
Proof.
  intros Hn Hd (v & Hin & Himg)%Image_inv. unfold CheckImage. rewrite Hn, Hd.
  cbn [orb]. rewrite DockerImageMap_entries in Hin.
  repeat (apply elem_of_cons in Hin as [[= -> ->] | Hin]);
    try (by apply elem_of_nil in Hin);
    destruct Himg as [-> | ->]; reflexivity.
Qed.

(** X6.  [allImages] returns the image of each code, in order, when every code
    has an image, and ends the process at the first code without one. *)
Theorem allImages_spec (codes : list string) :
  (Forall (fun code => is_Some (DockerImageMap !! code)) codes ->
   ∃ images, allImages codes = inl images
             ∧ Forall2 (fun code image => Image code = inl image) codes images)
  ∧ (∀ known code rest,
       codes = known ++ code :: rest ->
       Forall (fun code => is_Some (DockerImageMap !! code)) known ->
       DockerImageMap !! code = None ->
       allImages codes = inr ("Unknown code: " +:+ code)).
Proof.
  assert (Hknown : ∀ code, is_Some (DockerImageMap !! code) -> ∃ image, Image code = inl image).
  { intros code [v Hv]. unfold Image. rewrite Hv. cbn [IsReleased negb].
    destruct (_ || _); eauto. }
  split.
  - induction 1 as [|code codes Hc _ (images & Hi & Hall)]; [by exists []|].
    destruct (Hknown code Hc) as [image Himg]. exists (image :: images).
    cbn [allImages]. rewrite Himg, Hi. split; [done | by constructor].
  - intros known code rest -> Hk Hnone.
    induction Hk as [|c known Hc _ IH]; cbn [app allImages].
    + unfold Image. by rewrite Hnone.
    + destruct (Hknown c Hc) as [image ->]. by rewrite IH.
Qed.

(** The initialization of the package does not end the process: each code
    of [AllCodes] has an image, and [AllImages] holds these images in the
    order of the codes. *)
Theorem AllImages_of_AllCodes :
  ∃ images, AllImages = inl images
            ∧ Forall2 (fun code image => Image code = inl image) AllCodes images.
Proof.
  eexists. split; [vm_compute; reflexivity|].
  repeat constructor.
Qed.
End product_facts.

Section product_examples.
Import product Example.

Lemma GuessProductCode_any_range_order_witness :
  GuessProductCode (map_to_list DockerImageMap) EmptyString
                   "jetbrains/qodana-jvm-community:2025.1"
  = GuessProductCode (reverse (map_to_list DockerImageMap)) EmptyString
                     "jetbrains/qodana-jvm-community:2025.1".
Proof.
  apply GuessProductCode_any_range_order; [reflexivity | apply reverse_Permutation].
Defined.

Lemma GuessProductCode_of_Image_witness :
  GuessProductCode (map_to_list DockerImageMap) EmptyString
                   "jetbrains/qodana-ruby:2025.1-eap"
  = QDRUBY.
Proof.
  apply (GuessProductCode_of_Image (map_to_list DockerImageMap) QDRUBY);
    [reflexivity | vm_compute; reflexivity].
Defined.

Lemma GuessProductCode_of_ide_witness :
  GuessProductCode [] "QDJVM-EAP" "jetbrains/qodana-php:2025.1" = QDJVM.
Proof.
  refine (proj2 (proj2 (GuessProductCode_of_ide [] "QDJVM-EAP"
                          "jetbrains/qodana-php:2025.1" _)) QDJVM _ _).
  - discriminate.
  - vm_compute. eauto.
  - right. reflexivity.
Defined.

Lemma CheckImage_silent_on_Image_witness :
  CheckImage "2025.1.1" "jetbrains/qodana-dotnet:2025.1" initialProc
  = (Done tt, initialProc).
Proof.
  apply (CheckImage_silent_on_Image "2025.1.1" QDNET);
    [reflexivity | reflexivity | vm_compute; reflexivity].
Defined.

Lemma allImages_spec_witness :
  ∃ images, allImages AllCodes = inl images
            ∧ Forall2 (fun code image => Image code = inl image) AllCodes images.
Proof.
  apply (proj1 (allImages_spec AllCodes)).
  repeat (apply Forall_cons; split; [vm_compute; eauto|]). by apply Forall_nil.
Defined.

End product_examples.

(** ** More on paths *)
Section more_path_facts.

(** A cleaned path leads where the path leads. *)
Lemma resolve_Clean (cwd : list string) (p : string) :
  platform.resolve cwd (filepath.Clean p) = platform.resolve cwd p.
Proof.
  destruct (String.eqb_spec p EmptyString) as [->|Hp]; [reflexivity|].
  rewrite (cleaned_resolve cwd _ _ _ _ (Clean_cleaned p)), resolve_norm.
  reflexivity.
Qed.

Lemma foldl_follow_names (names : list string) :
  Forall isName names -> ∀ dir, foldl platform.follow dir names = dir ++ names.
Proof.
  induction 1 as [|n names Hn _ IH]; intros dir; [by rewrite app_nil_r|].
  cbn [foldl]. rewrite (proj2 (proj2 (follow_cases dir n)) Hn), IH.
  by rewrite <- app_assoc.
Qed.

Lemma names_slashFree (names : list string) :
  Forall isName names -> Forall slashFree names.
Proof. intros H. eapply Forall_impl; [exact H | apply isName_slashFree]. Qed.

Lemma isName_not_abs (n : string) : isName n -> filepath.IsAbs n = false.
Proof.
  intros (Hs & He & _). destruct n as [|c n]; [done|].
  apply slashFree_cons in Hs as [Hc _].
  unfold filepath.IsAbs, strings.HasPrefix, filepath.sepString, filepath.Separator.
  by rewrite sprefix_byte.
Qed.

(** Joining names to a path leads to the directory of these names below
    where the path leads. *)
Lemma resolve_Join_names (cwd : list string) (d : string) (names : list string) :
  Forall isName names ->
  platform.resolve cwd (filepath.Join (d :: names)) = platform.resolve cwd d ++ names.
Proof.
  intros Hn. destruct names as [|n names].
  { rewrite app_nil_r. cbn [filepath.Join].
    destruct (String.eqb_spec d EmptyString) as [->|Hd]; [reflexivity|].
    apply resolve_Clean. }
  pose proof (names_slashFree _ Hn) as Hs.
  assert (Hjoin : platform.resolve cwd (strings.Join (n :: names) "/") = cwd ++ n :: names).
  { unfold platform.resolve.
    change (strings.Split ?p filepath.sepString) with (elemsOf p).
    rewrite (Split_Join (n :: names) ltac:(done) Hs).
    destruct (Join_head n names) as [rest ->].
    rewrite IsAbs_app, (isName_not_abs n); [by apply foldl_follow_names| |].
    - by apply Forall_cons in Hn as [? _].
    - apply Forall_cons in Hn as [(_ & He & _) _]. by apply String.eqb_neq. }
  cbn [filepath.Join]. destruct (String.eqb_spec d EmptyString) as [->|Hd].
  - assert (Hne : String.eqb n EmptyString = false)
      by (by apply Forall_cons in Hn as [(_ & He & _) _]).
    rewrite Hne, resolve_Clean. exact Hjoin.
  - rewrite resolve_Clean.
    change (strings.Join (d :: n :: names) filepath.sepString)
      with (d +:+ "/" +:+ strings.Join (n :: names) "/").
    unfold platform.resolve.
    change (strings.Split ?p filepath.sepString) with (elemsOf p).
    rewrite Split_app, (Split_Join (n :: names) ltac:(done) Hs), (IsAbs_app _ _ Hd), foldl_app.
    by apply foldl_follow_names.
Qed.


(** Joining a name to a cleaned path adds the name. *)
Lemma Join_name_cleaned (q n : string) (r : bool) (u : nat) (names : list string) :
  cleaned q r u names -> isName n ->
  cleaned (filepath.Join [q; n]) r u (names ++ [n]).
Proof.
  intros Hq Hn.
  pose proof (Join_cleaned q n (cleaned_nonempty _ _ _ _ Hq)) as H. cbn zeta in H.
  rewrite (cleaned_IsAbs _ _ _ _ Hq), (cleaned_norm _ _ _ _ Hq) in H.
  rewrite (Split_free n (isName_slashFree _ Hn)) in H. cbn [foldl] in H.
  destruct (cleanStep_cases r u (rev names) n (isName_slashFree _ Hn))
    as [([-> | ->] & _) | [(-> & _) | (_ & Hstep)]].
  - by destruct isName_empty.
  - by destruct isName_dot.
  - by destruct isName_dotdot.
  - rewrite Hstep in H. cbn [fst snd rev] in H. by rewrite rev_involutive in H.
Qed.

(** Joining a name to any path: the cleaned path, and the name. *)
Lemma Join_name_Clean (p n : string) :
  isName n ->
  ∃ r u names, cleaned (filepath.Clean p) r u names
               ∧ cleaned (filepath.Join [p; n]) r u (names ++ [n]).
Proof.
  intros Hn. pose proof (Clean_cleaned p) as Hp.
  eexists _, _, _. split; [exact Hp|].
  destruct (String.eqb_spec p EmptyString) as [->|Hne].
  - cbn [filepath.Join String.eqb]. destruct Hn as (Hs & He & Hd & Hdd).
    rewrite He. cbn [strings.Join].
    pose proof (Clean_cleaned n) as Hc.
    assert (Hname : isName n) by done.
    rewrite (isName_not_abs n Hname), (Split_free n Hs) in Hc.
    unfold norm in Hc. cbn [foldl] in Hc.
    destruct (cleanStep_cases false 0 [] n Hs)
      as [([-> | ->] & _) | [(-> & _) | (_ & Hstep)]]; try done.
    rewrite Hstep in Hc. exact Hc.
  - pose proof (Join_name_cleaned (filepath.Clean p) n _ _ _ Hp Hn) as H.
    assert (Hj : filepath.Join [filepath.Clean p; n] = filepath.Join [p; n]).
    { pose proof (Join_cleaned p n Hne) as H1. cbn zeta in H1.
      rewrite (Split_free n (isName_slashFree _ Hn)) in H1. cbn [foldl] in H1.
      destruct (cleanStep_cases (filepath.IsAbs p) (norm (filepath.IsAbs p) (elemsOf p)).1
                  (norm (filepath.IsAbs p) (elemsOf p)).2 n (isName_slashFree _ Hn))
        as [([-> | ->] & _) | [(-> & _) | (_ & Hstep)]].
      - by destruct isName_empty.
      - by destruct isName_dot.
      - by destruct isName_dotdot.
      - rewrite <- surjective_pairing in Hstep. rewrite Hstep in H1.
        cbn [fst snd rev] in H1.
        destruct H as (-> & _). by destruct H1 as (-> & _). }
    by rewrite <- Hj.
Qed.

Lemma Contains_app_mid (a b c : string) : strings.Contains (a +:+ b +:+ c) b = true.
Proof.
  induction a as [|x a IH].
  - change (EmptyString +:+ b +:+ c) with (b +:+ c).
    destruct (b +:+ c) as [|y t] eqn:Hbc.
    + destruct b; [reflexivity | discriminate].
    + cbn [strings.Contains]. by rewrite <- Hbc, sprefix_app.
  - rewrite app_cons. cbn [strings.Contains]. rewrite IH. apply orb_true_r.
Qed.

Lemma dirPart_free (n : string) : slashFree n -> platform.dirPart n = EmptyString.
Proof.
  destruct n as [|c n]; [done|]. intros [Hc Hn]%slashFree_cons.
  cbn [platform.dirPart]. unfold filepath.sepString, filepath.Separator.
  unfold slashFree in Hn. by rewrite Hc, Hn.
Qed.

(** The part of a path before its last element. *)
Lemma dirPart_app (a n : string) :
  slashFree n -> platform.dirPart (a +:+ "/" +:+ n) = a +:+ "/".
Proof.
  intros Hn. induction a as [|c a IH].
  - change (EmptyString +:+ "/" +:+ n) with (String "/" n).
    cbn [platform.dirPart]. cbn [Ascii.eqb orb]. by rewrite (dirPart_free n Hn).
  - rewrite (app_cons c a ("/" +:+ n)), (app_cons c a "/"). cbn [platform.dirPart].
    unfold filepath.sepString, filepath.Separator.
    rewrite (Contains_app_mid a "/" n), orb_true_r, IH. reflexivity.
Qed.

Lemma Clean_trailing_separator (a : string) :
  a ≠ EmptyString -> filepath.Clean (a +:+ "/") = filepath.Clean a.
Proof.
  intros Ha. pose proof (Join_cleaned a EmptyString Ha) as H. cbn zeta in H.
  cbn [filepath.Join] in H. rewrite (eqb_empty_false _ Ha) in H.
  change (strings.Join [a; EmptyString] filepath.sepString) with (a +:+ "/" +:+ EmptyString) in H.
  change (a +:+ "/" +:+ EmptyString) with (a +:+ "/") in H.
  destruct (Clean_cleaned a) as (Ha' & _). rewrite Ha'.
  destruct (norm (filepath.IsAbs a) (elemsOf a)) as [u o].
  by destruct H as (-> & _).
Qed.

Lemma Join_snoc (l : list string) (n : string) :
  l ≠ [] -> strings.Join (l ++ [n]) "/" = strings.Join l "/" +:+ "/" +:+ n.
Proof.
  induction l as [|e l IH]; [done|]. intros _. destruct l as [|e' l]; [reflexivity|].
  change ((e :: e' :: l) ++ [n]) with (e :: (e' :: l) ++ [n]).
  cbn [app]. rewrite !Join_cons2. cbn [app] in IH. rewrite IH; [|done].
  by rewrite !string_app_assoc.
Qed.

(** The directory of a cleaned path that ends in a name: the cleaned path
    without the name. *)
Lemma Dir_cleaned (q n : string) (r : bool) (u : nat) (names : list string) :
  cleaned q r u (names ++ [n]) -> platform.Dir q = render r u names.
Proof.
  intros (-> & Hall & Hu). apply Forall_app in Hall as [Hnames Hn].
  apply Forall_cons in Hn as [Hn _]. pose proof (isName_slashFree _ Hn) as Hs.
  assert (Hrender : cleaned (render r u names) r u names) by done.
  unfold platform.Dir. unfold render at 1. rewrite app_assoc.
  destruct (replicate u ".." ++ names) as [|e l] eqn:Hl.
  - apply app_eq_nil in Hl as [Hu0 ->]. destruct u; [|discriminate].
    cbn [app strings.Join]. destruct r.
    + change ("/" +:+ n) with (EmptyString +:+ "/" +:+ n). by rewrite (dirPart_app _ _ Hs).
    + destruct Hn as (_ & He & _). rewrite He, (dirPart_free n Hs). reflexivity.
  - rewrite (Join_snoc (e :: l) n ltac:(done)), <- Hl.
    set (body := strings.Join (replicate u ".." ++ names) "/").
    assert (Hbody : body ≠ EmptyString).
    { subst body. rewrite Hl. destruct (Join_head e l) as [rest ->].
      assert (He : e ≠ EmptyString); [|by destruct e].
      destruct u as [|u]; cbn in Hl.
      - subst names. apply Forall_cons in Hnames as [(_ & He & _) _].
        by apply String.eqb_neq.
      - by injection Hl as <- _. }
    destruct r.
    + rewrite <- string_app_assoc, (dirPart_app _ _ Hs), Clean_trailing_separator; [|done].
      by apply (cleaned_Clean _ _ _ _ Hrender).
    + assert (Hq : String.eqb (body +:+ "/" +:+ n) EmptyString = false).
      { apply String.eqb_neq. by destruct body. }
      rewrite Hq, (dirPart_app _ _ Hs), (Clean_trailing_separator _ Hbody).
      assert (Hr : render false u names = body).
      { unfold render. fold body. by rewrite (eqb_empty_false _ Hbody). }
      rewrite <- Hr at 1. by apply (cleaned_Clean _ _ _ _ Hrender).
Qed.


Lemma cleanStep_stay (r : bool) (st : nat * list string) (e : string) :
  e = EmptyString ∨ e = "." -> filepath.cleanStep r st e = st.
Proof. destruct st as [u o]. by intros [-> | ->]. Qed.

Lemma cleanStep_name (r : bool) (st : nat * list string) (e : string) :
  isName e -> filepath.cleanStep r st e = (st.1, e :: st.2).
Proof.
  destruct st as [u o]. intros He.
  destruct (cleanStep_cases r u o e (isName_slashFree _ He))
    as [([-> | ->] & _) | [(-> & _) | (_ & ->)]]; [| | |done].
  - by destruct isName_empty.
  - by destruct isName_dot.
  - by destruct isName_dotdot.
Qed.

Lemma cleanStep_name_up (r : bool) (st : nat * list string) (e : string) :
  isName e -> filepath.cleanStep r (filepath.cleanStep r st e) ".." = st.
Proof. intros He. rewrite (cleanStep_name _ _ _ He). by destruct st. Qed.

(** The element loop of [Clean] goes on from any state over the elements of
    a relative path as over the elements of its cleaned form. *)
Lemma foldl_cleanStep_cleaned (r : bool) (elems : list string) :
  Forall slashFree elems ->
  ∀ st, foldl (filepath.cleanStep r) st elems
        = foldl (filepath.cleanStep r) st
            (replicate (norm false elems).1 ".." ++ rev (norm false elems).2).
Proof.
  induction elems as [|e elems IH] using rev_ind; intros Hall st; [done|].
  apply Forall_app in Hall as [Hall He]. apply Forall_cons in He as [He _].
  destruct (norm_inv false elems Hall 0%nat []) as [Hnames _]; [constructor | done |].
  unfold norm in *. rewrite !(foldl_app _ elems [e]). cbn [foldl]. rewrite (IH Hall st).
  destruct (foldl (filepath.cleanStep false) (0%nat, []) elems) as [u o]. cbn [fst snd] in *.
  destruct (cleanStep_cases false u o e He)
    as [(Hd & -> & _) | [(-> & ->) | (Hn & ->)]]; cbn [fst snd].
  - by apply cleanStep_stay.
  - destruct o as [|x o]; cbn [fst snd rev].
    + rewrite !app_nil_r. by rewrite replicate_S_end, foldl_app.
    + apply Forall_cons in Hnames as [Hx _].
      rewrite app_assoc, (foldl_app _ (replicate u ".." ++ rev o) [x]). cbn [foldl].
      exact (cleanStep_name_up _ _ _ Hx).
  - cbn [rev]. by rewrite app_assoc, (foldl_app _ (replicate u ".." ++ rev o) [e]).
Qed.

(** [Abs] gives the same path for a path and for its cleaned form. *)
Lemma Abs_Clean (getwd : string + string) (p : string) :
  getwd ≠ inl EmptyString ->
  filepath.Abs getwd (filepath.Clean p) = filepath.Abs getwd p.
Proof.
  intros Hwd. pose proof (Clean_cleaned p) as Hc. unfold filepath.Abs.
  rewrite (cleaned_IsAbs _ _ _ _ Hc), (cleaned_Clean _ _ _ _ Hc).
  destruct (filepath.IsAbs p) eqn:Hp; [done|].
  destruct getwd as [wd | err]; [|done]. f_equal.
  assert (Hne : wd ≠ EmptyString) by congruence.
  pose proof (Join_cleaned wd p Hne) as H1.
  pose proof (Join_cleaned wd (filepath.Clean p) Hne) as H2. cbn zeta in H1, H2.
  assert (Hel : ∀ st, foldl (filepath.cleanStep (filepath.IsAbs wd)) st
                        (elemsOf (filepath.Clean p))
                      = foldl (filepath.cleanStep (filepath.IsAbs wd)) st (elemsOf p)).
  { intros st. rewrite (foldl_cleanStep_cleaned _ (elemsOf p) (Split_slashFree p) st).
    rewrite (cleaned_elems _ _ _ _ Hc).
    destruct (replicate _ ".." ++ rev _) as [|e l]; [|done].
    cbn [foldl]. by apply cleanStep_stay; right. }
  rewrite Hel in H2. destruct H2 as (-> & _). by destruct H1 as (-> & _).
Qed.

End more_path_facts.

(** ** The directories of a run *)
Section run_directories.
Import compute.

Lemma allBytes_app (P : ascii -> bool) (a b : string) :
  allBytes P (a +:+ b) = allBytes P a && allBytes P b.
Proof.
  induction a as [|c a IH]; [reflexivity|]. rewrite app_cons. cbn [allBytes].
  by rewrite IH, andb_assoc.
Qed.

Lemma allBytes_substring (P : ascii -> bool) (s : string) (n m : nat) :
  allBytes P s = true -> allBytes P (String.substring n m s) = true.
Proof.
  revert n m. induction s as [|c s IH]; intros n m H.
  - by destruct n, m.
  - cbn [allBytes] in H. apply andb_true_iff in H as [Hc Hs].
    destruct n as [|n]; [destruct m as [|m]; [done|]|]; cbn [String.substring].
    + cbn [allBytes]. by rewrite Hc, IH.
    + by apply IH.
Qed.

Lemma digit_hex (c : ascii) :
  isHexOrHyphen (hex.digit (bytes.toZ c / 16)) = true
  ∧ isHexOrHyphen (hex.digit (bytes.toZ c mod 16)) = true.
Proof. destruct c as [[] [] [] [] [] [] [] []]; split; vm_compute; reflexivity. Qed.

Lemma allBytes_EncodeToString (src : string) :
  allBytes isHexOrHyphen (hex.EncodeToString src) = true.
Proof.
  induction src as [|c src IH]; [reflexivity|]. cbn [hex.EncodeToString allBytes].
  destruct (digit_hex c) as [-> ->]. exact IH.
Qed.

Lemma allBytes_slashFree (s : string) : allBytes isHexOrHyphen s = true -> slashFree s.
Proof.
  induction s as [|c s IH]; [done|]. cbn [allBytes]. intros [Hc Hs]%andb_true_iff.
  apply slashFree_cons. split; [|by apply IH].
  destruct (Ascii.eqb_spec c "/") as [->|]; [discriminate | done].
Qed.

(** The run identifier is a name: a path element that [Clean] keeps. *)
Lemma hashPrefixPair_isName (analyzer projectAbs : string) :
  isName (hashPrefixPair analyzer projectAbs).
Proof.
  assert (Hlen : String.length (hashPrefixPair analyzer projectAbs) = 17%nat).
  { unfold hashPrefixPair. fold (commoncontext.getHash analyzer).
    fold (commoncontext.getHash projectAbs).
    rewrite !slength_app, !length_substring; [reflexivity | |];
      rewrite length_getHash; lia. }
  split; [|split; [|split]].
  - apply allBytes_slashFree. unfold hashPrefixPair.
    rewrite !allBytes_app, !allBytes_substring by apply allBytes_EncodeToString.
    reflexivity.
  - apply String.eqb_neq. intros H. by rewrite H in Hlen.
  - apply String.eqb_neq. intros H. by rewrite H in Hlen.
  - apply String.eqb_neq. intros H. by rewrite H in Hlen.
Qed.

Lemma computeId_isName (getwd : string + string) (linter ide projectDir : string) :
  ∃ id, commoncontext.computeId getwd linter ide projectDir = Some id ∧ isName id.
Proof.
  eexists. split; [|apply hashPrefixPair_isName].
  unfold commoncontext.computeId. cbn [Nat.add]. rewrite !slice_getHash. reflexivity.
Qed.


Variable getwd : string + string.
Variable UserCacheDir : string + string.
Variable dirs : qdcontainer.Dirs.
Variable LoadQodanaYaml : string -> string -> QodanaYaml.
Variable GetAnalyzer : string -> string -> string.
Variable strutil_Contains : list string -> string -> bool.
Variable PrimaryBold : string -> string.

Local Abbreviation ComputeOn inContainer :=
  (Compute getwd UserCacheDir inContainer dirs LoadQodanaYaml GetAnalyzer
           strutil_Contains PrimaryBold).
Local Abbreviation userCache := (userCacheDir UserCacheDir).
Local Abbreviation fromProject :=
  (getLinterAndIdeFromProject LoadQodanaYaml GetAnalyzer strutil_Contains PrimaryBold).

Lemma Join_three_cleaned (d a b : string) :
  isName a -> isName b ->
  ∃ r u names, cleaned (filepath.Join [d; a; b]) r u names
               ∧ filepath.Clean (filepath.Join [d; a; b]) = filepath.Join [d; a; b].
Proof.
  intros Ha Hb.
  assert (H : ∃ p, filepath.Join [d; a; b] = filepath.Clean p).
  { cbn [filepath.Join]. destruct (String.eqb d EmptyString); [|by eexists].
    destruct Ha as (_ & -> & _). by eexists. }
  destruct H as [p ->]. pose proof (Clean_cleaned p) as Hc.
  eexists _, _, _. split; [exact Hc|]. by apply (cleaned_Clean _ _ _ _ Hc).
Qed.

(** What [Compute] returns without directory options, outside of a
    container. *)
Lemma Compute_default
    (overrideLinter overrideIde token : string) (clear : bool) (projectDir yaml : string)
    (notices : list Notice) (ctx : Context) :
  ComputeOn false overrideLinter overrideIde EmptyString EmptyString EmptyString token
            clear projectDir yaml = (notices, Returns ctx) ->
  let systemDir := filepath.Join [userCache; "JetBrains"; "Qodana"] in
  let linterDir := filepath.Join [systemDir; Id ctx] in
  isName (Id ctx)
  ∧ commoncontext.computeId getwd (Linter ctx) (Ide ctx) projectDir = Some (Id ctx)
  ∧ QodanaSystemDir ctx = systemDir
  ∧ CacheDir ctx = filepath.Join [linterDir; "cache"]
  ∧ ResultsDir ctx = filepath.Join [linterDir; "results"]
  ∧ ReportDir ctx = filepath.Join [filepath.Join [linterDir; "results"]; "report"].
Proof.
  unfold Compute. intros H.
  destruct (if (_ && _) then _ else _) as [ns [[linter ide] | status |]];
    [|discriminate..].
  destruct (computeId_isName getwd linter ide projectDir) as (id & Hid & Hname).
  rewrite Hid in H. injection H as <- <-. cbn. done.
Qed.

(** X8.  The layout of the directories of a run.  Without directory options and
    outside of a container, the system directory is [JetBrains/Qodana] below
    the cache directory of the user, and the cache, results and report
    directories lie below the directory of the run identifier in it. *)
Theorem Compute_default_layout
    (cwd : list string)
    (overrideLinter overrideIde token : string) (clear : bool) (projectDir yaml : string)
    (notices : list Notice) (ctx : Context) :
  ComputeOn false overrideLinter overrideIde EmptyString EmptyString EmptyString token
            clear projectDir yaml = (notices, Returns ctx) ->
  let system := platform.resolve cwd userCache ++ ["JetBrains"; "Qodana"] in
  platform.resolve cwd (QodanaSystemDir ctx) = system
  ∧ platform.resolve cwd (CacheDir ctx) = system ++ [Id ctx; "cache"]
  ∧ platform.resolve cwd (ResultsDir ctx) = system ++ [Id ctx; "results"]
  ∧ platform.resolve cwd (ReportDir ctx) = system ++ [Id ctx; "results"; "report"].
Proof.
  intros (Hid & _ & -> & -> & -> & ->)%Compute_default system.
  assert (Hn : ∀ n : string, n ∈ ["JetBrains"; "Qodana"; "cache"; "results"; "report"] ->
                    isName n).
  { intros n Hin. repeat (apply elem_of_cons in Hin as [-> | Hin]); try done.
    by apply elem_of_nil in Hin. }
  assert (H1 : ∀ d n, isName n ->
    platform.resolve cwd (filepath.Join [d; n]) = platform.resolve cwd d ++ [n]).
  { intros d n Hname. apply resolve_Join_names. by apply Forall_singleton. }
  assert (Hsys : platform.resolve cwd (filepath.Join [userCache; "JetBrains"; "Qodana"])
                 = system).
  { apply resolve_Join_names. apply Forall_cons. split; [done|]. by apply Forall_singleton. }
  rewrite !H1, Hsys by (done || (apply Hn; set_solver)).
  by rewrite <- !app_assoc.
Qed.

(** The system directory is found again from the default cache directory:
    for a name [id], the directory two levels up from [cache] in the
    directory [id] of a system directory is that (cleaned) directory. *)
Lemma computeQodanaSystemDir_of_default (systemDir id : string) :
  isName id ->
  computeQodanaSystemDir UserCacheDir
    (filepath.Join [filepath.Join [systemDir; id]; "cache"])
  = filepath.Clean systemDir.
Proof.
  intros Hid.
  destruct (Join_name_Clean systemDir id Hid) as (r & u & names & Hsys & Hlinter).
  assert (Hcache : isName "cache") by done.
  pose proof (Join_name_cleaned _ _ _ _ _ Hlinter Hcache) as Hc.
  unfold computeQodanaSystemDir.
  rewrite (eqb_empty_false _ (cleaned_nonempty _ _ _ _ Hc)). cbn [negb].
  rewrite (Dir_cleaned _ _ _ _ _ Hc).
  assert (Hl : cleaned (render r u (names ++ [id])) r u (names ++ [id])).
  { destruct Hlinter as (_ & ? & ?). done. }
  rewrite (Dir_cleaned _ _ _ _ _ Hl). by destruct Hsys as (-> & _).
Qed.

(** X9.  Round trip: when the cache directory that [Compute] chose by default
    is given back to it as the cache directory option, it computes the same
    context. *)
Theorem Compute_with_its_cache_dir
    (overrideLinter overrideIde token : string) (clear : bool) (projectDir yaml : string)
    (notices : list Notice) (ctx : Context) :
  ComputeOn false overrideLinter overrideIde EmptyString EmptyString EmptyString token
            clear projectDir yaml = (notices, Returns ctx) ->
  computeQodanaSystemDir UserCacheDir (CacheDir ctx) = QodanaSystemDir ctx
  ∧ ComputeOn false overrideLinter overrideIde (CacheDir ctx) EmptyString EmptyString
              token clear projectDir yaml = (notices, Returns ctx).
Proof.
  intros H. pose proof H as (Hid & _ & Hsys & Hcache & Hres & Hrep)%Compute_default.
  assert (Hback : computeQodanaSystemDir UserCacheDir (CacheDir ctx) = QodanaSystemDir ctx).
  { rewrite Hcache, (computeQodanaSystemDir_of_default _ _ Hid), Hsys.
    by destruct (Join_three_cleaned userCache "JetBrains" "Qodana") as (_ & _ & _ & _ & ->). }
  split; [exact Hback|].
  assert (Hne : String.eqb (CacheDir ctx) EmptyString = false).
  { rewrite Hcache. apply eqb_empty_false.
    destruct (Join_name_Clean (filepath.Join [filepath.Join [userCache; "JetBrains"; "Qodana"]; Id ctx])
                "cache" ltac:(done)) as (? & ? & ? & _ & Hc).
    by apply (cleaned_nonempty _ _ _ _ Hc). }
  unfold Compute in *.
  destruct (if (_ && _) then _ else _) as [ns [[linter ide] | status |]];
    [|discriminate..].
  destruct (commoncontext.computeId getwd linter ide projectDir) as [id|]; [|discriminate].
  injection H as <- <-. cbn in *. rewrite Hback.
  unfold computeCacheDir, computeResultsDir, computeReportDir.
  rewrite Hne. cbn. by rewrite Hsys.
Qed.

(** X10.  The analyzer read from the project is a linter or an IDE, never both:
    when the configuration file sets both, the process exits with status 1,
    and this is the only way it exits. *)
Theorem getLinterAndIdeFromProject_at_most_one (token projectDir yaml : string) :
  let file := LoadQodanaYaml projectDir yaml in
  (∀ notices linter ide,
     fromProject token projectDir yaml = (notices, Returns (linter, ide)) ->
     linter = EmptyString ∨ ide = EmptyString)
  ∧ ((yamlLinter file ≠ EmptyString ∧ yamlIde file ≠ EmptyString)
     ↔ ∃ notices, fromProject token projectDir yaml = (notices, Exits 1))
  ∧ (∀ notices, fromProject token projectDir yaml ≠ (notices, Panics)).
Proof.
  intros file. unfold getLinterAndIdeFromProject. fold file.
  destruct (String.eqb_spec (yamlLinter file) EmptyString) as [Hl|Hl];
    destruct (String.eqb_spec (yamlIde file) EmptyString) as [Hi|Hi]; cbn.
  - destruct (IsNativeAnalyzer _ _); (split; [intros ? ? ? [= _ <- <-]; auto|]);
      (split; [split; [by intros [? _] | by intros [? ?]] | done]).
  - split; [intros ? ? ? [= _ <- <-]; auto|].
    split; [split; [by intros [? _] | by intros [? ?]] | done].
  - split; [intros ? ? ? [= _ <- <-]; auto|].
    split; [split; [by intros [_ ?] | by intros [? ?]] | done].
  - split; [done|]. split; [split; [eauto | done] | done].
Qed.


(** X7.  The run identifier does not depend on how the project directory is
    spelled: a path and its cleaned form (without doubled or trailing
    separators, [.] elements, or [..] elements after names) give the same
    identifier. *)
Theorem computeId_of_cleaned_path (linter ide projectDir : string) :
  getwd ≠ inl EmptyString ->
  commoncontext.computeId getwd linter ide (filepath.Clean projectDir)
  = commoncontext.computeId getwd linter ide projectDir.
Proof.
  intros Hwd. unfold commoncontext.computeId, commoncontext.projectAbsOf.
  by rewrite (Abs_Clean _ _ Hwd).
Qed.

End run_directories.

Section run_directories_examples.
Import compute Example.

Lemma Compute_default_layout_witness :
  platform.resolve ["work"] (QodanaSystemDir computedContext)
  = ["home"; "u"; ".cache"; "JetBrains"; "Qodana"]
  ∧ platform.resolve ["work"] (CacheDir computedContext)
    = ["home"; "u"; ".cache"; "JetBrains"; "Qodana"; "e7090287-9c09f805"; "cache"]
  ∧ platform.resolve ["work"] (ResultsDir computedContext)
    = ["home"; "u"; ".cache"; "JetBrains"; "Qodana"; "e7090287-9c09f805"; "results"]
  ∧ platform.resolve ["work"] (ReportDir computedContext)
    = ["home"; "u"; ".cache"; "JetBrains"; "Qodana"; "e7090287-9c09f805"; "results";
       "report"].
Proof.
  apply (Compute_default_layout (inl "/home/u") (inl "/home/u/.cache") dirs
           LoadQodanaYaml GetAnalyzer strutil_Contains PrimaryBold
           ["work"] image "" "tok" false "proj" "qodana.yaml" [] computedContext).
  vm_compute. reflexivity.
Defined.

Lemma Compute_with_its_cache_dir_witness :
  Compute (inl "/home/u") (inl "/home/u/.cache") false dirs
    LoadQodanaYaml GetAnalyzer strutil_Contains PrimaryBold
    image "" "/home/u/.cache/JetBrains/Qodana/e7090287-9c09f805/cache" "" "" "tok"
    false "proj" "qodana.yaml"
  = ([], Returns computedContext).
Proof.
  apply (Compute_with_its_cache_dir (inl "/home/u") (inl "/home/u/.cache") dirs
           LoadQodanaYaml GetAnalyzer strutil_Contains PrimaryBold
           image "" "tok" false "proj" "qodana.yaml" [] computedContext).
  vm_compute. reflexivity.
Defined.

Lemma computeId_of_cleaned_path_witness :
  commoncontext.computeId (inl "/home/u") image "" "proj"
  = commoncontext.computeId (inl "/home/u") image "" "./proj//".
Proof.
  apply (computeId_of_cleaned_path (inl "/home/u") image "" "./proj//"). discriminate.
Defined.

End run_directories_examples.

(** ** The container specification, the run and the cleanup *)
Section container_facts.

Variable GOOS : string.
Variable names : qdenv.Names.
Variable dirs : qdcontainer.Dirs.
Variable GetIdeArgs : corescan.Context -> list string.
Variable envExtractedFromOsEnv : World -> corescan.Context -> list string.
Variable w : World.

Local Abbreviation builder :=
  (getDockerOptions GOOS names dirs GetIdeArgs envExtractedFromOsEnv w).
Local Abbreviation chosen := (chosenName names w).
Local Abbreviation fixed := (fixedMounts GOOS dirs w).

(** The rest of what the builder returns, when it returns. *)
Lemma getDockerOptions_fields (c : corescan.Context) (image : string)
      (s s' : Proc) (cfg : backend.ContainerCreateConfig) :
  builder c image s = (Done cfg, s') ->
  backend.Name cfg = chosen c
  ∧ containerName s' = chosen c
  ∧ container.Image (backend.Config cfg) = image
  ∧ container.Cmd (backend.Config cfg) = GetIdeArgs c
  ∧ container.Tty (backend.Config cfg) = IsInteractive w
  ∧ container.AttachStdout (backend.Config cfg) = true
  ∧ container.AttachStderr (backend.Config cfg) = true
  ∧ container.User (backend.Config cfg) = corescan.User c
  ∧ container.AutoRemove (backend.HostConfig cfg)
    = String.eqb (Getenv w (qdenv.QodanaCliContainerKeep names)) EmptyString
  ∧ container.CapAdd (backend.HostConfig cfg)
    = (if strings.Contains image "dotnet" then ["SYS_PTRACE"] else [])
  ∧ container.SecurityOpt (backend.HostConfig cfg)
    = (if strings.Contains image "dotnet" then ["seccomp=unconfined"] else [])
  ∧ fixed c cfg.
Proof.
  unfold getDockerOptions, chosenName, fixedMounts. intros H.
  apply bind_inv in H as (cachePath & s1 & [H1 ->]%absOrFatal_Done & H).
  apply bind_inv in H as (projectPath & s1 & [H2 ->]%absOrFatal_Done & H).
  apply bind_inv in H as (resultsPath & s1 & [H3 ->]%absOrFatal_Done & H).
  apply bind_inv in H as (reportPath & s1 & [H4 ->]%absOrFatal_Done & H).
  apply bind_inv in H as ([] & s1 & [= <-] & H).
  apply bind_inv in H as (name & s2 & [= <- <-] & H).
  apply bind_inv in H as ([] & s3 & Hname & H).
  apply bind_inv in H as (volumes & s4 & Hglobal & H).
  apply bind_inv in H as (volumes' & s5 & (-> & -> & Hall)%appendUserVolumes_Done & H).
  cbn [containerName] in Hname.
  assert (Hs3 : containerName s3 = chosen c).
  { unfold chosenName. destruct (_ =? _)%string in Hname |- *; by injection Hname as <-. }
  unfold withExtractedEnv in *.
  cbn [corescan.JvmDebugPort corescan.Env corescan.Volumes corescan.QodanaUploadToken
       corescan.CacheDir corescan.ProjectDir corescan.ResultsDir corescan.ReportDir
       corescan.GlobalConfigurationsDir corescan.User corescan.Id] in *.
  assert (Hs4 : s4 = s3 ∧ ∃ global,
    (if String.eqb (corescan.GlobalConfigurationsDir c) EmptyString then global = []
     else ∃ g, filepath.Abs (Getwd w) (corescan.GlobalConfigurationsDir c) = inl g
               ∧ global = [bindMount g (qdcontainer.DataGlobalConfigDir dirs)])
    ∧ volumes = [ bindMount cachePath (qdcontainer.DataCacheDir dirs);
                  bindMount projectPath (qdcontainer.DataProjectDir dirs);
                  bindMount resultsPath (qdcontainer.DataResultsDir dirs);
                  bindMount reportPath (qdcontainer.DataResultsReportDir dirs) ]
                ++ global).
  { destruct (String.eqb (corescan.GlobalConfigurationsDir c) EmptyString);
      cbn [negb] in Hglobal.
    - injection Hglobal as <- <-. split; [done|]. by exists [].
    - apply bind_inv in Hglobal as (g & s6 & [Hg ->]%absOrFatal_Done & [= <- <-]).
      split; [done|]. eexists. split; [by exists g | done]. }
  destruct Hs4 as (-> & global & Hg & ->). clear Hglobal Hname.
  destruct (0 <? corescan.JvmDebugPort c);
    destruct (strings.Contains image "dotnet");
    apply bind_inv in H as (name' & s6 & [= <- <-] & [= <- <-]);
    cbn [backend.Name backend.Config backend.HostConfig container.Env
         container.Mounts container.PortBindings container.ExposedPorts
         container.NetworkMode container.Image container.Cmd container.Tty
         container.AttachStdout container.AttachStderr container.User
         container.AutoRemove container.CapAdd container.SecurityOpt];
    (repeat (split; [done|]));
    exists cachePath, projectPath, resultsPath, reportPath, global;
    (repeat (split; [done|])); by rewrite <- ?app_assoc.
Qed.


(** An absolute path that [Abs] gives is rooted and clean, when the working
    directory is. *)
Lemma Abs_rooted (getwd : string + string) (p q : string) :
  (∀ wd, getwd = inl wd -> filepath.IsAbs wd = true) ->
  filepath.Abs getwd p = inl q ->
  filepath.IsAbs q = true ∧ filepath.Clean q = q.
Proof.
  intros Hwd. unfold filepath.Abs. destruct (filepath.IsAbs p) eqn:Hp.
  - intros [= <-]. pose proof (Clean_cleaned p) as Hc. rewrite Hp in Hc.
    split; [by apply (cleaned_IsAbs _ _ _ _ Hc) | by apply (cleaned_Clean _ _ _ _ Hc)].
  - destruct getwd as [wd | err]; [|discriminate]. intros [= <-].
    specialize (Hwd wd eq_refl).
    assert (Hne : wd ≠ EmptyString) by (by intros ->).
    pose proof (Join_cleaned wd p Hne) as Hc. cbn zeta in Hc. rewrite Hwd in Hc.
    split; [by apply (cleaned_IsAbs _ _ _ _ Hc) | by apply (cleaned_Clean _ _ _ _ Hc)].
Qed.

(** X14.  The directories of the context are mounted by their absolute, cleaned
    paths at the fixed places of the container, before the volumes of the
    user: the source of each fixed mount is what [filepath.Abs] gives for
    the cache, project, results and report directory of the context, in
    this order, and for the directory of the global configurations when
    the context names one. *)
Theorem fixed_mounts_absolute
    (c : corescan.Context) (image : string) (s s' : Proc)
    (cfg : backend.ContainerCreateConfig) :
  (∀ wd, Getwd w = inl wd -> filepath.IsAbs wd = true) ->
  builder c image s = (Done cfg, s') ->
  ∃ cachePath projectPath resultsPath reportPath global,
    filepath.Abs (Getwd w) (corescan.CacheDir c) = inl cachePath
    ∧ filepath.Abs (Getwd w) (corescan.ProjectDir c) = inl projectPath
    ∧ filepath.Abs (Getwd w) (corescan.ResultsDir c) = inl resultsPath
    ∧ filepath.Abs (Getwd w) (corescan.ReportDir c) = inl reportPath
    ∧ (if String.eqb (corescan.GlobalConfigurationsDir c) EmptyString then global = []
       else ∃ g, filepath.Abs (Getwd w) (corescan.GlobalConfigurationsDir c) = inl g
                 ∧ global = [ {| mount.Type_ := mount.TypeBind;
                                 mount.Source := g;
                                 mount.Target := qdcontainer.DataGlobalConfigDir dirs |} ])
    ∧ container.Mounts (backend.HostConfig cfg)
      = [ {| mount.Type_ := mount.TypeBind; mount.Source := cachePath;
             mount.Target := qdcontainer.DataCacheDir dirs |};
          {| mount.Type_ := mount.TypeBind; mount.Source := projectPath;
             mount.Target := qdcontainer.DataProjectDir dirs |};
          {| mount.Type_ := mount.TypeBind; mount.Source := resultsPath;
             mount.Target := qdcontainer.DataResultsDir dirs |};
          {| mount.Type_ := mount.TypeBind; mount.Source := reportPath;
             mount.Target := qdcontainer.DataResultsReportDir dirs |} ]
        ++ global ++ map (userMount GOOS) (corescan.Volumes c)
    ∧ Forall (fun p => filepath.IsAbs p = true ∧ filepath.Clean p = p)
        ([cachePath; projectPath; resultsPath; reportPath] ++ map mount.Source global).
Proof.
  intros Hwd H.
  apply getDockerOptions_fields in H as (_ & _ & _ & _ & _ & _ & _ & _ & _ & _ & _ & Hm).
  destruct Hm as (p1 & p2 & p3 & p4 & global & H1 & H2 & H3 & H4 & Hg & ->).
  exists p1, p2, p3, p4, global. repeat (split; [done|]).
  apply (Abs_rooted _ _ _ Hwd) in H1, H2, H3, H4.
  repeat (apply Forall_cons; split; [done|]).
  destruct (String.eqb (corescan.GlobalConfigurationsDir c) EmptyString).
  - subst global. by apply Forall_nil.
  - destruct Hg as (g & Hg%(Abs_rooted _ _ _ Hwd) & ->).
    apply Forall_cons. split; [done|]. by apply Forall_nil.
Qed.

(** X15.  The tracing capability and the unconfined seccomp profile are given to
    the images whose reference contains [dotnet], and to no other. *)
Theorem ptrace_for_dotnet_only
    (c : corescan.Context) (image : string) (s s' : Proc)
    (cfg : backend.ContainerCreateConfig) :
  builder c image s = (Done cfg, s') ->
  let host := backend.HostConfig cfg in
  (strings.Contains image "dotnet" = true ->
     container.CapAdd host = ["SYS_PTRACE"]
     ∧ container.SecurityOpt host = ["seccomp=unconfined"])
  ∧ (strings.Contains image "dotnet" = false ->
     container.CapAdd host = [] ∧ container.SecurityOpt host = []).
Proof.
  intros H host. subst host.
  apply getDockerOptions_fields in H as (_ & _ & _ & _ & _ & _ & _ & _ & _ & -> & -> & _).
  split; intros ->; done.
Qed.

(** X16.  The container is removed when it exits unless the variable that keeps
    it is set; it runs the image and the arguments of the context as the
    user of the context, with both output streams attached. *)
Theorem container_settings
    (c : corescan.Context) (image : string) (s s' : Proc)
    (cfg : backend.ContainerCreateConfig) :
  builder c image s = (Done cfg, s') ->
  (container.AutoRemove (backend.HostConfig cfg) = true
     ↔ Getenv w (qdenv.QodanaCliContainerKeep names) = EmptyString)
  ∧ container.Image (backend.Config cfg) = image
  ∧ container.Cmd (backend.Config cfg) = GetIdeArgs c
  ∧ container.User (backend.Config cfg) = corescan.User c
  ∧ container.Tty (backend.Config cfg) = IsInteractive w
  ∧ container.AttachStdout (backend.Config cfg) = true
  ∧ container.AttachStderr (backend.Config cfg) = true.
Proof.
  intros H.
  apply getDockerOptions_fields
    in H as (_ & _ & -> & -> & -> & -> & -> & -> & -> & _).
  split; [|done]. apply String.eqb_eq.
Qed.


Local Abbreviation stopOwn :=
  (fun c : container.Summary =>
    match container.Names c with
    | [] => panic "index out of range [0] with length 0"
    | n0 :: _ =>
        name ← getContainerName;
        if String.eqb n0 ("/" +:+ name) then
          r ← engineCall (CallContainerStop n0)
                (fun h => engContainerStop (engine w) h n0);
          match r with
          | Some err => logFatal ("couldn't stop the container " +:+ err)
          | None => mret tt
          end
        else mret tt
    end).

(** One iteration of the loop of [ContainerCleanup]. *)
Lemma cleanup_step (c : container.Summary) (s sb : Proc) (ob : Outcome unit) :
  stopOwn c s = (ob, sb) ->
  containerName sb = containerName s ∧ messages sb = messages s
  ∧ (isOwn (containerName s) c = true
     ∧ calls sb = calls s ++ [CallContainerStop ("/" +:+ containerName s)]
     ∨ isOwn (containerName s) c = false ∧ calls sb = calls s ∧ ob ≠ Done tt
     ∨ isOwn (containerName s) c = false ∧ calls sb = calls s ∧ ob = Done tt).
Proof.
  unfold isOwn. destruct (container.Names c) as [|n0 ns].
  { intros [= <- <-]. split; [done|]. split; [done|]. right. left. done. }
  unfold mbind at 1, M_bind at 1, getContainerName at 1. cbn beta iota.
  destruct (String.eqb_spec n0 ("/" +:+ containerName s)) as [->|Hne].
  - unfold engineCall, mbind, M_bind. cbn beta iota.
    destruct (engContainerStop _ _ _); intros [= <- <-]; cbn; auto.
  - intros [= <- <-]. split; [done|]. split; [done|]. right. right. done.
Qed.

(** The loop of [ContainerCleanup] over the listed containers. *)
Lemma cleanup_loop (containers : list container.Summary) :
  ∀ (s s' : Proc) (o : Outcome unit),
    forEach containers stopOwn s = (o, s') ->
    containerName s' = containerName s
    ∧ messages s' = messages s
    ∧ ∃ stops,
        calls s' = calls s ++ stops
        ∧ Forall (fun call => call = CallContainerStop ("/" +:+ containerName s)) stops
        ∧ (length stops
           ≤ length (filter (fun c => isOwn (containerName s) c = true) containers))%nat
        ∧ (o = Done tt ->
           length stops
           = length (filter (fun c => isOwn (containerName s) c = true) containers)).
Proof.
  induction containers as [|c containers IH]; intros s s' o Hr.
  { injection Hr as <- <-. split; [done|]. split; [done|]. exists [].
    by rewrite app_nil_r. }
  cbn [forEach] in Hr. unfold mbind at 1, M_bind at 1 in Hr.
  pose proof (cleanup_step c s) as Hb. cbn beta in Hb.
  match type of Hb with
  | ∀ sb ob, ?t = _ -> _ => destruct t as [ob sb]
  end.
  destruct (Hb _ _ eq_refl) as (Hn & Hm & Hb'). clear Hb. rename Hb' into Hb.
  rewrite filter_cons.
  assert (Hrest : ob = Done tt -> forEach containers stopOwn sb = (o, s')).
  { intros ->. exact Hr. }
  assert (Hstop : ob ≠ Done tt -> s' = sb ∧ o ≠ Done tt).
  { destruct ob as [[]| |]; [done| |]; intros _; by injection Hr as <- <-. }
  clear Hr.
  destruct Hb as [(Hown & Hc) | [(Hown & Hc & Hob) | (Hown & Hc & ->)]]; rewrite Hown.
  - rewrite decide_True by done.
    assert (Hdec : ob = Done tt ∨ ob ≠ Done tt)
      by (destruct ob as [[]| |]; [by left | by right..]).
    destruct Hdec as [->|Hob].
    + destruct (IH _ _ _ (Hrest eq_refl)) as (Hn' & Hm' & stops & Hc' & Hall & Hle & Hdone).
      rewrite Hn in *. split; [done|]. split; [congruence|].
      exists (CallContainerStop ("/" +:+ containerName s) :: stops).
      split; [rewrite Hc', Hc; by rewrite <- app_assoc|].
      split; [by constructor|]. cbn [length]. split; [lia|].
      intros Hd. by rewrite (Hdone Hd).
    + destruct (Hstop Hob) as [-> Ho]. split; [done|]. split; [done|].
      exists [CallContainerStop ("/" +:+ containerName s)]. split; [done|].
      split; [by repeat constructor|]. cbn [length]. split; [lia | done].
  - rewrite decide_False by done. destruct (Hstop Hob) as [-> Ho].
    split; [done|]. split; [done|]. exists []. rewrite app_nil_r.
    split; [done|]. split; [done|]. cbn [length]. split; [lia | done].
  - rewrite decide_False by done.
    destruct (IH _ _ _ (Hrest eq_refl)) as (Hn' & Hm' & stops & Hc' & Hall & Hle & Hdone).
    rewrite Hn in *. split; [done|]. split; [congruence|]. exists stops.
    split; [congruence | done].
Qed.

(** X17.  [ContainerCleanup], when a container was named: one list call, then
    stop calls for the containers whose first name is the name of the
    process's container, and for no other. *)
Theorem ContainerCleanup_stops_own_containers (s : Proc) :
  containerName s ≠ containerNameSentinel ->
  let out := ContainerCleanup w s in
  containerName out.2 = containerName s
  ∧ messages out.2 = messages s
  ∧ ∃ stops,
      calls out.2 = calls s ++ CallContainerList :: stops
      ∧ Forall (fun call => call = CallContainerStop ("/" +:+ containerName s)) stops
      ∧ (∀ err, engContainerList (engine w) (calls s) = inr err ->
           stops = [] ∧ out.1 = Fatal ("couldn't get the running containers " +:+ err))
      ∧ (∀ containers, engContainerList (engine w) (calls s) = inl containers ->
           (length stops
            ≤ length (filter (fun c => isOwn (containerName s) c = true) containers))%nat
           ∧ (out.1 = Done tt ->
              length stops
              = length (filter (fun c => isOwn (containerName s) c = true) containers))).
Proof.
  intros Hname out. subst out.
  destruct (ContainerCleanup w s) as [o s'] eqn:Hr. cbn [fst snd].
  unfold ContainerCleanup in Hr.
  unfold mbind at 1, M_bind at 1, getContainerName at 1 in Hr. cbn beta iota in Hr.
  apply String.eqb_neq in Hname. unfold containerNameSentinel in Hname.
  rewrite Hname in Hr. cbn [negb] in Hr.
  unfold engineCall, mbind at 1, M_bind at 1 in Hr. cbn beta iota in Hr.
  set (s1 := {| containerName := containerName s; calls := calls s ++ [CallContainerList];
                messages := messages s |}) in Hr.
  destruct (engContainerList (engine w) (calls s)) as [containers | err].
  - destruct (cleanup_loop containers _ _ _ Hr) as (Hn & Hm & stops & Hc & Hall & Hle & Hdone).
    split; [done|]. split; [done|]. exists stops.
    split; [rewrite Hc; subst s1; cbn [calls]; by rewrite <- app_assoc|].
    split; [done|]. split; [done|]. by intros ? [= <-].
  - injection Hr as <- <-. split; [done|]. split; [done|]. exists [].
    split; [done|]. split; [done|]. split; [by intros ? [= <-] | done].
Qed.

(** With a container named, every call of the cleanup after the list call
    stops the container of that name. *)
Lemma ContainerCleanup_named (s : Proc) :
  containerName s ≠ containerNameSentinel ->
  ∃ stops,
    calls (ContainerCleanup w s).2 = calls s ++ CallContainerList :: stops
    ∧ Forall (fun call => call = CallContainerStop ("/" +:+ containerName s)) stops.
Proof.
  intros Hname.
  destruct (ContainerCleanup w s) as [o s'] eqn:Hr. cbn [fst snd].
  unfold ContainerCleanup in Hr.
  unfold mbind at 1, M_bind at 1, getContainerName at 1 in Hr. cbn beta iota in Hr.
  apply String.eqb_neq in Hname. unfold containerNameSentinel in Hname.
  rewrite Hname in Hr. cbn [negb] in Hr.
  unfold engineCall, mbind at 1, M_bind at 1 in Hr. cbn beta iota in Hr.
  destruct (engContainerList (engine w) (calls s)) as [containers | err].
  - destruct (cleanup_loop containers _ _ _ Hr) as (_ & _ & stops & Hc & Hall & _).
    exists stops. split; [rewrite Hc; cbn [calls]; by rewrite <- app_assoc | done].
  - injection Hr as <- <-. by exists [].
Qed.

(** X18.  The name of the container is the name that [ContainerCleanup] looks
    for afterwards.  Without a name in the environment it is [qodana-cli-]
    and the run identifier, never the initial name, so that the cleanup
    asks the engine and stops that container only; with the initial name
    [qodana-cli] in the environment, the cleanup does nothing. *)
Theorem cleanup_after_builder
    (c : corescan.Context) (image : string) (s s' : Proc)
    (cfg : backend.ContainerCreateConfig) :
  builder c image s = (Done cfg, s') ->
  let given := Getenv w (qdenv.QodanaCliContainerName names) in
  containerName s' = backend.Name cfg
  ∧ (given = EmptyString -> backend.Name cfg = "qodana-cli-" +:+ corescan.Id c)
  ∧ (given ≠ EmptyString -> backend.Name cfg = given)
  ∧ (given ≠ containerNameSentinel ->
     ∃ stops,
       calls (ContainerCleanup w s').2 = calls s' ++ CallContainerList :: stops
       ∧ Forall (fun call => call = CallContainerStop ("/" +:+ backend.Name cfg)) stops)
  ∧ (given = containerNameSentinel -> ContainerCleanup w s' = (Done tt, s')).
Proof.
  intros H given.
  apply getDockerOptions_fields in H as (Hn & Hs & _). unfold chosenName in *.
  fold given in Hn, Hs. rewrite Hn.
  split; [done|]. split; [by intros ->|].
  split; [intros Hg; by rewrite (eqb_empty_false _ Hg)|]. split.
  - intros Hg.
    assert (Hne : containerName s' ≠ containerNameSentinel).
    { rewrite Hs. destruct (String.eqb_spec given EmptyString); [|done].
      intros Heq. apply (f_equal String.length) in Heq.
      rewrite slength_app in Heq. cbn in Heq. lia. }
    destruct (ContainerCleanup_named s' Hne) as (stops & Hc & Hall).
    exists stops. by rewrite <- Hs.
  - intros Hg. unfold ContainerCleanup, mbind, M_bind, getContainerName.
    rewrite Hs, Hg. reflexivity.
Qed.


Variable Version : string.

Local Abbreviation run :=
  (runQodanaContainer GOOS Version names dirs GetIdeArgs envExtractedFromOsEnv w).

(** The calls of [pullImage]: the anonymous pull, then image pulls only;
    it changes nothing else, and does not panic. *)
Lemma pullImage_pulls (image : string) (s s' : Proc) (o : Outcome unit) :
  pullImage w image s = (o, s') ->
  containerName s' = containerName s ∧ messages s' = messages s
  ∧ (∀ t, o ≠ Panic t)
  ∧ ∃ rest, calls s' = calls s ++ CallImagePull image anonymousPull :: rest
            ∧ Forall (fun call => isImagePull call = true) rest.
Proof.
  intros Hr.
  assert (Hdrain : ∀ reader s0 rest,
    drainAndClose reader s0 = (o, s') ->
    containerName s0 = containerName s -> messages s0 = messages s ->
    calls s0 = calls s ++ CallImagePull image anonymousPull :: rest ->
    Forall (fun call => isImagePull call = true) rest ->
    containerName s' = containerName s ∧ messages s' = messages s
    ∧ (∀ t, o ≠ Panic t)
    ∧ ∃ rest, calls s' = calls s ++ CallImagePull image anonymousPull :: rest
              ∧ Forall (fun call => isImagePull call = true) rest).
  { intros reader s0 rest Hd Hn Hm Hc Hall.
    pose proof (drainAndClose_state reader s0) as Hs.
    pose proof (drainAndClose_no_panic reader s0) as Hp.
    rewrite Hd in Hs, Hp. cbn in Hs, Hp. subst s'. eauto 6. }
  assert (Hfatal : ∀ (t : string) s0 rest,
    (Fatal t, s0) = (o, s') ->
    containerName s0 = containerName s -> messages s0 = messages s ->
    calls s0 = calls s ++ CallImagePull image anonymousPull :: rest ->
    Forall (fun call => isImagePull call = true) rest ->
    containerName s' = containerName s ∧ messages s' = messages s
    ∧ (∀ t, o ≠ Panic t)
    ∧ ∃ rest, calls s' = calls s ++ CallImagePull image anonymousPull :: rest
              ∧ Forall (fun call => isImagePull call = true) rest).
  { intros t s0 rest [= <- <-] Hn Hm Hc Hall. eauto 6. }
  unfold pullImage, ImagePull, engineCall in Hr.
  unfold mbind at 1, M_bind at 1 in Hr. cbn beta iota in Hr.
  destruct (engImagePull (engine w) (calls s) image anonymousPull) as [reader | err].
  { by apply (Hdrain _ _ [] Hr). }
  unfold logFatal in Hr.
  destruct (isDockerUnauthorizedError err); [|by apply (Hfatal _ _ [] Hr)].
  destruct (cliconfigLoad w) as [cfg|]; [|by apply (Hfatal _ _ [] Hr)].
  destruct (cfg _) as [a|]; [|by apply (Hfatal _ _ [] Hr)].
  destruct (encodeAuthToBase64 w a) as [enc|]; [|by apply (Hfatal _ _ [] Hr)].
  unfold mbind, M_bind in Hr. cbn beta iota in Hr. cbn [calls] in Hr.
  destruct (engImagePull _ _ _ _) as [reader | err'].
  - apply (Hdrain _ _ [CallImagePull image {| types.RegistryAuth := enc |}] Hr);
      [done | done | | by repeat constructor]. cbn [calls]. by rewrite <- app_assoc.
  - apply (Hfatal _ _ [CallImagePull image {| types.RegistryAuth := enc |}] Hr);
      [done | done | | by repeat constructor]. cbn [calls]. by rewrite <- app_assoc.
Qed.

Lemma runContainer_Done (opts : backend.ContainerCreateConfig) (s s' : Proc) :
  runContainer w opts s = (Done tt, s') ->
  ∃ id, engContainerCreate (engine w) (calls s) opts = inl id
        ∧ engContainerStart (engine w) (calls s ++ [CallContainerCreate opts]) id = None
        ∧ s' = {| containerName := containerName s;
                  calls := calls s ++ [CallContainerCreate opts; CallContainerStart id];
                  messages := messages s |}.
Proof.
  unfold runContainer, engineCall. unfold mbind at 1, M_bind at 1. cbn beta iota.
  destruct (engContainerCreate (engine w) (calls s) opts) as [id|err]; [|discriminate].
  unfold mbind, M_bind. cbn beta iota. cbn [calls containerName messages].
  destruct (engContainerStart _ _ _) eqn:Hstart; [discriminate|].
  intros [= <-]. exists id. by rewrite <- app_assoc.
Qed.

Lemma getContainerExitCode_Done (id : string) (code : Z) (s s' : Proc) :
  getContainerExitCode w id s = (Done code, s') ->
  (engContainerWait (engine w) (calls s) id = container.WaitStatus code
   ∨ engContainerWait (engine w) (calls s) id = container.WaitErr None ∧ code = 0)
  ∧ s' = {| containerName := containerName s;
            calls := calls s ++ [CallContainerWait id];
            messages := messages s |}.
Proof.
  unfold getContainerExitCode, engineCall. unfold mbind, M_bind. cbn beta iota.
  destruct (engContainerWait (engine w) (calls s) id) as [[err|] | status];
    [discriminate | |]; intros [= <- <-]; auto.
Qed.

(** X12.  When the run returns the status of a container.  On an engine that
    reports [linux], a run that returns has asked for the daemon
    information, pulled the image unless told to skip that, then created one
    container from the specification of the builder, started the container
    that the engine created, and waited for the container of the
    specification's name; the status it returns is the status that the wait
    received, or 0 when the wait received a nil error. *)
Theorem run_returns_status_of_its_container
    (c : corescan.Context) (image : string) (info : types.Info)
    (code : Z) (s s' : Proc) :
  corescan.Analyser c = product.DockerAnalyzer image ->
  engInfo (engine w) (calls s) = inl info ->
  types.OSType info = "linux" ->
  run c s = (Done code, s') ->
  ∃ pulls cfg id,
    calls s'
    = calls s ++ [CallInfo] ++ pulls
      ++ [ CallContainerCreate cfg; CallContainerStart id;
           CallContainerWait (backend.Name cfg) ]
    ∧ Forall (fun call => isImagePull call = true) pulls
    ∧ (pulls = [] ↔ corescan.SkipPull c = true)
    ∧ container.Image (backend.Config cfg) = image
    ∧ containerName s' = backend.Name cfg
    ∧ engContainerCreate (engine w) (calls s ++ [CallInfo] ++ pulls) cfg = inl id
    ∧ (engContainerWait (engine w)
         (calls s ++ [CallInfo] ++ pulls
          ++ [CallContainerCreate cfg; CallContainerStart id]) (backend.Name cfg)
       = container.WaitStatus code
       ∨ engContainerWait (engine w)
           (calls s ++ [CallInfo] ++ pulls
            ++ [CallContainerCreate cfg; CallContainerStart id]) (backend.Name cfg)
         = container.WaitErr None ∧ code = 0).
Proof.
  intros Ha Hinfo Hos Hr. unfold runQodanaContainer in Hr. rewrite Ha in Hr.
  apply bind_inv in Hr as (r & s1 & [= <- <-] & Hr). rewrite Hinfo in Hr.
  rewrite Hos in Hr. cbn [String.eqb Ascii.eqb Ascii.compare negb] in Hr.
  change (String.eqb "linux" "linux") with true in Hr. cbn [negb] in Hr.
  apply bind_inv in Hr as ([] & s1 & [= <-] & Hr).
  apply bind_inv in Hr as ([] & s2 & Hcheck & Hr).
  destruct (CheckImage_Done Version image
              {| containerName := containerName s; calls := calls s ++ [CallInfo];
                 messages := messages s |}) as (s2' & Hcheck' & Hc2 & _).
  rewrite Hcheck in Hcheck'. injection Hcheck' as <-. cbn [calls] in Hc2.
  apply bind_inv in Hr as ([] & s3 & Hpull & Hr).
  assert (Hpulls : ∃ pulls, calls s3 = calls s2 ++ pulls
                            ∧ Forall (fun call => isImagePull call = true) pulls
                            ∧ (pulls = [] ↔ corescan.SkipPull c = true)).
  { destruct (corescan.SkipPull c); cbn [negb] in Hpull.
    - injection Hpull as <-. exists []. by rewrite app_nil_r.
    - apply pullImage_pulls in Hpull as (_ & _ & _ & rest & Hc & Hall).
      eexists. split; [exact Hc|]. split; [by constructor | done]. }
  destruct Hpulls as (pulls & Hc3 & Hall & Hskip).
  apply bind_inv in Hr as (cfg & s4 & Hbuild & Hr).
  pose proof (getDockerOptions_Done _ _ _ _ _ _ _ _ _ _ _ Hbuild) as (Hc4 & _ & Hname & _).
  pose proof (getDockerOptions_fields _ _ _ _ _ Hbuild) as (_ & _ & Himage & _).
  apply bind_inv in Hr as ([] & s5 & (id & Hcreate & Hstart & ->)%runContainer_Done & Hr).
  apply bind_inv in Hr as (code' & s6 & [Hwait ->]%getContainerExitCode_Done & Hr).
  apply bind_inv in Hr as ([] & s7 & [= <-] & [= <- <-]).
  cbn [calls containerName] in *.
  assert (Hh : calls s4 = calls s ++ [CallInfo] ++ pulls).
  { rewrite Hc4, Hc3, Hc2. by rewrite <- app_assoc. }
  exists pulls, cfg, id. rewrite Hh in *.
  split; [by rewrite <- !app_assoc|]. split; [done|]. split; [done|].
  split; [done|]. split; [done|]. split; [done|].
  by rewrite <- !app_assoc in Hwait.
Qed.


Lemma callsOnly_quiet {A} (P : Call -> bool) (m : M A) : quiet m -> callsOnly P m.
Proof. intros Hq s. exists []. rewrite app_nil_r. by destruct (Hq s). Qed.

Lemma callsOnly_bind {A B} (P : Call -> bool) (m : M A) (k : A -> M B) :
  callsOnly P m -> (∀ a, callsOnly P (k a)) -> callsOnly P (m ≫= k).
Proof.
  intros Hm Hk s. destruct (Hm s) as (new & Hc & Hall). unfold mbind, M_bind.
  destruct (m s) as [[a|t|t] s1]; cbn [snd] in Hc; [|by exists new..].
  destruct (Hk a s1) as (new' & Hc' & Hall'). exists (new ++ new').
  rewrite Hc', Hc, app_assoc. split; [done | by apply Forall_app].
Qed.

Lemma callsOnly_engineCall {A} (P : Call -> bool) (c : Call) (answer : list Call -> A) :
  P c = true -> callsOnly P (engineCall c answer).
Proof. intros Hc s. exists [c]. split; [done | by repeat constructor]. Qed.

Lemma quiet_CheckImage (linter : string) : quiet (CheckImage Version linter).
Proof.
  unfold CheckImage. destruct (_ || _); [apply quiet_ret|].
  apply quiet_bind; [destruct (isUnofficialLinter linter); [apply quiet_emit | apply quiet_ret]|].
  intros _. destruct (negb (hasExactVersionTag linter)); [apply quiet_emit|].
  destruct (negb (isCompatibleLinter linter)); [apply quiet_emit | apply quiet_ret].
Qed.

(** The calls of the run after the image: creating, starting and waiting. *)
Lemma callsOnly_lifecycle (P : Call -> bool) (c : corescan.Context) (image : string) :
  (∀ cfg, P (CallContainerCreate cfg) = true) ->
  (∀ id, P (CallContainerStart id) = true) ->
  (∀ id, P (CallContainerWait id) = true) ->
  callsOnly P
    (dockerConfig ← builder c image;
     runContainer w dockerConfig;;
     exitCode ← getContainerExitCode w (backend.Name dockerConfig);
     fixDarwinCaches (corescan.CacheDir c);;
     mret exitCode).
Proof.
  intros Hcreate Hstart Hwait.
  apply callsOnly_bind; [apply callsOnly_quiet, quiet_getDockerOptions|]. intros cfg.
  apply callsOnly_bind.
  { unfold runContainer. apply callsOnly_bind; [by apply callsOnly_engineCall|].
    intros [id|err]; [|apply callsOnly_quiet, quiet_logFatal].
    apply callsOnly_bind; [by apply callsOnly_engineCall|].
    intros [err|]; apply callsOnly_quiet; [apply quiet_logFatal | apply quiet_ret]. }
  intros _. apply callsOnly_bind.
  { unfold getContainerExitCode. apply callsOnly_bind; [by apply callsOnly_engineCall|].
    intros [[err|] | code]; apply callsOnly_quiet;
      [apply quiet_logFatal | apply quiet_ret | apply quiet_ret]. }
  intros code. apply callsOnly_bind; [apply callsOnly_quiet, quiet_ret|].
  intros _. apply callsOnly_quiet, quiet_ret.
Qed.

(** X13.  A run that is told to skip the pull never pulls an image, however it
    ends; and no run lists or stops containers. *)
Theorem run_skips_pull (c : corescan.Context) (s : Proc) :
  (corescan.SkipPull c = true ->
   ∃ new, calls (run c s).2 = calls s ++ new
          ∧ Forall (fun call => isImagePull call = false) new)
  ∧ ∃ new, calls (run c s).2 = calls s ++ new
           ∧ Forall (fun call => call ≠ CallContainerList
                                 ∧ ∀ name, call ≠ CallContainerStop name) new.
Proof.
  assert (Hrun : ∀ P : Call -> bool,
    P CallInfo = true ->
    (∀ cfg, P (CallContainerCreate cfg) = true) ->
    (∀ id, P (CallContainerStart id) = true) ->
    (∀ id, P (CallContainerWait id) = true) ->
    callsOnly P (PullImage w (match corescan.Analyser c with
                              | product.DockerAnalyzer image => image
                              | _ => EmptyString
                              end))
    ∨ corescan.SkipPull c = true ->
    callsOnly P (run c)).
  { intros P Hinfo Hcreate Hstart Hwait Hpull. unfold runQodanaContainer.
    destruct (corescan.Analyser c) as [image | name];
      [|apply callsOnly_quiet, quiet_logFatal].
    apply callsOnly_bind; [by apply callsOnly_engineCall|].
    intros [info | err]; [|apply callsOnly_quiet, quiet_logFatal].
    destruct (negb _).
    { apply callsOnly_quiet, quiet_bind; [apply quiet_emit | intros _; apply quiet_ret]. }
    apply callsOnly_bind; [apply callsOnly_quiet, quiet_ret|]. intros _.
    apply callsOnly_bind; [apply callsOnly_quiet, quiet_CheckImage|]. intros _.
    apply callsOnly_bind; [|intros _; by apply callsOnly_lifecycle].
    destruct Hpull as [Hpull | ->]; [|apply callsOnly_quiet, quiet_ret].
    destruct (negb _); [exact Hpull | apply callsOnly_quiet, quiet_ret]. }
  split.
  - intros Hskip.
    destruct (Hrun (fun call => negb (isImagePull call))) with (s := s)
      as (new & Hc & Hall); try done; [by right|].
    exists new. split; [done|]. eapply Forall_impl; [exact Hall|].
    intros call Hcall. apply negb_true_iff in Hcall. exact Hcall.
  - destruct (Hrun (fun call => match call with
                                | CallContainerList | CallContainerStop _ => false
                                | _ => true
                                end)) with (s := s) as (new & Hc & Hall); try done.
    { left. intros s0. unfold PullImage.
      destruct (pullImage w _ s0) as [o s1] eqn:Hp.
      apply pullImage_pulls in Hp as (_ & _ & _ & rest & Hc & Hall). cbn [snd].
      eexists. split; [exact Hc|]. constructor; [done|].
      eapply Forall_impl; [exact Hall|]. by intros []. }
    exists new. split; [done|]. eapply Forall_impl; [exact Hall|].
    intros []; done.
Qed.


(** X11.  The run on an engine that does what it is asked.  When the engine
    reports [linux], every pull of the image, the creation and the start of
    the container succeed, and the wait receives a status, then, with the
    working directory known and the volumes of the context well formed, the
    run returns that status, after the daemon query, one anonymous pull
    (unless skipped), and the creation, the start and the wait of one
    container, named as the builder chose. *)
Theorem run_on_obliging_engine
    (c : corescan.Context) (image wd id : string) (info : types.Info)
    (stream : PullStream) (code : Z) (s : Proc) :
  corescan.Analyser c = product.DockerAnalyzer image ->
  (∀ h, engInfo (engine w) h = inl info) ->
  types.OSType info = "linux" ->
  (∀ h opts, engImagePull (engine w) h image opts = inl stream) ->
  copyErr stream = None -> closeErr stream = None ->
  (∀ h cfg, engContainerCreate (engine w) h cfg = inl id) ->
  (∀ h, engContainerStart (engine w) h id = None) ->
  (∀ h name, engContainerWait (engine w) h name = container.WaitStatus code) ->
  Getwd w = inl wd ->
  Forall (fun v => parses GOOS v = true) (corescan.Volumes c) ->
  ∃ cfg s',
    run c s = (Done code, s')
    ∧ calls s'
      = calls s ++ [CallInfo]
        ++ (if corescan.SkipPull c then [] else [CallImagePull image anonymousPull])
        ++ [ CallContainerCreate cfg; CallContainerStart id;
             CallContainerWait (backend.Name cfg) ]
    ∧ backend.Name cfg = chosen c
    ∧ containerName s' = chosen c.
Proof.
  intros Ha Hinfo Hos Hpull Hcopy Hclose Hcreate Hstart Hwait Hwd Hvol.
  unfold runQodanaContainer. rewrite Ha.
  unfold engineCall at 1. unfold mbind at 1, M_bind at 1. rewrite Hinfo, Hos.
  change (String.eqb "linux" "linux") with true. cbn [negb].
  set (s1 := {| containerName := containerName s; calls := calls s ++ [CallInfo];
                messages := messages s |}).
  unfold fixDarwinCaches at 1. erewrite bind_Done by reflexivity.
  destruct (CheckImage_Done Version image s1) as (s2 & Hcheck & Hc2 & _).
  rewrite (bind_Done _ _ _ _ _ Hcheck).
  set (pulls := if corescan.SkipPull c then [] else [CallImagePull image anonymousPull]).
  assert (Hp : ∃ s3, (if negb (corescan.SkipPull c) then PullImage w image else mret tt) s2
                     = (Done tt, s3)
                     ∧ calls s3 = calls s2 ++ pulls).
  { subst pulls. destruct (corescan.SkipPull c); cbn [negb].
    - exists s2. by rewrite app_nil_r.
    - eexists. split.
      + unfold PullImage, pullImage, ImagePull, engineCall, mbind, M_bind.
        rewrite Hpull. unfold drainAndClose. rewrite Hcopy, Hclose. reflexivity.
      + reflexivity. }
  destruct Hp as (s3 & Hp & Hc3). rewrite (bind_Done _ _ _ _ _ Hp).
  destruct (getDockerOptions_returns GOOS names dirs GetIdeArgs envExtractedFromOsEnv w
              c image wd s3 Hwd Hvol) as (cfg & s4 & Hb).
  rewrite (bind_Done _ _ _ _ _ Hb).
  pose proof (getDockerOptions_Done _ _ _ _ _ _ _ _ _ _ _ Hb) as (Hc4 & _).
  pose proof (getDockerOptions_fields _ _ _ _ _ Hb) as (Hname & Hs4 & _).
  exists cfg. eexists. split.
  - unfold runContainer, getContainerExitCode, engineCall, mbind, M_bind.
    rewrite Hcreate. cbn beta iota. rewrite Hstart. unfold mret, M_ret. cbn beta iota.
    rewrite Hwait. reflexivity.
  - cbn [calls containerName]. split; [|done].
    rewrite Hc4, Hc3, Hc2. subst s1. cbn [calls]. by rewrite <- !app_assoc.
Qed.


(** X24.  Any colon counts as a version tag.  A reference with a colon that does
    not contain [:latest] is taken to have an exact version tag, also when
    the colon is that of the port of a registry, as in
    [registry.local:5000/qodana-jvm]: [CheckImage] prints no unpinned
    warning for it. *)
Theorem CheckImage_any_colon_is_a_tag (registry rest : string) (s : Proc) :
  strings.Contains (registry +:+ ":" +:+ rest) ":latest" = false ->
  hasExactVersionTag (registry +:+ ":" +:+ rest) = true
  ∧ ∃ emitted,
      CheckImage Version (registry +:+ ":" +:+ rest) s
      = (Done tt, {| containerName := containerName s; calls := calls s;
                     messages := messages s ++ emitted |})
      ∧ ∀ m, m ∈ emitted -> formatOf m ≠ unpinnedFormat.
Proof.
  intros Hlatest.
  assert (Hexact : hasExactVersionTag (registry +:+ ":" +:+ rest) = true).
  { unfold hasExactVersionTag. by rewrite Contains_app_mid, Hlatest. }
  split; [exact Hexact|]. unfold CheckImage. rewrite Hexact. cbn [negb].
  destruct (_ || _).
  { exists []. rewrite app_nil_r. split; [by destruct s | by intros ? ?%elem_of_nil]. }
  unfold mbind, M_bind, emit, mret, M_ret.
  destruct (isUnofficialLinter _); cbn beta iota;
    destruct (negb (isCompatibleLinter _)); cbn [messages calls containerName].
  - exists [unofficialWarning (registry +:+ ":" +:+ rest);
            incompatibleWarning Version (registry +:+ ":" +:+ rest)].
    split; [by rewrite <- app_assoc|].
    intros m [-> | ->%list_elem_of_singleton]%elem_of_cons; vm_compute; discriminate.
  - exists [unofficialWarning (registry +:+ ":" +:+ rest)].
    split; [done|]. intros m ->%list_elem_of_singleton. vm_compute. discriminate.
  - exists [incompatibleWarning Version (registry +:+ ":" +:+ rest)].
    split; [done|]. intros m ->%list_elem_of_singleton. vm_compute. discriminate.
  - exists []. rewrite app_nil_r. split; [by destruct s | by intros ? ?%elem_of_nil].
Qed.

End container_facts.

Section container_examples.
Import Example.

Local Abbreviation host := (world (engineOn "linux") noEnv "https://qodana.cloud").
Local Abbreviation scan := (context (product.DockerAnalyzer image) [] ["/src:/dst"] "tok" 0).

Lemma fixed_mounts_absolute_witness :
  ∃ cfg s',
    getDockerOptions "linux" names dirs GetIdeArgs envExtractedFromOsEnv host scan
      image initialProc = (Done cfg, s')
    ∧ ∃ cachePath projectPath resultsPath reportPath,
        filepath.Abs (Getwd host) (corescan.CacheDir scan) = inl cachePath
        ∧ filepath.Abs (Getwd host) (corescan.ProjectDir scan) = inl projectPath
        ∧ filepath.Abs (Getwd host) (corescan.ResultsDir scan) = inl resultsPath
        ∧ filepath.Abs (Getwd host) (corescan.ReportDir scan) = inl reportPath
        ∧ map mount.Source (container.Mounts (backend.HostConfig cfg))
          = [cachePath; projectPath; resultsPath; reportPath; "/src"]
        ∧ map mount.Target (container.Mounts (backend.HostConfig cfg))
          = [ "/data/cache"; "/data/project"; "/data/results"; "/data/results/report";
              "/dst" ].
Proof.
  eexists _, _. split; [vm_compute; reflexivity|].
  destruct (fixed_mounts_absolute "linux" names dirs GetIdeArgs envExtractedFromOsEnv
              host scan image initialProc _ _
              (fun wd H => match H in (_ = r) return
                                   (match r with
                                    | inl wd' => filepath.IsAbs wd' = true
                                    | inr _ => True
                                    end) with eq_refl => eq_refl end)
              eq_refl)
    as (p1 & p2 & p3 & p4 & global & H1 & H2 & H3 & H4 & Hg & Hm & _).
  exists p1, p2, p3, p4. repeat (split; [assumption|]).
  cbn in Hg. subst global.
  split; [exact (eq_trans (f_equal (map mount.Source) Hm) eq_refl)
         | exact (eq_trans (f_equal (map mount.Target) Hm) eq_refl)].
Defined.

Lemma ptrace_for_dotnet_only_witness :
  ∃ cfg s',
    getDockerOptions "linux" names dirs GetIdeArgs envExtractedFromOsEnv host scan
      "jetbrains/qodana-dotnet:2025.1" initialProc = (Done cfg, s')
    ∧ container.CapAdd (backend.HostConfig cfg) = ["SYS_PTRACE"]
    ∧ container.SecurityOpt (backend.HostConfig cfg) = ["seccomp=unconfined"].
Proof.
  eexists _, _. split; [vm_compute; reflexivity|].
  refine (proj1 (ptrace_for_dotnet_only "linux" names dirs GetIdeArgs envExtractedFromOsEnv
                   host scan "jetbrains/qodana-dotnet:2025.1" initialProc _ _ eq_refl) _).
  reflexivity.
Defined.

Lemma container_settings_witness :
  ∃ cfg s',
    getDockerOptions "linux" names dirs GetIdeArgs envExtractedFromOsEnv host scan
      image initialProc = (Done cfg, s')
    ∧ (container.AutoRemove (backend.HostConfig cfg) = true
         ↔ noEnv "QODANA_CLI_CONTAINER_KEEP" = EmptyString)
    ∧ container.Image (backend.Config cfg) = image
    ∧ container.Cmd (backend.Config cfg) = ["--save-report"]
    ∧ container.User (backend.Config cfg) = "1000:1000"
    ∧ container.Tty (backend.Config cfg) = false
    ∧ container.AttachStdout (backend.Config cfg) = true
    ∧ container.AttachStderr (backend.Config cfg) = true.
Proof.
  eexists _, _. split; [vm_compute; reflexivity|].
  exact (container_settings "linux" names dirs GetIdeArgs envExtractedFromOsEnv
           host scan image initialProc _ _ eq_refl).
Defined.

Lemma ContainerCleanup_stops_own_containers_witness :
  let w := world (engineListing [ {| container.Names := ["/qodana-cli-1"] |};
                                  {| container.Names := ["/other"] |} ]) noEnv "" in
  ∃ stops,
    calls (ContainerCleanup w (namedProc "qodana-cli-1")).2
    = [] ++ CallContainerList :: stops
    ∧ Forall (fun call => call = CallContainerStop "/qodana-cli-1") stops.
Proof.
  intros w.
  destruct (ContainerCleanup_stops_own_containers w (namedProc "qodana-cli-1"))
    as (_ & _ & stops & Hcalls & Hall & _); [discriminate|].
  exists stops. split; [exact Hcalls | exact Hall].
Defined.

Lemma cleanup_after_builder_witness :
  ∃ cfg s',
    getDockerOptions "linux" names dirs GetIdeArgs envExtractedFromOsEnv host scan
      image initialProc = (Done cfg, s')
    ∧ containerName s' = backend.Name cfg
    ∧ backend.Name cfg = "qodana-cli-e7090287-9c09f805".
Proof.
  eexists _, _. split; [vm_compute; reflexivity|].
  destruct (cleanup_after_builder "linux" names dirs GetIdeArgs envExtractedFromOsEnv
              host scan image initialProc _ _ eq_refl) as (Hname & Hdefault & _).
  split; [exact Hname | exact (Hdefault eq_refl)].
Defined.

Lemma run_returns_status_of_its_container_witness :
  ∃ pulls cfg id,
    calls (runQodanaContainer "linux" "2025.1.1" names dirs GetIdeArgs
             envExtractedFromOsEnv host scan initialProc).2
    = [] ++ [CallInfo] ++ pulls
      ++ [ CallContainerCreate cfg; CallContainerStart id;
           CallContainerWait (backend.Name cfg) ]
    ∧ Forall (fun call => isImagePull call = true) pulls
    ∧ container.Image (backend.Config cfg) = image.
Proof.
  destruct (run_returns_status_of_its_container
              "linux" names dirs GetIdeArgs envExtractedFromOsEnv host "2025.1.1"
              scan image {| types.OSType := "linux" |} 0
              initialProc
              (runQodanaContainer "linux" "2025.1.1" names dirs GetIdeArgs
                 envExtractedFromOsEnv host scan initialProc).2
              eq_refl eq_refl eq_refl)
    as (pulls & cfg & id & Hcalls & Hall & _ & Himage & _).
  - vm_compute. reflexivity.
  - exists pulls, cfg, id. split; [exact Hcalls|]. split; [exact Hall | exact Himage].
Defined.

Lemma run_on_obliging_engine_witness :
  ∃ cfg s',
    runQodanaContainer "linux" "2025.1.1" names dirs GetIdeArgs envExtractedFromOsEnv
      host scan initialProc = (Done 0, s')
    ∧ calls s'
      = [ CallInfo; CallImagePull image anonymousPull; CallContainerCreate cfg;
          CallContainerStart "c0ffee"; CallContainerWait (backend.Name cfg) ]
    ∧ backend.Name cfg = "qodana-cli-e7090287-9c09f805".
Proof.
  destruct (run_on_obliging_engine
              "linux" names dirs GetIdeArgs envExtractedFromOsEnv host "2025.1.1"
              scan image "/home/u" "c0ffee" {| types.OSType := "linux" |} stream 0
              initialProc)
    as (cfg & s' & Hrun & Hcalls & Hname & _); try reflexivity.
  - apply Forall_singleton. reflexivity.
  - exists cfg, s'. split; [exact Hrun|]. split; [exact Hcalls | exact Hname].
Defined.

Lemma CheckImage_any_colon_is_a_tag_witness :
  hasExactVersionTag "registry.local:5000/qodana-jvm" = true.
Proof.
  exact (proj1 (CheckImage_any_colon_is_a_tag "2025.1.1" "registry.local" "5000/qodana-jvm"
                  initialProc eq_refl)).
Defined.

End container_examples.

(** ** The command line of the debug log *)
Section debug_command_facts.

Variable GOOS : string.
Variable names : qdenv.Names.
Variable QodanaLicense : string.
Variable dirs : qdcontainer.Dirs.
Variable GetIdeArgs : corescan.Context -> list string.
Variable envExtractedFromOsEnv : World -> corescan.Context -> list string.
Variable w : World.

Local Abbreviation builder :=
  (getDockerOptions GOOS names dirs GetIdeArgs envExtractedFromOsEnv w).
Local Abbreviation command := (generateDebugDockerRunCommand names QodanaLicense).

Lemma written_app (a b : list string) : written (a ++ b) = written a +:+ written b.
Proof.
  induction a as [|x a IH]; [reflexivity|]. cbn [app written foldr].
  fold (written (a ++ b)). fold (written a). by rewrite IH, string_app_assoc.
Qed.

Lemma written_elem (x : string) (parts : list string) :
  x ∈ parts -> strings.Contains (written parts) x = true.
Proof.
  intros (a & b & ->)%list_elem_of_split. rewrite written_app.
  change (written (x :: b)) with (x +:+ written b). apply Contains_app_mid.
Qed.

Lemma Contains_prefix (s p : string) : strings.Contains (p +:+ s) p = true.
Proof. apply (Contains_app_mid EmptyString p s). Qed.

(** The command line depends on the environment through what is written
    for its entries. *)
Lemma command_env (config : container.Config) (host : option container.HostConfig)
      (env env' : list string) :
  written (map (debugEnv names QodanaLicense) env)
  = written (map (debugEnv names QodanaLicense) env') ->
  command (withEnv config env) host = command (withEnv config env') host.
Proof.
  intros H. unfold generateDebugDockerRunCommand. cbn [withEnv container.Env
    container.Image container.Cmd container.Tty container.AttachStdout
    container.AttachStderr container.User].
  rewrite !written_app, H. reflexivity.
Qed.

Lemma withEnv_same (config : container.Config) :
  withEnv config (container.Env config) = config.
Proof. by destruct config. Qed.

(** X19.  The upload token is kept out of the debug log: the entry that the
    builder adds for it is not written to the command line, which is the
    command line of the specification without that entry. *)
Theorem debug_command_without_upload_token
    (c : corescan.Context) (image : string) (s s' : Proc)
    (cfg : backend.ContainerCreateConfig) :
  builder c image s = (Done cfg, s') ->
  let entry := envEntry (qdenv.QodanaToken names) (corescan.QodanaUploadToken c) in
  corescan.QodanaUploadToken c ≠ EmptyString ->
  strings.Contains entry QodanaLicense = false ->
  strings.Contains entry (qdenv.QodanaLicenseOnlyToken names) = false ->
  container.Env (backend.Config cfg) = envExtractedFromOsEnv w c ++ [entry]
  ∧ command (backend.Config cfg) (Some (backend.HostConfig cfg))
    = command (withEnv (backend.Config cfg) (envExtractedFromOsEnv w c))
              (Some (backend.HostConfig cfg)).
Proof.
  intros H entry Htok Hl Hlo.
  apply getDockerOptions_Done in H as (_ & _ & _ & Henv & _).
  assert (He : container.Env (backend.Config cfg) = envExtractedFromOsEnv w c ++ [entry]).
  { rewrite Henv. unfold tokenEntries. rewrite (eqb_empty_false _ Htok).
    cbn [negb andb]. by rewrite andb_false_r. }
  split; [exact He|].
  rewrite <- (withEnv_same (backend.Config cfg)) at 1. rewrite He.
  apply command_env. rewrite map_app, written_app. cbn [map].
  assert (Hc : strings.Contains entry (qdenv.QodanaToken names) = true)
    by apply Contains_prefix.
  unfold debugEnv at 2. rewrite Hl, Hlo, Hc. cbn [negb orb written foldr].
  apply app_empty_r.
Qed.

(** X20.  The license-only token is written to the debug log: the entry that the
    builder adds for it is part of the command line. *)
Theorem debug_command_with_license_only_token
    (c : corescan.Context) (image : string) (s s' : Proc)
    (cfg : backend.ContainerCreateConfig) :
  builder c image s = (Done cfg, s') ->
  let token := Getenv w (qdenv.QodanaLicenseOnlyToken names) in
  let entry := envEntry (qdenv.QodanaLicenseOnlyToken names) token in
  corescan.QodanaUploadToken c = EmptyString ->
  token ≠ EmptyString ->
  entry ∈ container.Env (backend.Config cfg)
  ∧ strings.Contains (command (backend.Config cfg) (Some (backend.HostConfig cfg)))
                     ("-e " +:+ entry +:+ " ") = true.
Proof.
  intros H token entry Hup Htok.
  apply getDockerOptions_Done in H as (_ & _ & _ & Henv & _).
  assert (He : entry ∈ container.Env (backend.Config cfg)).
  { rewrite Henv. unfold tokenEntries. fold token. rewrite Hup, (eqb_empty_false _ Htok).
    cbn. apply elem_of_app. right. by left. }
  split; [exact He|].
  apply written_elem. unfold generateDebugDockerRunCommand.
  rewrite !elem_of_app. do 6 right. left.
  apply list_elem_of_fmap. exists entry. split; [|exact He].
  assert (Hc : strings.Contains entry (qdenv.QodanaLicenseOnlyToken names) = true)
    by apply Contains_prefix.
  unfold debugEnv. by rewrite Hc, orb_true_r.
Qed.

End debug_command_facts.

Section debug_command_examples.
Import Example.

Local Abbreviation host := (world (engineOn "linux") licenseEnv "https://qodana.cloud").

Lemma debug_command_without_upload_token_witness :
  ∃ cfg s',
    getDockerOptions "linux" names dirs GetIdeArgs envExtractedFromOsEnv host
      (context (product.DockerAnalyzer image) ["FOO=bar"] [] "tok" 0) image initialProc
    = (Done cfg, s')
    ∧ container.Env (backend.Config cfg) = ["FOO=bar"] ++ ["QODANA_TOKEN=tok"]
    ∧ generateDebugDockerRunCommand names "QODANA_LICENSE" (backend.Config cfg)
        (Some (backend.HostConfig cfg))
      = generateDebugDockerRunCommand names "QODANA_LICENSE"
          (withEnv (backend.Config cfg) ["FOO=bar"]) (Some (backend.HostConfig cfg)).
Proof.
  eexists _, _. split; [vm_compute; reflexivity|].
  refine (debug_command_without_upload_token
            "linux" names "QODANA_LICENSE" dirs GetIdeArgs envExtractedFromOsEnv host
            (context (product.DockerAnalyzer image) ["FOO=bar"] [] "tok" 0)
            image initialProc _ _ eq_refl _ eq_refl eq_refl).
  discriminate.
Defined.

Lemma debug_command_with_license_only_token_witness :
  ∃ cfg s',
    getDockerOptions "linux" names dirs GetIdeArgs envExtractedFromOsEnv host
      (context (product.DockerAnalyzer image) [] [] "" 0) image initialProc
    = (Done cfg, s')
    ∧ "QODANA_LICENSE_ONLY_TOKEN=lic" ∈ container.Env (backend.Config cfg)
    ∧ strings.Contains
        (generateDebugDockerRunCommand names "QODANA_LICENSE" (backend.Config cfg)
           (Some (backend.HostConfig cfg)))
        "-e QODANA_LICENSE_ONLY_TOKEN=lic " = true.
Proof.
  eexists _, _. split; [vm_compute; reflexivity|].
  refine (debug_command_with_license_only_token
            "linux" names "QODANA_LICENSE" dirs GetIdeArgs envExtractedFromOsEnv host
            (context (product.DockerAnalyzer image) [] [] "" 0)
            image initialProc _ _ eq_refl eq_refl _).
  discriminate.
Defined.

End debug_command_examples.

(** ** The port files of the cache *)
Section port_files.
Import disk.

Variable GOOS : string.
Variable readDir : list Op -> string -> list DirEntry + string.
Variable stat : list Op -> string -> option string.
Variable remove : list Op -> string -> option string.

Lemma removePorts_spec (systemDir : string) (files : list DirEntry) :
  ∀ ops, ∃ new,
    (removePorts stat remove (filepath.Join [systemDir; "idea"]) files ops).2 = ops ++ new
    ∧ Forall (fun op => ∃ file, file ∈ files ∧ IsDir file = true
                                ∧ (op = Stat (portFile systemDir file)
                                   ∨ op = Remove (portFile systemDir file))) new
    ∧ (∀ path, Remove path ∈ new -> Stat path ∈ new)
    ∧ (∀ err, (removePorts stat remove (filepath.Join [systemDir; "idea"]) files ops).1
              = Some err ->
              ∃ path, last new = Some (Remove path)).
Proof.
  induction files as [|file files IH]; intros ops.
  { exists []. rewrite app_nil_r. split; [done|]. split; [constructor|].
    split; [by intros ? ?%elem_of_nil | done]. }
  assert (Hmore : ∀ ops' pre,
    ops' = ops ++ pre ->
    Forall (fun op => ∃ f, f ∈ file :: files ∧ IsDir f = true
                           ∧ (op = Stat (portFile systemDir f)
                              ∨ op = Remove (portFile systemDir f))) pre ->
    (∀ path, Remove path ∈ pre -> Stat path ∈ pre) ->
    ∃ new,
      (removePorts stat remove (filepath.Join [systemDir; "idea"]) files ops').2 = ops ++ new
      ∧ Forall (fun op => ∃ f, f ∈ file :: files ∧ IsDir f = true
                               ∧ (op = Stat (portFile systemDir f)
                                  ∨ op = Remove (portFile systemDir f))) new
      ∧ (∀ path, Remove path ∈ new -> Stat path ∈ new)
      ∧ (∀ err, (removePorts stat remove (filepath.Join [systemDir; "idea"]) files ops').1
                = Some err ->
                ∃ path, last new = Some (Remove path))).
  { intros ops' pre -> Hpre Hstat.
    destruct (IH (ops ++ pre)) as (new & Hops & Hall & Hrm & Herr).
    exists (pre ++ new). split; [by rewrite Hops, app_assoc|]. split.
    - apply Forall_app. split; [done|]. eapply Forall_impl; [exact Hall|].
      intros op (f & Hf & Hrest). exists f. split; [by right | done].
    - split.
      + intros path [Hin | Hin]%elem_of_app; apply elem_of_app; [left | right]; auto.
      + intros err [path Hlast]%Herr. exists path.
        destruct new as [|x new]; [done|]. by rewrite last_app, Hlast. }
  cbn [removePorts]. destruct (IsDir file) eqn:Hdir.
  2: { apply (Hmore ops []); [by rewrite app_nil_r | constructor|].
       by intros ? ?%elem_of_nil. }
  fold (portFile systemDir file).
  assert (Hfile : ∃ f, f ∈ file :: files ∧ IsDir f = true
                       ∧ (Stat (portFile systemDir file) = Stat (portFile systemDir f)
                          ∨ Stat (portFile systemDir file) = Remove (portFile systemDir f))).
  { exists file. split; [left|]. split; [done | by left]. }
  assert (Hfile' : ∃ f, f ∈ file :: files ∧ IsDir f = true
                        ∧ (Remove (portFile systemDir file) = Stat (portFile systemDir f)
                           ∨ Remove (portFile systemDir file) = Remove (portFile systemDir f))).
  { exists file. split; [left|]. split; [done | by right]. }
  assert (Hboth : ∀ path, Remove path ∈ [Stat (portFile systemDir file);
                                           Remove (portFile systemDir file)] ->
                          Stat path ∈ [Stat (portFile systemDir file);
                                       Remove (portFile systemDir file)]).
  { intros path Hin. apply elem_of_cons in Hin as [[=] | Hin].
    apply list_elem_of_singleton in Hin as [= ->]. left. }
  destruct (stat ops (portFile systemDir file)).
  - apply (Hmore _ [Stat (portFile systemDir file)]); [done | by repeat constructor|].
    intros path Hin. apply list_elem_of_singleton in Hin. discriminate.
  - destruct (remove _ _) as [err|].
    + exists [Stat (portFile systemDir file); Remove (portFile systemDir file)].
      split; [done|]. split; [by repeat constructor|]. split; [exact Hboth|].
      intros _ _. by eexists.
    + apply (Hmore _ [Stat (portFile systemDir file); Remove (portFile systemDir file)]);
        [done | by repeat constructor | exact Hboth].
Qed.


(** The port files lie in the directories of the entries of [idea]. *)
Lemma portFile_resolve (cwd : list string) (systemDir : string) (file : DirEntry) :
  isName (Name file) ->
  platform.resolve cwd (portFile systemDir file)
  = platform.resolve cwd systemDir ++ ["idea"; Name file; ".port"].
Proof.
  intros Hn. unfold portFile.
  rewrite (resolve_Join_names cwd _ [Name file; ".port"]).
  - rewrite (resolve_Join_names cwd systemDir ["idea"]); [by rewrite <- app_assoc|].
    by apply Forall_singleton.
  - apply Forall_cons. split; [done|]. by apply Forall_singleton.
Qed.

Lemma app_cons_split {A} (pre post chunk new : list A) (x : A) :
  pre ++ x :: post = chunk ++ new ->
  (∃ k, chunk = pre ++ x :: k ∧ post = k ++ new)
  ∨ (∃ pre0, pre = chunk ++ pre0 ∧ new = pre0 ++ x :: post).
Proof.
  revert pre. induction chunk as [|a chunk IH]; intros pre H.
  - right. by exists pre.
  - destruct pre as [|b pre]; injection H as <- H.
    + left. by exists chunk.
    + destruct (IH pre H) as [(k & -> & ->) | (pre0 & -> & ->)].
      * left. by exists k.
      * right. by exists pre0.
Qed.

Lemma portTrace_nil (ops : list Op) : portTrace stat remove ops [] None.
Proof.
  repeat split; try (intros; by destruct pre); done.
Qed.

Lemma portTrace_missing (ops : list Op) (p err : string) :
  stat ops p = Some err -> portTrace stat remove ops [Stat p] None.
Proof.
  intros Hs. split; [|split; [|split]].
  - intros [|? [|? ?]] path post [=].
  - intros [|? [|? ?]] path post [=]. subst. rewrite app_nil_r, Hs. discriminate.
  - intros [|? [|? ?]] path post e [=].
  - discriminate.
Qed.

Lemma portTrace_removal (ops : list Op) (p : string) :
  stat ops p = None ->
  portTrace stat remove ops [Stat p; Remove p] (remove (ops ++ [Stat p]) p).
Proof.
  intros Hs. split; [|split; [|split]].
  - intros [|? [|? [|? ?]]] path post [=]. subst. exists []. by rewrite app_nil_r.
  - intros [|? [|? [|? ?]]] path post [=]. subst. by eexists.
  - intros [|? [|? [|? ?]]] path post e [=]. subst. by intros ->.
  - intros e He. by exists [Stat p], p.
Qed.

Lemma portTrace_app (ops chunk new : list Op) (res : option string) :
  portTrace stat remove ops chunk None ->
  portTrace stat remove (ops ++ chunk) new res ->
  portTrace stat remove ops (chunk ++ new) res.
Proof.
  intros (A1 & B1 & C1 & _) (A2 & B2 & C2 & D2). split; [|split; [|split]].
  - intros pre path post [(k & Hc & _) | (pre0 & -> & Hn)]%eq_sym%app_cons_split.
    + by apply (A1 _ _ _ Hc).
    + destruct (A2 _ _ _ Hn) as (pre' & -> & Hs). exists (chunk ++ pre').
      split; [by rewrite app_assoc | by rewrite app_assoc].
  - intros pre path post [(k & Hc & ->) | (pre0 & -> & Hn)]%eq_sym%app_cons_split Hs.
    + destruct (B1 _ _ _ Hc Hs) as [post' ->]. by eexists.
    + rewrite app_assoc in Hs. exact (B2 _ _ _ Hn Hs).
  - intros pre path post e [(k & Hc & _) | (pre0 & -> & Hn)]%eq_sym%app_cons_split Hr.
    + by destruct (C1 _ _ _ _ Hc Hr).
    + rewrite app_assoc in Hr. exact (C2 _ _ _ _ Hn Hr).
  - intros e (pre & path & -> & Hr)%D2. exists (chunk ++ pre), path.
    split; [by rewrite app_assoc | by rewrite app_assoc].
Qed.

Lemma removePorts_trace (ideaDir : string) (files : list DirEntry) (ops : list Op) :
  ∃ new,
    (removePorts stat remove ideaDir files ops).2 = ops ++ new
    ∧ portTrace stat remove ops new (removePorts stat remove ideaDir files ops).1.
Proof.
  revert ops. induction files as [|file files IH]; intros ops; cbn [removePorts].
  { exists []. split; [by rewrite app_nil_r | apply portTrace_nil]. }
  destruct (IsDir file); [|apply IH].
  set (p := filepath.Join [ideaDir; Name file; ".port"]).
  destruct (stat ops p) as [e|] eqn:Hs.
  - destruct (IH (ops ++ [Stat p])) as (new & Hops & Ht).
    exists ([Stat p] ++ new). split; [by rewrite Hops, <- app_assoc|].
    by apply (portTrace_app _ _ _ _ (portTrace_missing _ _ _ Hs)).
  - pose proof (portTrace_removal ops p Hs) as Hc.
    destruct (remove (ops ++ [Stat p]) p) as [e|] eqn:Hr.
    + by exists [Stat p; Remove p].
    + destruct (IH (ops ++ [Stat p; Remove p])) as (new & Hops & Ht).
      exists ([Stat p; Remove p] ++ new). split; [by rewrite Hops, <- app_assoc|].
      by apply (portTrace_app _ _ _ _ Hc).
Qed.

Lemma statted_app (a b : list Op) : statted (a ++ b) = statted a ++ statted b.
Proof. apply omap_app. Qed.

(** The entries the loop visits, in their order. *)
Lemma removePorts_visits (systemDir : string) (files : list DirEntry) (ops : list Op) :
  ∃ visited skipped,
    List.filter IsDir files = visited ++ skipped
    ∧ statted (removePorts stat remove (filepath.Join [systemDir; "idea"]) files ops).2
      = statted ops ++ map (portFile systemDir) visited
    ∧ ((removePorts stat remove (filepath.Join [systemDir; "idea"]) files ops).1 = None ->
       skipped = []).
Proof.
  revert ops. induction files as [|file files IH]; intros ops; cbn [removePorts List.filter].
  { exists [], []. split; [done|]. cbn [fst snd map]. by rewrite app_nil_r. }
  destruct (IsDir file); [|apply IH].
  fold (portFile systemDir file).
  assert (Hmore : ∀ chunk, statted chunk = [portFile systemDir file] ->
    ∃ visited skipped,
      file :: List.filter IsDir files = visited ++ skipped
      ∧ statted (removePorts stat remove (filepath.Join [systemDir; "idea"]) files
                   (ops ++ chunk)).2
        = statted ops ++ map (portFile systemDir) visited
      ∧ ((removePorts stat remove (filepath.Join [systemDir; "idea"]) files
            (ops ++ chunk)).1 = None -> skipped = [])).
  { intros chunk Hc. destruct (IH (ops ++ chunk)) as (visited & skipped & Hf & Hst & Hn).
    exists (file :: visited), skipped. split; [by rewrite Hf|]. split; [|done].
    by rewrite Hst, statted_app, Hc, <- app_assoc. }
  destruct (stat ops (portFile systemDir file)); [by apply Hmore|].
  destruct (remove _ _); [|by apply Hmore].
  exists [file], (List.filter IsDir files). cbn [fst snd].
  split; [done|]. split; [|done]. by rewrite statted_app.
Qed.

(** X21.  [fixDarwinCaches] touches the port files only.  On a host other than
    darwin it does nothing.  On darwin it reads the directory [idea] of the
    cache directory; when that fails it stops there without a warning.
    Otherwise every further call is on the port file of a directory entry;
    the entries are looked up with [os.Stat] in the order of the listing,
    all of them when no warning is logged; a file is removed right after
    its [os.Stat] succeeded, and only then; and a warning is logged exactly
    when a removal failed, which is then the last call, the warning
    carrying the error of that removal. *)
Theorem fixDarwinCaches_port_files (cwd : list string) (cacheDir : string) (ops : list Op) :
  let out := fixDarwinCaches GOOS readDir stat remove cacheDir ops in
  let ideaDir := filepath.Join [cacheDir; "idea"] in
  let hist := ops ++ [ReadDir ideaDir] in
  let warning err := "Could not remove .port from " +:+ cacheDir +:+ ": " +:+ err in
  (GOOS ≠ "darwin" -> out = ([], ops))
  ∧ (GOOS = "darwin" ->
     ∃ new,
       out.2 = hist ++ new
       ∧ (∀ err, readDir ops ideaDir = inr err -> new = [] ∧ out.1 = [])
       ∧ (∀ files, readDir ops ideaDir = inl files ->
            Forall (fun op => ∃ file, file ∈ files ∧ IsDir file = true
                                      ∧ (op = Stat (portFile cacheDir file)
                                         ∨ op = Remove (portFile cacheDir file))) new
            ∧ (∀ file, file ∈ files -> isName (Name file) ->
                 platform.resolve cwd (portFile cacheDir file)
                 = platform.resolve cwd cacheDir ++ ["idea"; Name file; ".port"])
            ∧ ∃ visited skipped,
                List.filter IsDir files = visited ++ skipped
                ∧ statted new = map (portFile cacheDir) visited
                ∧ (out.1 = [] -> skipped = []))
       ∧ (∀ pre path post, new = pre ++ Remove path :: post ->
            ∃ pre', pre = pre' ++ [Stat path] ∧ stat (hist ++ pre') path = None)
       ∧ (∀ pre path post, new = pre ++ Stat path :: post ->
            stat (hist ++ pre) path = None -> ∃ post', post = Remove path :: post')
       ∧ (∀ pre path post err, new = pre ++ Remove path :: post ->
            remove (hist ++ pre) path = Some err -> post = [] ∧ out.1 = [warning err])
       ∧ (out.1 ≠ [] ->
            ∃ pre path err, new = pre ++ [Remove path]
                            ∧ remove (hist ++ pre) path = Some err
                            ∧ out.1 = [warning err])).
Proof.
  intros out ideaDir hist warning. subst out. unfold fixDarwinCaches. split.
  { intros Hos. apply String.eqb_neq in Hos. by rewrite Hos. }
  intros ->. change (String.eqb "darwin" "darwin") with true.
  cbn beta iota. unfold removePortSocket. fold ideaDir. fold hist.
  destruct (readDir ops ideaDir) as [files | err].
  - destruct (removePorts_spec cacheDir files hist) as (new & Hops & Hall & _).
    destruct (removePorts_trace ideaDir files hist) as (new' & Hops' & A & B & C & D).
    destruct (removePorts_visits cacheDir files hist)
      as (visited & skipped & Hf & Hst & Hn).
    fold ideaDir in Hops, Hst, Hn.
    rewrite Hops in Hops'. apply app_inv_head in Hops' as <-.
    rewrite Hops, statted_app in Hst. apply app_inv_head in Hst.
    destruct (removePorts stat remove ideaDir files hist) as [[err|] ops'] eqn:Hr;
      cbn [fst snd] in *; subst ops'; exists new;
      (split; [done|]); (split; [done|]);
      (split; [intros ? [= <-]; split; [done|];
               split; [intros file _ Hname; by apply portFile_resolve|];
               exists visited, skipped; split; [done|]; split; [done|];
               first [by intros [=] | by intros _; apply Hn]|]);
      (split; [exact A|]); (split; [exact B|]).
    + split.
      * intros pre path post e Hnew He. destruct (C _ _ _ _ Hnew He) as [-> [= <-]]. done.
      * intros _. destruct (D err eq_refl) as (pre & path & -> & He). by exists pre, path, err.
    + split; [|done]. intros pre path post e Hnew He. by destruct (C _ _ _ _ Hnew He).
  - exists []. rewrite app_nil_r. split; [done|]. split; [done|]. split; [done|].
    split; [by intros [|? ?]|]. split; [by intros [|? ?]|].
    split; [by intros [|? ?]|]. done.
Qed.

End port_files.

(** ** Volume strings *)
Section volume_facts.

Lemma Split_colon_cons (a rest : string) :
  strings.Contains a ":" = false ->
  strings.Split (a +:+ ":" +:+ rest) ":" = a :: strings.Split rest ":".
Proof. intros Ha. apply (genSplit_app ":" a rest Ha). Qed.

Lemma Split_colon_free (a : string) :
  strings.Contains a ":" = false -> strings.Split a ":" = [a].
Proof. apply (genSplit_free ":"). Qed.

(** X22.  Volumes on a windows host.  A volume string is cut at its colons; the
    first two parts, joined by a colon again, are the source (a path with
    its drive letter) and the third part is the target; what follows the
    target is dropped.  A string with fewer than three parts, such as
    [source:target] without a drive letter, does not parse: the builder
    ends the process on it. *)
Theorem windows_volume_needs_three_parts :
  (∀ drive path target,
      strings.Contains drive ":" = false -> strings.Contains path ":" = false ->
      strings.Contains target ":" = false ->
      extractDockerVolumes "windows" (drive +:+ ":" +:+ path +:+ ":" +:+ target)
      = (drive +:+ ":" +:+ path, target)
      ∧ ∀ options,
          extractDockerVolumes "windows"
            (drive +:+ ":" +:+ path +:+ ":" +:+ target +:+ ":" +:+ options)
          = (drive +:+ ":" +:+ path, target))
  ∧ (∀ source target,
      strings.Contains source ":" = false -> strings.Contains target ":" = false ->
      parses "windows" (source +:+ ":" +:+ target) = false
      ∧ parses "windows" source = false).
Proof.
  split.
  - intros drive path target Hd Hp Ht. unfold extractDockerVolumes. cbn [String.eqb Ascii.eqb].
    change (String.eqb "windows" "windows") with true. cbn beta iota.
    split; [|intros options];
      rewrite (Split_colon_cons _ _ Hd), (Split_colon_cons _ _ Hp).
    + by rewrite (Split_colon_free _ Ht).
    + by rewrite (Split_colon_cons _ _ Ht).
  - intros source target Hs Ht. unfold parses, extractDockerVolumes.
    change (String.eqb "windows" "windows") with true. cbn beta iota.
    rewrite (Split_colon_cons _ _ Hs), (Split_colon_free _ Ht), (Split_colon_free _ Hs).
    done.
Qed.

(** X23.  Volumes on a POSIX host: what follows the target, such as the [ro] of
    [source:target:ro], is dropped; and a string with an empty source or an
    empty target does not parse. *)
Theorem posix_volume_options_dropped (GOOS source target options : string) :
  String.eqb GOOS "windows" = false ->
  strings.Contains source ":" = false ->
  strings.Contains target ":" = false ->
  (source ≠ EmptyString -> target ≠ EmptyString ->
   extractDockerVolumes GOOS (source +:+ ":" +:+ target +:+ ":" +:+ options)
   = (source, target))
  ∧ parses GOOS (":" +:+ target) = false
  ∧ parses GOOS (source +:+ ":") = false
  ∧ parses GOOS source = false.
Proof.
  intros Hos Hs Ht. unfold parses, extractDockerVolumes, strutil.SafeSplit. rewrite Hos.
  split; [|split; [|split]].
  - intros Hse Hte. rewrite (Split_colon_cons _ _ Hs), (Split_colon_cons _ _ Ht).
    change (default EmptyString ((source :: ?l) !! 0%nat)) with source.
    change (default EmptyString ((source :: target :: ?l) !! 1%nat)) with target.
    by rewrite (eqb_empty_false _ Hse), (eqb_empty_false _ Hte).
  - change (":" +:+ target) with (EmptyString +:+ ":" +:+ target).
    rewrite (Split_colon_cons EmptyString _ eq_refl). done.
  - change (source +:+ ":") with (source +:+ ":" +:+ EmptyString).
    rewrite (Split_colon_cons _ _ Hs). cbn. by rewrite andb_false_r.
  - rewrite (Split_colon_free _ Hs). cbn. by rewrite andb_false_r.
Qed.

End volume_facts.

Section volume_examples.

Lemma posix_volume_options_dropped_witness :
  extractDockerVolumes "linux" "/src:/dst:ro" = ("/src", "/dst").
Proof.
  refine (proj1 (posix_volume_options_dropped "linux" "/src" "/dst" "ro"
                   eq_refl eq_refl eq_refl) _ _); discriminate.
Defined.

End volume_examples.

(** ** More on archive extraction *)
Section more_extraction_facts.
Import platform.

Variable osErr : list FsOp -> FsOp -> option string.
Variable cwd : list string.

(** X27.  Extraction of a zip archive when nothing fails: for each member, in the
    order of the archive, its directory is made, or the directory of its
    path is made and its content is written to the path of its name below
    the destination. *)
Theorem unpackZip_extracts_every_member
    (destPath : string) (files : list zipFile) (ops : list FsOp) :
  (∀ ops op, osErr ops op = None) ->
  Forall (fun f => zipAccepts destPath f = true
                   ∧ (zIsDir f = false -> (∃ src, zOpen f = inl src) ∧ zSrcClose f = None)) files ->
  unpackZipFiles osErr destPath files ops
  = (None, false, ops ++ flat_map (zipOps destPath) files).
Proof.
  intros Hok Hall. revert ops.
  induction Hall as [|f files (Hacc & Hf) _ IH]; intros ops.
  { cbn. by rewrite app_nil_r. }
  cbn [unpackZipFiles flat_map]. unfold unpackZipFile, perform, zipOps.
  unfold zipAccepts in Hacc. rewrite Hacc. cbn [negb]. rewrite !Hok.
  destruct (zIsDir f).
  - rewrite IH. by rewrite <- app_assoc.
  - destruct (Hf eq_refl) as [[src Hopen] Hclose].
    rewrite Hopen, !Hok, Hclose, IH. by rewrite <- !app_assoc.
Qed.


(** A path that the check of [unpackZip] accepts, and its directory, lead
    into the destination, when the cleaned destination does not start with
    [..]. *)
Lemma zipCheck_Dir_inside (destPath name : string) :
  strings.HasPrefix (filepath.Clean destPath) ".." = false ->
  strings.HasPrefix (filepath.Join [destPath; name])
                    (filepath.Clean destPath +:+ filepath.sepString) = true ->
  outside cwd destPath (filepath.Join [destPath; name]) = false
  ∧ outside cwd destPath (Dir (filepath.Join [destPath; name])) = false.
Proof.
  intros Hup Hacc. split; [by apply zipCheck_inside|].
  unfold outside. apply negb_false_iff.
  pose proof (Clean_cleaned destPath) as HB.
  assert (HT : ∃ r' u' names', cleaned (filepath.Join [destPath; name]) r' u' names').
  { destruct (String.eqb_spec destPath EmptyString) as [->|Hd].
    - destruct (String.eqb_spec name EmptyString) as [->|Hn]; [discriminate|].
      eexists _, _, _. cbn [filepath.Join]. cbn [String.eqb].
      rewrite (eqb_empty_false _ Hn). apply Clean_cleaned.
    - eexists _, _, _. by apply Join_cleaned. }
  destruct HT as (r' & u' & names' & HT).
  destruct (zipCheck_cleaned _ _ _ _ _ _ _ _ HB HT Hup Hacc) as (-> & -> & more & ->).
  destruct more as [|m more _] using rev_ind.
  { (* the path is longer than the cleaned destination *)
    exfalso. rewrite app_nil_r in HT.
    destruct HB as (HBs & _). destruct HT as (HTs & _).
    apply sprefix_exists in Hacc as [rest Hf].
    rewrite HTs, <- HBs, string_app_assoc in Hf.
    apply (f_equal String.length) in Hf. rewrite !slength_app in Hf. cbn in Hf. lia. }
  rewrite app_assoc in HT. rewrite (Dir_cleaned _ _ _ _ _ HT).
  assert (Hd : cleaned (render (filepath.IsAbs destPath)
                          (norm (filepath.IsAbs destPath) (elemsOf destPath)).1
                          (rev (norm (filepath.IsAbs destPath) (elemsOf destPath)).2 ++ more))
                 (filepath.IsAbs destPath)
                 (norm (filepath.IsAbs destPath) (elemsOf destPath)).1
                 (rev (norm (filepath.IsAbs destPath) (elemsOf destPath)).2 ++ more)).
  { destruct HT as (_ & Hn & Hu). split; [done|]. split; [|done].
    by apply Forall_app in Hn as [Hn _]. }
  rewrite (cleaned_resolve cwd _ _ _ _ Hd), resolve_norm.
  rewrite app_assoc. apply isPrefixOf_app.
Qed.

Lemma unpackZipFile_stays_inside (destPath : string) (f : zipFile) (ops : list FsOp) :
  strings.HasPrefix (filepath.Clean destPath) ".." = false ->
  ∃ new,
    match unpackZipFile osErr destPath f ops with
    | inl ops' => ops' = ops ++ new
    | inr (_, ops') => ops' = ops ++ new
    end
    ∧ Forall (fun op => outside cwd destPath (pathOf op) = false) new.
Proof.
  intros Hup. unfold unpackZipFile, perform.
  destruct (strings.HasPrefix (filepath.Join [destPath; zName f])
              (filepath.Clean destPath +:+ filepath.sepString)) eqn:Hin;
    [|exists []; by rewrite app_nil_r].
  destruct (zipCheck_Dir_inside _ _ Hup Hin) as [Hf Hd]. cbn [negb].
  repeat match goal with
  | |- context [if ?b then _ else _] => destruct b
  | |- context [match osErr ?o ?op with _ => _ end] => destruct (osErr o op)
  | |- context [match zOpen ?x with _ => _ end] => destruct (zOpen x)
  | |- context [match zSrcClose ?x with _ => _ end] => destruct (zSrcClose x)
  end;
  eexists; (split; [rewrite <- ?app_assoc; reflexivity || (symmetry; apply app_nil_r)
                   | repeat constructor; assumption]).
Qed.

(** X26.  The zip path stays inside, when the cleaned destination does not start
    with [..] (as for every absolute destination): every file system call
    of the extraction is on a path that leads into the destination. *)
Theorem unpackZip_stays_inside
    (destPath : string) (files : list zipFile) (ops : list FsOp) :
  strings.HasPrefix (filepath.Clean destPath) ".." = false ->
  ∃ new,
    (unpackZipFiles osErr destPath files ops).2 = ops ++ new
    ∧ Forall (fun op => outside cwd destPath (pathOf op) = false) new.
Proof.
  intros Hup. revert ops. induction files as [|f files IH]; intros ops.
  - exists []. by rewrite app_nil_r.
  - cbn [unpackZipFiles].
    destruct (unpackZipFile_stays_inside destPath f ops Hup) as (new & Hops & Hnew).
    destruct (unpackZipFile osErr destPath f ops) as [ops' | [r ops']].
    + subst ops'. destruct (IH (ops ++ new)) as (new' & Hops' & Hnew').
      exists (new ++ new'). rewrite Hops', app_assoc. split; [done|].
      by apply Forall_app.
    + subst ops'. by exists new.
Qed.

Section decompress_facts.

Variable GOOS : string.
Variable zipOpenReader : string -> zipReader + string.
Variable osOpen : string -> tarGz + string.

(** X28.  A failed copy is reported as success.  When the content of a regular
    file of a tar archive cannot be copied and the file is closed without
    error, the error of the copy is lost: the extraction stops at this
    entry with a nil error, the entries after it are not extracted, and
    [Decompress] returns nil. *)
Theorem Decompress_loses_copy_error
    (archivePath destPath err : string) (header : tarHeader)
    (rest : list (tarHeader + string)) (ops : list FsOp) :
  let target := filepath.Join [destPath; hName header] in
  let made := [ OpOpenFile target false (hMode header);
                OpCopy target (hData header); OpClose target ] in
  strings.HasSuffix archivePath ".zip" = false ->
  GOOS ≠ "windows" ->
  osOpen archivePath
  = inl {| tGzip := inl {| tItems := inl header :: rest; tGzipClose := None |};
           tFileClose := None |} ->
  isInDirectory destPath target = true ->
  hTypeflag header = tar_TypeReg ->
  osErr ops (OpOpenFile target false (hMode header)) = None ->
  osErr (ops ++ [OpOpenFile target false (hMode header)])
        (OpCopy target (hData header)) = Some err ->
  osErr (ops ++ [OpOpenFile target false (hMode header); OpCopy target (hData header)])
        (OpClose target) = None ->
  extractTarItems osErr destPath (inl header :: rest) ops = (None, true, ops ++ made)
  ∧ Decompress GOOS osErr zipOpenReader osOpen archivePath destPath ops
    = (Done None, ops ++ made).
Proof.
  intros target made Hzip Hos Hopen Hin Htype Ho Hc Hcl.
  assert (Hitems : extractTarItems osErr destPath (inl header :: rest) ops
                   = (None, true, ops ++ made)).
  { cbn [extractTarItems]. unfold extractTarEntry, perform. fold target.
    rewrite Hin, Htype. cbn [negb]. change (Ascii.eqb tar_TypeReg tar_TypeDir) with false.
    change (Ascii.eqb tar_TypeReg tar_TypeReg) with true. cbn beta iota.
    rewrite Ho, Hc. rewrite <- app_assoc. cbn [app]. rewrite Hcl.
    by rewrite <- !app_assoc. }
  split; [exact Hitems|].
  unfold Decompress. rewrite Hzip. apply String.eqb_neq in Hos. rewrite Hos.
  cbn [orb]. unfold extractTarGz. rewrite Hopen. cbn [tGzip tItems tGzipClose tFileClose].
  by rewrite Hitems.
Qed.

End decompress_facts.

End more_extraction_facts.

Section more_extraction_examples.
Import Example platform.

Lemma unpackZip_extracts_every_member_witness :
  unpackZipFiles noErr "/tmp/out" plainZip []
  = (None, false,
     [] ++ flat_map (zipOps "/tmp/out") plainZip).
Proof.
  apply (unpackZip_extracts_every_member noErr "/tmp/out" plainZip []).
  - reflexivity.
  - repeat (apply Forall_cons; split; [split; [reflexivity | by eauto]|]).
    by apply Forall_nil.
Defined.

Lemma unpackZip_stays_inside_witness :
  ∃ new,
    (unpackZipFiles noErr "/tmp/out" (plainZip ++ zFiles escapingZip) []).2 = [] ++ new
    ∧ Forall (fun op => outside ["work"] "/tmp/out" (pathOf op) = false) new.
Proof.
  apply (unpackZip_stays_inside noErr ["work"] "/tmp/out"
           (plainZip ++ zFiles escapingZip) []).
  reflexivity.
Defined.

Lemma Decompress_loses_copy_error_witness :
  Decompress "linux" copyFails noZip tarArchive "tools.tar.gz" "/tmp/out" []
  = (Done None,
     [] ++ [ OpOpenFile "/tmp/out/lib/tool.jar" false 420;
             OpCopy "/tmp/out/lib/tool.jar" "data";
             OpClose "/tmp/out/lib/tool.jar" ]).
Proof.
  refine (proj2 (Decompress_loses_copy_error
                   copyFails "linux" noZip tarArchive "tools.tar.gz" "/tmp/out"
                   "no space left on device" tarFile [inl tarFile] []
                   eq_refl _ eq_refl eq_refl eq_refl eq_refl eq_refl eq_refl)).
  discriminate.
Defined.

End more_extraction_examples.

(** ** Further examples *)
Section further_examples.
Import Example.

Lemma getLinterAndIdeFromProject_at_most_one_witness :
  ∃ notices linter ide,
    compute.getLinterAndIdeFromProject LoadQodanaYaml GetAnalyzer strutil_Contains
      PrimaryBold "tok" "proj" "qodana.yaml"
    = (notices, compute.Returns (linter, ide))
    ∧ (linter = EmptyString ∨ ide = EmptyString).
Proof.
  eexists _, _, _. split; [vm_compute; reflexivity|].
  exact (proj1 (getLinterAndIdeFromProject_at_most_one
                  LoadQodanaYaml GetAnalyzer strutil_Contains PrimaryBold
                  "tok" "proj" "qodana.yaml") _ _ _ eq_refl).
Defined.

Lemma run_skips_pull_witness :
  ∃ new,
    calls (runQodanaContainer "linux" "2025.1.1" names dirs GetIdeArgs
             envExtractedFromOsEnv
             (world (engineOn "linux") noEnv "https://qodana.cloud")
             skipping initialProc).2
    = [] ++ new
    ∧ Forall (fun call => isImagePull call = false) new.
Proof.
  exact (proj1 (run_skips_pull "linux" names dirs GetIdeArgs envExtractedFromOsEnv
                  (world (engineOn "linux") noEnv "https://qodana.cloud")
                  "2025.1.1" skipping initialProc) eq_refl).
Defined.

Lemma fixDarwinCaches_port_files_witness :
  ∃ new,
    (disk.fixDarwinCaches "darwin" ideaEntries found removed "/home/u/.cache/qodana" []).2
    = [disk.ReadDir "/home/u/.cache/qodana/idea"] ++ new
    ∧ statted new = ["/home/u/.cache/qodana/idea/session1/.port"]
    ∧ ∀ pre path post, new = pre ++ disk.Remove path :: post ->
        ∃ pre', pre = pre' ++ [disk.Stat path].
Proof.
  destruct (proj2 (fixDarwinCaches_port_files "darwin" ideaEntries found removed
                     ["work"] "/home/u/.cache/qodana" []) eq_refl)
    as (new & Hops & _ & Hfiles & A & _).
  destruct (Hfiles _ eq_refl) as (_ & _ & visited & skipped & Hf & Hst & Hn).
  exists new. split; [exact Hops|]. split.
  - rewrite Hst. rewrite (Hn eq_refl), app_nil_r in Hf. by rewrite <- Hf.
  - intros pre path post Hnew. destruct (A _ _ _ Hnew) as (pre' & -> & _). by exists pre'.
Defined.

Lemma windows_volume_needs_three_parts_witness :
  extractDockerVolumes "windows" "C:/data:/dst" = ("C:/data", "/dst")
  ∧ parses "windows" "/src:/dst" = false.
Proof.
  split.
  - exact (proj1 (proj1 windows_volume_needs_three_parts "C" "/data" "/dst"
                    eq_refl eq_refl eq_refl)).
  - exact (proj1 (proj2 windows_volume_needs_three_parts "/src" "/dst" eq_refl eq_refl)).
Defined.

End further_examples.
